(** * Audio Delay Meter: the delay estimation engine of audio-delay-meter.c

    A shallow embedding of the ring accumulator, the signal conditioner, the
    lag search, the measurement orchestrator and the host callbacks, with
    the properties the specification states about them and further
    properties of the code.

    Conventions of the embedding.
    - [size_t], [uint64_t], [uint32_t] and [int] values are integers of [Z];
      every conversion of the source is written out as a wrap-around
      ([size_t], [uint64_t], [uint32_t], [int_cast]).
    - Arrays are lists, read with [l !!! i] and written with [<[i:=x]> l];
      the source never indexes outside its allocation on the inputs the
      theorems consider, and the bounds that guarantee it are stated.
    - [float] and [double] values are real numbers of [R]: rounding, NaN and
      infinities are outside the model. The coefficient [0.95f] and the
      guard [1e-8] denote the decimals they spell; the threshold [0.6f],
      which decides a comparison, denotes the single-precision number it
      is. Where a property rests on exact arithmetic its statement says so.
    - Signed overflow is undefined in the source: the negation of a lag
      bound equal to [INT_MIN] is outside the model, and the theorems about
      the lags the source visits exclude it.
    - The mutex only serialises accesses and is not represented; logging
      ([blog]) does not touch the engine state. The UI task [set_result]
      queues is [apply_result_ui]; what is modelled of the queue is whether
      a task is handed to it. *)

From Stdlib Require Import ZArith Lia List Reals Lra String.
From stdpp Require Import base list list_numbers.

Local Open Scope Z_scope.

(** ** Machine integers *)

Definition SIZE_MODULUS : Z := 18446744073709551616.   (* 2^64 *)
Definition UINT32_MODULUS : Z := 4294967296.           (* 2^32 *)
Definition INT_HALF : Z := 2147483648.                 (* 2^31 *)

Definition size_t (z : Z) : Z := z mod SIZE_MODULUS.
Definition uint64_t (z : Z) : Z := z mod SIZE_MODULUS.
Definition uint32_t (z : Z) : Z := z mod UINT32_MODULUS.

(** Conversion to a 32-bit two's complement [int]. *)
Definition int_cast (z : Z) : Z := (z + INT_HALF) mod UINT32_MODULUS - INT_HALF.

(** [for (size_t i = lo; i < hi; ++i) body], the state threaded through. *)
Definition for_loop {S : Type} (lo hi : nat) (body : nat -> S -> S) (s : S) : S :=
  fold_left (fun st i => body i st) (seq lo (hi - lo)) s.

(** [ms_to_samples]:
    [(size_t)(((uint64_t)ms * sample_rate + 500) / 1000)]. *)
Definition ms_to_samples (ms sample_rate : Z) : Z :=
  size_t (uint64_t (uint64_t (uint64_t ms * sample_rate) + 500) / 1000).

(** ** Ring accumulator *)

Section Ring.
Context {A : Type} `{!Inhabited A}.

(** One iteration of the loop of [ring_write]: store at the cursor,
    advance the cursor modulo the capacity, saturate the count. *)
Definition ring_write_step (capacity : Z) (src : list A) (i : nat)
    (st : list A * Z * Z) : list A * Z * Z :=
  let '(buffer, pos, count) := st in
  let buffer := <[Z.to_nat pos := src !!! i]> buffer in
  let pos := size_t (pos + 1) mod capacity in
  let count := if count <? capacity then size_t (count + 1) else count in
  (buffer, pos, count).

(** [ring_write buffer capacity &pos &count src frames]; the updated
    buffer, cursor and count are returned. *)
Definition ring_write (buffer : list A) (capacity pos count : Z)
    (src : list A) (frames : Z) : list A * Z * Z :=
  for_loop 0 (Z.to_nat frames) (ring_write_step capacity src)
    (buffer, pos, count).

(** The copy loop of [copy_recent] on one buffer:
    [out[i] = buffer[(start + i) % capacity]] for [i < frames]. *)
Definition ring_read (buffer : list A) (capacity start : Z) (frames : Z)
    : list A :=
  for_loop 0 (Z.to_nat frames)
    (fun i out => <[i := buffer !!! Z.to_nat (size_t (start + Z.of_nat i) mod capacity)]> out)
    (replicate (Z.to_nat frames) inhabitant).

(** The start index [copy_recent] computes for a buffer:
    [(pos + capacity - frames) % capacity]. *)
Definition recent_start (capacity pos frames : Z) : Z :=
  size_t (size_t (pos + capacity) - frames) mod capacity.

End Ring.

(** ** Constants of the engine *)

Definition BUFFER_SECONDS : Z := 5.
Definition MIN_WINDOW_MS : Z := 200.
Definition MAX_WINDOW_MS : Z := 3000.
Definition DEFAULT_WINDOW_MS : Z := 1000.
Definition MAX_LAG_MS : Z := 1500.
(** [MIN_CORR_THRESHOLD] is [0.6f]: the binary32 number nearest to 0.6,
    5033165 / 2^23, which the comparison with the double [best_corr]
    promotes to double unchanged. *)
Definition MIN_CORR_THRESHOLD : R := 0.60000002384185791015625%R.
Definition PRE_EMPHASIS_ALPHA : R := 0.95%R.

#[global] Instance R_inhabited : Inhabited R := populate 0%R.

(** ** Signal conditioner *)

(** [apply_pre_emphasis]: the loop carries the unfiltered previous sample
    in [prev]. *)
Definition apply_pre_emphasis (data : list R) (frames : Z) : list R :=
  if frames <? 2 then data
  else
    let prev := data !!! 0%nat in
    fst (for_loop 1 (Z.to_nat frames)
           (fun i '(data, prev) =>
              let next := data !!! i in
              (<[i := (next - PRE_EMPHASIS_ALPHA * prev)%R]> data, next))
           (data, prev)).

(** The weight [w] the loop of [apply_hann_window] computes at index [i]:
    [0.5 * (1.0 - cos(2.0 * M_PI * (double)i / (frames - 1.0)))]. *)
Definition hann_weight (i : nat) (frames : Z) : R :=
  (0.5 * (1.0 - cos (2.0 * PI * INR i / (IZR frames - 1.0))))%R.

(** [apply_hann_window]; the cast [(float)w] is the identity on reals. *)
Definition apply_hann_window (data : list R) (frames : Z) : list R :=
  if frames <=? 1 then data
  else
    for_loop 0 (Z.to_nat frames)
      (fun i data => <[i := (data !!! i * hann_weight i frames)%R]> data)
      data.

(** ** Engine state *)

(** A handle on a host source ([obs_source_t *]). *)
Definition obs_source : Type := nat.

Inductive audio_format : Type :=
  | AUDIO_FORMAT_FLOAT
  | AUDIO_FORMAT_FLOAT_PLANAR
  | AUDIO_FORMAT_OTHER.

(** The texts the engine stores: literals, and the results of the
    [snprintf] and [strftime] calls, kept with their arguments. *)
Inductive text : Type :=
  | Lit (s : string)
  | FmtDelay (delay_ms corr : R)          (* "%+6.1f ms (correlation: %.3f)" *)
  | FmtLags (name : string) (ms : R)      (* "Target '%s' lags reference by %.1f ms" *)
  | FmtLeads (name : string) (ms : R)     (* "Target '%s' leads reference by %.1f ms" *)
  | FmtAligned (name : string)            (* "Target '%s' is aligned with reference" *)
  | FmtTime (now : Z).                    (* strftime "%H:%M:%S" of localtime(now) *)

(** [struct delay_meter_data], without the mutex. *)
Record delay_meter_data : Type := mk_dm {
  context : option obs_source;
  target : option obs_source;
  target_name : option string;
  ref_buffer : list R;
  tgt_buffer : list R;
  capacity : Z;
  ref_pos : Z;
  tgt_pos : Z;
  ref_count : Z;
  tgt_count : Z;
  sample_rate : Z;
  format : audio_format;
  window_ms : Z;
  max_lag_ms : Z;
  debug_enabled : bool;
  last_delay_text : option text;
  last_time_text : option text;
  last_notes : option text;
  last_delay_ms : R;
  last_correlation : R;
  ui_update_pending : bool;
  last_delay_valid : bool
}.

(** Field updates. *)
Definition with_target (t : option obs_source) (n : option string)
    (dm : delay_meter_data) : delay_meter_data :=
  mk_dm dm.(context) t n dm.(ref_buffer) dm.(tgt_buffer) dm.(capacity)
    dm.(ref_pos) dm.(tgt_pos) dm.(ref_count) dm.(tgt_count) dm.(sample_rate)
    dm.(format) dm.(window_ms) dm.(max_lag_ms) dm.(debug_enabled)
    dm.(last_delay_text) dm.(last_time_text) dm.(last_notes)
    dm.(last_delay_ms) dm.(last_correlation) dm.(ui_update_pending)
    dm.(last_delay_valid).

Definition with_ref_ring (r : list R * Z * Z) (dm : delay_meter_data)
    : delay_meter_data :=
  let '(b, p, c) := r in
  mk_dm dm.(context) dm.(target) dm.(target_name) b dm.(tgt_buffer)
    dm.(capacity) p dm.(tgt_pos) c dm.(tgt_count) dm.(sample_rate)
    dm.(format) dm.(window_ms) dm.(max_lag_ms) dm.(debug_enabled)
    dm.(last_delay_text) dm.(last_time_text) dm.(last_notes)
    dm.(last_delay_ms) dm.(last_correlation) dm.(ui_update_pending)
    dm.(last_delay_valid).

Definition with_tgt_ring (r : list R * Z * Z) (dm : delay_meter_data)
    : delay_meter_data :=
  let '(b, p, c) := r in
  mk_dm dm.(context) dm.(target) dm.(target_name) dm.(ref_buffer) b
    dm.(capacity) dm.(ref_pos) p dm.(ref_count) c dm.(sample_rate)
    dm.(format) dm.(window_ms) dm.(max_lag_ms) dm.(debug_enabled)
    dm.(last_delay_text) dm.(last_time_text) dm.(last_notes)
    dm.(last_delay_ms) dm.(last_correlation) dm.(ui_update_pending)
    dm.(last_delay_valid).

Definition with_config (w l : Z) (d : bool) (dm : delay_meter_data)
    : delay_meter_data :=
  mk_dm dm.(context) dm.(target) dm.(target_name) dm.(ref_buffer)
    dm.(tgt_buffer) dm.(capacity) dm.(ref_pos) dm.(tgt_pos) dm.(ref_count)
    dm.(tgt_count) dm.(sample_rate) dm.(format) w l d
    dm.(last_delay_text) dm.(last_time_text) dm.(last_notes)
    dm.(last_delay_ms) dm.(last_correlation) dm.(ui_update_pending)
    dm.(last_delay_valid).

Definition with_texts (d t n : option text) (pending valid : bool)
    (dm : delay_meter_data) : delay_meter_data :=
  mk_dm dm.(context) dm.(target) dm.(target_name) dm.(ref_buffer)
    dm.(tgt_buffer) dm.(capacity) dm.(ref_pos) dm.(tgt_pos) dm.(ref_count)
    dm.(tgt_count) dm.(sample_rate) dm.(format) dm.(window_ms)
    dm.(max_lag_ms) dm.(debug_enabled) d t n
    dm.(last_delay_ms) dm.(last_correlation) pending valid.

Definition with_last_delay_valid (v : bool) (dm : delay_meter_data)
    : delay_meter_data :=
  with_texts dm.(last_delay_text) dm.(last_time_text) dm.(last_notes)
    dm.(ui_update_pending) v dm.

Definition with_last_delay_ms (ms : R) (dm : delay_meter_data)
    : delay_meter_data :=
  mk_dm dm.(context) dm.(target) dm.(target_name) dm.(ref_buffer)
    dm.(tgt_buffer) dm.(capacity) dm.(ref_pos) dm.(tgt_pos) dm.(ref_count)
    dm.(tgt_count) dm.(sample_rate) dm.(format) dm.(window_ms)
    dm.(max_lag_ms) dm.(debug_enabled)
    dm.(last_delay_text) dm.(last_time_text) dm.(last_notes)
    ms dm.(last_correlation) dm.(ui_update_pending) dm.(last_delay_valid).

(** ** Snapshot of the two rings *)

(** The frame count [copy_recent] settles on:
    [min(min(ref_count, tgt_count), ms_to_samples(window_ms, sample_rate))]. *)
Definition snapshot_frames (dm : delay_meter_data) : Z :=
  let available :=
    if dm.(ref_count) <? dm.(tgt_count) then dm.(ref_count) else dm.(tgt_count) in
  let window_frames := ms_to_samples dm.(window_ms) dm.(sample_rate) in
  if available <? window_frames then available else window_frames.

(** The copy loop of [copy_recent], filling both copies in one pass. *)
Definition snapshot_loop (dm : delay_meter_data) (ref_start tgt_start frames : Z)
    (ref tgt : list R) : list R * list R :=
  for_loop 0 (Z.to_nat frames)
    (fun i '(ref, tgt) =>
       (<[i := dm.(ref_buffer) !!! Z.to_nat (size_t (ref_start + Z.of_nat i) mod dm.(capacity))]> ref,
        <[i := dm.(tgt_buffer) !!! Z.to_nat (size_t (tgt_start + Z.of_nat i) mod dm.(capacity))]> tgt))
    (ref, tgt).

(** The first phase of [copy_recent], up to the end of the copy loop: the
    frame count, the 1024-frame test, the two allocations ([alloc_ok] tells
    whether both [bmalloc] calls returned a block) and the linearising copy. *)
Definition snapshot (dm : delay_meter_data) (alloc_ok : bool)
    : option (list R * list R * Z) :=
  let frames := snapshot_frames dm in
  if frames <? 1024 then None
  else if negb alloc_ok then None
  else
    let ref := replicate (Z.to_nat frames) inhabitant in
    let tgt := replicate (Z.to_nat frames) inhabitant in
    let ref_start := recent_start dm.(capacity) dm.(ref_pos) frames in
    let tgt_start := recent_start dm.(capacity) dm.(tgt_pos) frames in
    let '(ref, tgt) := snapshot_loop dm ref_start tgt_start frames ref tgt in
    Some (ref, tgt, frames).

(** [copy_recent]: the snapshot, then pre-emphasis and the Hann window on
    both copies. *)
Definition copy_recent (dm : delay_meter_data) (alloc_ok : bool)
    : option (list R * list R * Z) :=
  match snapshot dm alloc_ok with
  | None => None
  | Some (ref, tgt, frames) =>
      let ref := apply_pre_emphasis ref frames in
      let tgt := apply_pre_emphasis tgt frames in
      let ref := apply_hann_window ref frames in
      let tgt := apply_hann_window tgt frames in
      Some (ref, tgt, frames)
  end.

(** ** Lag search *)

Section LagSearch.
Local Open Scope R_scope.

(** The mean loop of [estimate_delay]: both sums, then the divisions by
    [frames]. *)
Definition snapshot_means (ref tgt : list R) (frames : Z) : R * R :=
  let '(ref_mean, tgt_mean) :=
    for_loop 0 (Z.to_nat frames)
      (fun i '(ref_mean, tgt_mean) => (ref_mean + ref !!! i, tgt_mean + tgt !!! i))
      (0.0, 0.0) in
  (ref_mean / IZR frames, tgt_mean / IZR frames).

(** The inner loop over the overlap: [(sum_ab, sum_a2, sum_b2)]. *)
Definition lag_sums (ref tgt : list R) (ref_mean tgt_mean : R)
    (start_a start_b overlap : Z) : R * R * R :=
  for_loop 0 (Z.to_nat overlap)
    (fun i '(sum_ab, sum_a2, sum_b2) =>
       let da := ref !!! Z.to_nat (size_t (start_a + Z.of_nat i)) - ref_mean in
       let db := tgt !!! Z.to_nat (size_t (start_b + Z.of_nat i)) - tgt_mean in
       (sum_ab + da * db, sum_a2 + da * da, sum_b2 + db * db))
    (0.0, 0.0, 0.0).

(** The overlap of a lag: [frames - abs_lag] in [size_t]. *)
Definition lag_overlap (frames lag : Z) : Z := size_t (frames - Z.abs lag).

(** The sums of a lag: the windows the body selects
    ([ref[0..overlap)] against [tgt[lag..)] for [lag >= 0],
    [ref[|lag|..)] against [tgt[0..overlap)] otherwise) and the inner loop
    over them. *)
Definition lag_sums_at (ref tgt : list R) (ref_mean tgt_mean : R)
    (frames lag : Z) : R * R * R :=
  let abs_lag := Z.abs lag in
  let overlap := lag_overlap frames lag in
  let start_a := if (lag >=? 0)%Z then 0%Z else abs_lag in
  let start_b := if (lag >=? 0)%Z then abs_lag else 0%Z in
  lag_sums ref tgt ref_mean tgt_mean start_a start_b overlap.

(** The body of the lag loop up to [corr]: [None] is a [continue] (too
    little overlap, or a denominator below [1e-8]), [Some corr] the
    correlation of a lag that was evaluated. *)
Definition lag_corr (ref tgt : list R) (ref_mean tgt_mean : R)
    (frames lag : Z) : option R :=
  let overlap := lag_overlap frames lag in
  if (overlap <? 1024)%Z then None
  else
    let '(sum_ab, sum_a2, sum_b2) :=
      lag_sums_at ref tgt ref_mean tgt_mean frames lag in
    let denom := sqrt (sum_a2 * sum_b2) in
    if Rlt_dec denom 1e-8 then None
    else Some (sum_ab / denom).

(** The rest of the body: count the lag, keep it when its correlation is
    strictly above the best so far. The state is
    [(best_corr, best_lag, lag_count)]. *)
Definition lag_step (ref tgt : list R) (ref_mean tgt_mean : R) (frames : Z)
    (st : R * Z * Z) (lag : Z) : R * Z * Z :=
  let '(best_corr, best_lag, lag_count) := st in
  match lag_corr ref tgt ref_mean tgt_mean frames lag with
  | None => st
  | Some corr =>
      let lag_count := (lag_count + 1)%Z in
      if Rgt_dec corr best_corr then (corr, lag, lag_count)
      else (best_corr, best_lag, lag_count)
  end.

(** The lags of [for (int lag = -max_lag; lag <= max_lag; ++lag)], in the
    order the loop visits them, for a [max_lag] above [INT_MIN]: a negative
    [max_lag] gives no lag at all. At [INT_MIN] the negation overflows in
    the source, whose behaviour is then undefined; the list is empty there
    too, and the theorems that speak of the lags the source visits assume
    [- INT_HALF < max_lag]. *)
Definition lag_range (max_lag : Z) : list Z :=
  seqZ (- max_lag) (2 * max_lag + 1).

(** The search of [estimate_delay] on a conditioned snapshot:
    [(best_corr, best_lag, lag_count)]. *)
Definition find_best_lag (ref tgt : list R) (frames max_lag : Z) : R * Z * Z :=
  let '(ref_mean, tgt_mean) := snapshot_means ref tgt frames in
  fold_left (lag_step ref tgt ref_mean tgt_mean frames) (lag_range max_lag)
    (-1.0, 0%Z, 0%Z).

(** [max_lag] as [estimate_delay] computes it: the conversion from
    milliseconds cast to [int], clamped to [(int)frames / 2]. *)
Definition clamp_max_lag (max_lag_ms sample_rate frames : Z) : Z :=
  let max_lag := int_cast (ms_to_samples max_lag_ms sample_rate) in
  if (max_lag >? Z.quot (int_cast frames) 2)%Z
  then Z.quot (int_cast frames) 2 else max_lag.

(** [estimate_delay] from the end of the copy on: the clamp, the search,
    the threshold and the conversion to milliseconds. *)
Definition estimate_from_snapshot (max_lag_ms sample_rate : Z)
    (ref tgt : list R) (frames : Z) : option (R * R) :=
  let max_lag := clamp_max_lag max_lag_ms sample_rate frames in
  let '(best_corr, best_lag, _) := find_best_lag ref tgt frames max_lag in
  if Rlt_dec best_corr MIN_CORR_THRESHOLD then None
  else Some (IZR best_lag * 1000.0 / IZR sample_rate, best_corr).

(** [estimate_delay]: [Some (delay_ms, corr)] when it returns [true]. *)
Definition estimate_delay (dm : delay_meter_data) (alloc_ok : bool)
    : option (R * R) :=
  match copy_recent dm alloc_ok with
  | None => None
  | Some (ref, tgt, frames) =>
      estimate_from_snapshot dm.(max_lag_ms) dm.(sample_rate) ref tgt frames
  end.

End LagSearch.

(** ** Measurement orchestrator *)

Local Open Scope string_scope.

(** [set_result]: stores the texts, marks the result valid and raises the
    pending flag; [now] is what [time(NULL)] returned. *)
Definition set_result (dm : delay_meter_data) (now : Z)
    (delay_text notes_text : option text) : delay_meter_data :=
  match delay_text with
  | None => dm
  | Some delay_text =>
      with_texts (Some delay_text) (Some (FmtTime now))
        (Some (default (Lit EmptyString) notes_text))
        true true dm
  end.

(** [perform_measure]: the returned flag and the engine state it leaves. *)
Definition perform_measure (dm : delay_meter_data) (now : Z) (alloc_ok : bool)
    : bool * delay_meter_data :=
  match dm.(target) with
  | None =>
      let dm := set_result dm now (Some (Lit "No target source"))
                  (Some (Lit "Select a delayed source to compare against.")) in
      (false, with_last_delay_valid false dm)
  | Some _ =>
      let enough := (dm.(ref_count) >=? 1024) && (dm.(tgt_count) >=? 1024) in
      if negb enough then
        let dm := set_result dm now (Some (Lit "Buffers too small"))
                    (Some (Lit "Need more buffered audio from both reference and target before measuring.")) in
        (false, with_last_delay_valid false dm)
      else
        match estimate_delay dm alloc_ok with
        | Some (delay_ms, corr) =>
            let target_name_copy := dm.(target_name) in
            let buffer := FmtDelay delay_ms corr in
            let name := default "<target>" target_name_copy in
            let notes_buf :=
              if Rgt_dec delay_ms 0 then FmtLags name delay_ms
              else if Rlt_dec delay_ms 0 then FmtLeads name (Rabs delay_ms)
              else FmtAligned name in
            let dm := set_result dm now (Some buffer) (Some notes_buf) in
            let dm := with_last_delay_ms delay_ms dm in
            (true, with_last_delay_valid true dm)
        | None =>
            let dm := set_result dm now
                        (Some (Lit "Insufficient correlation - check audio levels and similarity"))
                        (Some (Lit "Insufficient correlation; ensure both sources carry similar program audio.")) in
            (false, with_last_delay_valid false dm)
        end
  end.

(** ** Host callbacks *)

(** [as_float_channel]: the first plane when there are planes and the
    format is a float format. *)
Definition as_float_channel (planes : option (list R)) (fmt : audio_format)
    : option (list R) :=
  match planes with
  | None => None
  | Some plane0 =>
      match fmt with
      | AUDIO_FORMAT_FLOAT | AUDIO_FORMAT_FLOAT_PLANAR => Some plane0
      | AUDIO_FORMAT_OTHER => None
      end
  end.

(** [capture_target]: the target producer. *)
Definition capture_target (dm : delay_meter_data) (planes : option (list R))
    (frames : Z) : delay_meter_data :=
  match as_float_channel planes dm.(format) with
  | None => dm
  | Some samples =>
      with_tgt_ring
        (ring_write dm.(tgt_buffer) dm.(capacity) dm.(tgt_pos) dm.(tgt_count)
           samples frames) dm
  end.

(** [connect_target]; [sources] is the host's [obs_get_source_by_name]. *)
Definition connect_target (sources : string -> option obs_source)
    (dm : delay_meter_data) (name : option string) : delay_meter_data :=
  let same :=
    match dm.(target), dm.(target_name), name with
    | Some _, Some tn, Some n => String.eqb tn n
    | _, _, _ => false
    end in
  if same then dm
  else
    let dm := match dm.(target) with
              | Some _ => with_target None dm.(target_name) dm
              | None => dm
              end in
    let new_name := match name with
                    | Some n => if String.eqb n EmptyString then None else Some n
                    | None => None
                    end in
    let dm := with_target dm.(target) new_name dm in
    match new_name with
    | None => dm
    | Some tn =>
        match sources tn with
        | None => dm
        | Some src => with_target (Some src) dm.(target_name) dm
        end
    end.

(** [delay_meter_filter_audio]: the reference producer. On an unbound
    engine with a stored name it first retries the connection. The source
    hands [dm->target_name] itself to [connect_target], which frees it
    before it copies it; the model copies the name first, as a caller that
    owns its argument would have it. The theorems below stay off this
    path: their engines are bound or have no stored name. *)
Definition delay_meter_filter_audio (sources : string -> option obs_source)
    (dm : delay_meter_data) (planes : option (list R)) (frames : Z)
    : delay_meter_data :=
  let dm := match dm.(target), dm.(target_name) with
            | None, Some tn => connect_target sources dm (Some tn)
            | _, _ => dm
            end in
  match dm.(target) with
  | None => dm
  | Some _ =>
      match as_float_channel planes dm.(format) with
      | Some samples =>
          with_ref_ring
            (ring_write dm.(ref_buffer) dm.(capacity) dm.(ref_pos) dm.(ref_count)
               samples frames) dm
      | None => dm
      end
  end.

(** The settings object ([obs_data_t]) as far as the engine reads it. *)
Record obs_data : Type := mk_settings {
  setting_window_ms : Z;          (* long long *)
  setting_max_lag_ms : Z;         (* long long *)
  setting_debug_enabled : bool;
  setting_target_source : option string
}.

(** [obs_data_get_int], [obs_data_get_bool] and [obs_data_get_string] on the
    keys of the filter; an absent key reads as zero, false or no string. *)
Definition obs_data_get_int (settings : obs_data) (key : string) : Z :=
  if String.eqb key "window_ms" then settings.(setting_window_ms)
  else if String.eqb key "max_lag_ms" then settings.(setting_max_lag_ms)
  else 0.

Definition obs_data_get_bool (settings : obs_data) (key : string) : bool :=
  if String.eqb key "debug_enabled" then settings.(setting_debug_enabled)
  else false.

Definition obs_data_get_string (settings : obs_data) (key : string)
    : option string :=
  if String.eqb key "target_source" then settings.(setting_target_source)
  else None.

(** [delay_meter_update]. *)
Definition delay_meter_update (sources : string -> option obs_source)
    (dm : delay_meter_data) (settings : obs_data) : delay_meter_data :=
  let dm := with_config (uint32_t (obs_data_get_int settings "window_ms"))
              (uint32_t (obs_data_get_int settings "max_lag_ms"))
              (obs_data_get_bool settings "debug_enabled") dm in
  let target := obs_data_get_string settings "target_source" in
  connect_target sources dm target.

(** [delay_meter_create]; [rate] is the host's output sample rate. *)
Definition delay_meter_create (sources : string -> option obs_source)
    (settings : obs_data) (ctx : obs_source) (rate : Z) : delay_meter_data :=
  let capacity := ms_to_samples (uint32_t (BUFFER_SECONDS * 1000)) rate in
  let dm :=
    mk_dm (Some ctx) None None
      (replicate (Z.to_nat capacity) 0%R) (replicate (Z.to_nat capacity) 0%R)
      capacity 0 0 0 0 rate AUDIO_FORMAT_FLOAT_PLANAR
      (uint32_t (obs_data_get_int settings "window_ms"))
      (uint32_t (obs_data_get_int settings "max_lag_ms"))
      (obs_data_get_bool settings "debug_enabled")
      None None None 0%R 0%R false false in
  connect_target sources dm (obs_data_get_string settings "target_source").

(** The integer sliders [delay_meter_properties] declares:
    [(key, min, max, step)]. *)
Definition delay_meter_properties_sliders : list (string * Z * Z * Z) :=
  [ ("window_ms", MIN_WINDOW_MS, MAX_WINDOW_MS, 50);
    ("max_lag_ms", 50, MAX_LAG_MS, 25) ].

(** The defaults [delay_meter_defaults] installs. *)
Definition delay_meter_defaults : obs_data :=
  mk_settings DEFAULT_WINDOW_MS 500 false (Some EmptyString).

(** The settings respect the ranges of the sliders. *)
Definition within_sliders (settings : obs_data) : Prop :=
  Forall (fun '(key, lo, hi, _) => lo <= obs_data_get_int settings key <= hi)
    delay_meter_properties_sliders.

(** ** Further functions of the file *)

(** [next_power_of_2]: [p = 1; while (p < n) p <<= 1; return p] on [size_t].
    The loop runs for at most [fuel] iterations; [None] when the fuel runs
    out before the test fails. *)
Fixpoint next_power_of_2_loop (fuel : nat) (n p : Z) : option Z :=
  if (p <? n)%Z then
    match fuel with
    | O => None
    | S fuel => next_power_of_2_loop fuel n (size_t (Z.shiftl p 1))
    end
  else Some p.

Definition next_power_of_2 (fuel : nat) (n : Z) : option Z :=
  next_power_of_2_loop fuel n 1.

(** The flag [queue] of [set_result]: whether the call hands a task to the
    UI thread ([obs_queue_task]), which it does when none is pending. *)
Definition set_result_queues (dm : delay_meter_data)
    (delay_text : option text) : bool :=
  match delay_text with
  | None => false
  | Some _ => negb dm.(ui_update_pending)
  end.

(** The three texts of the settings object that [apply_result_ui] writes,
    under the keys "time_result", "delay_result" and "notes". *)
Record result_view : Type := mk_view {
  view_time_result : text;
  view_delay_result : text;
  view_notes : text
}.

(** [apply_result_ui]: clears the pending flag and copies the stored texts
    into the settings. [settings] is what [obs_source_get_settings] returned
    ([None] for a null pointer); the pair holds the engine state and the
    three texts of the settings afterwards. *)
Definition apply_result_ui (dm : delay_meter_data)
    (settings : option result_view) : delay_meter_data * option result_view :=
  match dm.(context) with
  | None => (dm, settings)
  | Some _ =>
      let result := dm.(last_delay_text) in
      let time_txt := dm.(last_time_text) in
      let notes_txt := dm.(last_notes) in
      let dm := with_texts dm.(last_delay_text) dm.(last_time_text)
                  dm.(last_notes) false dm.(last_delay_valid) dm in
      match result with
      | None => (dm, settings)
      | Some result =>
          match settings with
          | None => (dm, None)
          | Some _ =>
              (dm, Some (mk_view (default (Lit EmptyString) time_txt) result
                           (default (Lit EmptyString) notes_txt)))
          end
      end
  end.

(** [measure_now_clicked]: runs the measurement and returns [true] whatever
    its outcome. *)
Definition measure_now_clicked (dm : delay_meter_data) (now : Z)
    (alloc_ok : bool) : bool * delay_meter_data :=
  (true, snd (perform_measure dm now alloc_ok)).

(** [llround] of the C library: the nearest integer, halves away from
    zero. *)
Definition llround (x : R) : Z :=
  if Rle_dec 0 x then Int_part (x + 0.5) else (- Int_part (- x + 0.5))%Z.

(** [apply_sync_offset_clicked]. [get_parent] is the host's
    [obs_filter_get_parent] on the context and [get_ref] its
    [obs_source_get_ref]; [fmt_applied] is the text [snprintf] makes of
    "Applied %+0.1f ms to Sync Offset". The result holds the engine state
    and, when [obs_source_set_sync_offset] is called, the parent and the
    offset in nanoseconds. *)
Definition apply_sync_offset_clicked
    (get_parent : option obs_source -> option obs_source)
    (get_ref : obs_source -> option obs_source)
    (fmt_applied : R -> string)
    (dm : delay_meter_data) (now : Z)
    : delay_meter_data * option (obs_source * Z) :=
  let valid := dm.(last_delay_valid) in
  let delay_ms := dm.(last_delay_ms) in
  if negb valid then
    (set_result dm now (Some (Lit " No recent measurement"))
       (Some (Lit "Run Measure Now before applying offset.")), None)
  else
    match get_parent dm.(context) with
    | None =>
        (set_result dm now (Some (Lit " No parent source"))
           (Some (Lit "Cannot apply offset without a parent source.")), None)
    | Some parent =>
        match get_ref parent with
        | None =>
            (set_result dm now (Some (Lit " Parent unavailable"))
               (Some (Lit "Parent source vanished before applying offset.")),
             None)
        | Some parent =>
            let offset_ns := llround (delay_ms * 1000000.0) in
            (set_result dm now (Some (Lit (fmt_applied delay_ms)))
               (Some (Lit "Sync Offset updated on reference source.")),
             Some (parent, offset_ns))
        end
    end.


(** The two audio callbacks the host makes on a running filter, each with
    the samples of the first plane of its chunk; [frames] is the length of
    the chunk. *)
Inductive audio_callback : Type :=
  | ReferenceAudio (samples : list R)     (* delay_meter_filter_audio *)
  | TargetAudio (samples : list R).       (* capture_target *)

Definition run_callback (sources : string -> option obs_source)
    (dm : delay_meter_data) (cb : audio_callback) : delay_meter_data :=
  match cb with
  | ReferenceAudio samples =>
      delay_meter_filter_audio sources dm (Some samples)
        (Z.of_nat (length samples))
  | TargetAudio samples =>
      capture_target dm (Some samples) (Z.of_nat (length samples))
  end.

(** The samples a sequence of callbacks delivered on each side. *)
Definition reference_stream (cbs : list audio_callback) : list R :=
  flat_map (fun cb => match cb with
                      | ReferenceAudio samples => samples
                      | TargetAudio _ => []
                      end) cbs.

Definition target_stream (cbs : list audio_callback) : list R :=
  flat_map (fun cb => match cb with
                      | ReferenceAudio _ => []
                      | TargetAudio samples => samples
                      end) cbs.

Local Close Scope string_scope.

(** ** Specification-level notions *)

(** The samples a ring exposes, as the specification reads them: [count]
    samples, oldest first, from [(pos - count) mod capacity]. *)
Definition ring_contents {A : Type} `{!Inhabited A} (buffer : list A)
    (capacity pos count : Z) : list A :=
  ring_read buffer capacity ((pos - count) mod capacity) count.

(** A ring as the engine allocates and maintains it: [capacity] slots
    whose byte size [capacity * sizeof(float)] is representable, a cursor
    inside the buffer, a count of at most [capacity]. *)
Definition ring_ok {A : Type} (buffer : list A) (capacity pos count : Z)
    : Prop :=
  0 < capacity /\ capacity * 4 < SIZE_MODULUS /\
  Z.of_nat (length buffer) = capacity /\
  0 <= pos < capacity /\
  0 <= count <= capacity.

(** One audio callback on a ring packed as a tuple: [ring_write] of a chunk
    with [frames] equal to its length. *)
Definition write_chunk {A : Type} `{!Inhabited A} (capacity : Z)
    (st : list A * Z * Z) (src : list A) : list A * Z * Z :=
  let '(buffer, pos, count) := st in
  ring_write buffer capacity pos count src (Z.of_nat (length src)).

(** A ring holds a history [hist] (the samples written so far, oldest
    first) when its count is the length of the history capped at the
    capacity and the [j]-th slot behind the cursor stores the [j]-th most
    recent sample. *)
Definition ring_holds {A : Type} `{!Inhabited A} (buffer : list A)
    (capacity pos count : Z) (hist : list A) : Prop :=
  ring_ok buffer capacity pos count /\
  count = Z.min (Z.of_nat (length hist)) capacity /\
  forall j, 0 <= j < count ->
    buffer !!! Z.to_nat ((pos - 1 - j) mod capacity)
    = hist !!! Z.to_nat (Z.of_nat (length hist) - 1 - j).

(** The last [n] elements of a list. *)
Definition last_n {A : Type} (n : Z) (l : list A) : list A :=
  drop (length l - Z.to_nat n) l.

(** The state of the lag scan after the first [k] lags from [m], for the
    correlation [corr_of] of each lag: the best correlation bounds every
    correlation evaluated so far, and either nothing has beaten the initial
    [-1.0] or the best lag is the least lag so far that attains the best
    correlation. *)
Definition scan_inv (corr_of : Z -> option R) (m : Z) (k : nat)
    (st : R * Z * Z) : Prop :=
  let '(best_corr, best_lag, _) := st in
  (forall lag x, m <= lag < m + Z.of_nat k -> corr_of lag = Some x ->
     (x <= best_corr)%R) /\
  ((best_corr = (-1.0)%R /\ best_lag = 0) \/
   (m <= best_lag < m + Z.of_nat k /\ corr_of best_lag = Some best_corr /\
    (-1.0 < best_corr)%R /\
    forall lag x, m <= lag < best_lag -> corr_of lag = Some x ->
      (x < best_corr)%R)).

(** The sums of the mean loop and of the inner loop on arrays of integers,
    computed on integers: what the two loops compute on arrays whose
    samples are integers, by exact arithmetic. *)
Definition sums_Z (a b : list Z) (frames : Z) : Z * Z :=
  for_loop 0 (Z.to_nat frames)
    (fun i '(sa, sb) => (sa + a !!! i, sb + b !!! i)) (0, 0).

Definition lag_sums_Z (a b : list Z) (mean_a mean_b start_a start_b overlap : Z)
    : Z * Z * Z :=
  for_loop 0 (Z.to_nat overlap)
    (fun i '(sum_ab, sum_a2, sum_b2) =>
       let da := a !!! Z.to_nat (size_t (start_a + Z.of_nat i)) - mean_a in
       let db := b !!! Z.to_nat (size_t (start_b + Z.of_nat i)) - mean_b in
       (sum_ab + da * db, sum_a2 + da * da, sum_b2 + db * db))
    (0, 0, 0).

(** The raw samples whose conditioned form is [c]: the Hann weight is
    divided out and the pre-emphasis undone by the recurrence
    [x[i] = c[i] / w[i] + 0.95 * x[i-1]]. *)
Fixpoint decondition_from (frames : Z) (i : nat) (prev : R) (c : list R)
    : list R :=
  match c with
  | [] => []
  | y :: c =>
      let x := (y / hann_weight i frames + PRE_EMPHASIS_ALPHA * prev)%R in
      x :: decondition_from frames (S i) x c
  end.

Definition decondition (c : list R) : list R :=
  decondition_from (Z.of_nat (length c)) 0 0%R c.

(** ** Sample inputs *)

(** The engine on which the examples below run: a four-slot ring pair, no
    target bound. *)
Definition dm_idle : delay_meter_data :=
  mk_dm (Some 0%nat) None None [0; 0; 0; 0]%R [0; 0; 0; 0]%R 4 0 0 0 0
    48000 AUDIO_FORMAT_FLOAT_PLANAR 1000 500 false None None None
    0%R 0%R false false.

(** An engine with a target bound and both rings full of silence. *)
Definition dm_busy : delay_meter_data :=
  mk_dm (Some 0%nat) (Some 1%nat) (Some "Mic"%string)
    (replicate 2048 0%R) (replicate 2048 0%R) 2048 0 0 2048 2048
    48000 AUDIO_FORMAT_FLOAT_PLANAR 1000 500 false None None None
    0%R 0%R false false.

(** An engine whose full rings have wrapped: the cursors are inside the
    buffers, which hold the ramps [0, 1, 2, ...] and [0, 2, 4, ...]. *)
Definition dm_wrapped : delay_meter_data :=
  mk_dm (Some 0%nat) (Some 1%nat) (Some "Mic"%string)
    (fmap INR (seq 0 2048)) (fmap (fun i => (2 * INR i)%R) (seq 0 2048))
    2048 100 2000 2048 2048
    48000 AUDIO_FORMAT_FLOAT_PLANAR 1000 500 false None None None
    0%R 0%R false false.

(** An engine whose two full rings hold the same click: one sample at 1 in
    the middle of 2049 frames of silence. *)
Definition dm_click : delay_meter_data :=
  mk_dm (Some 0%nat) (Some 1%nat) (Some "Mic"%string)
    (<[1024%nat := 1%R]> (replicate 2049 0%R))
    (<[1024%nat := 1%R]> (replicate 2049 0%R))
    2049 0 0 2049 2049
    48000 AUDIO_FORMAT_FLOAT_PLANAR 1000 500 false None None None
    0%R 0%R false false.

(** The signal [1, -1, 1, -1, ...] of [n] samples. *)
Definition alternating (n : nat) : list R :=
  fmap (fun i : nat => if Nat.even i then 1%R else (-1)%R) (seq 0 n).

(** Two arrays of 1024 samples with zero ends and mean zero whose
    correlation at lag 0 is exactly 3/5: 255 periods of [1, -1, 1, -1]
    against 255 periods of [7, 1, -1, -7], which is three times the first
    pattern plus four times the pattern [1, 1, -1, -1] orthogonal to it. *)
Definition threshold_ref_Z : list Z :=
  0 :: concat (replicate 255 [1; -1; 1; -1]) ++ [0; 0; 0].

Definition threshold_tgt_Z : list Z :=
  0 :: concat (replicate 255 [7; 1; -1; -7]) ++ [0; 0; 0].

Definition threshold_ref : list R := IZR <$> threshold_ref_Z.
Definition threshold_tgt : list R := IZR <$> threshold_tgt_Z.

(** An engine whose two full rings hold the raw samples that condition to
    [threshold_ref] and [threshold_tgt]. *)
Definition dm_threshold : delay_meter_data :=
  mk_dm (Some 0%nat) (Some 1%nat) (Some "Mic"%string)
    (decondition threshold_ref) (decondition threshold_tgt)
    1024 0 0 1024 1024
    48000 AUDIO_FORMAT_FLOAT_PLANAR 1000 500 false None None None
    0%R 0%R false false.

(** * Proofs *)

(** ** Loops *)

Lemma for_loop_nil {S : Type} (lo hi : nat) (body : nat -> S -> S) (s : S) :
  (hi <= lo)%nat -> for_loop lo hi body s = s.
Proof.
  intros Hle. unfold for_loop.
  replace (hi - lo)%nat with 0%nat by lia. reflexivity.
Qed.

Lemma for_loop_S {S : Type} (lo hi : nat) (body : nat -> S -> S) (s : S) :
  (lo <= hi)%nat ->
  for_loop lo (Datatypes.S hi) body s = body hi (for_loop lo hi body s).
Proof.
  intros Hle. unfold for_loop.
  replace (Datatypes.S hi - lo)%nat with (Datatypes.S (hi - lo)) by lia.
  rewrite seq_S, fold_left_app. simpl.
  replace (lo + (hi - lo))%nat with hi by lia. reflexivity.
Qed.

(** Invariant rule for a counted loop. *)
Lemma for_loop_invariant {S : Type} (P : nat -> S -> Prop) (lo hi : nat)
    (body : nat -> S -> S) (s : S) :
  (lo <= hi)%nat ->
  P lo s ->
  (forall i st, (lo <= i < hi)%nat -> P i st -> P (Datatypes.S i) (body i st)) ->
  P hi (for_loop lo hi body s).
Proof.
  intros Hle H0 Hstep. induction hi as [|hi IH].
  - assert (lo = 0%nat) by lia. subst. exact H0.
  - destruct (Nat.eq_dec lo (Datatypes.S hi)) as [->|Hne].
    + rewrite for_loop_nil by lia. exact H0.
    + rewrite for_loop_S by lia. apply Hstep; [lia|].
      apply IH; [lia|]. intros i st Hi HP. apply Hstep; [lia|exact HP].
Qed.

(** Two lists of one length with the same element at every index are
    equal. *)
Lemma list_eq_total {A : Type} `{!Inhabited A} (l1 l2 : list A) :
  length l1 = length l2 ->
  (forall i, (i < length l1)%nat -> l1 !!! i = l2 !!! i) ->
  l1 = l2.
Proof.
  intros Hlen Hel.
  apply (list_eq_same_length l1 l2 (length l1)); [congruence|reflexivity|].
  intros i x y Hi H1 H2.
  specialize (Hel i Hi).
  rewrite (list_lookup_total_correct l1 i x H1) in Hel.
  rewrite (list_lookup_total_correct l2 i y H2) in Hel.
  exact Hel.
Qed.

(** A loop that stores [f i] at index [i]. *)
Lemma fill_loop_spec {A : Type} `{!Inhabited A} (f : nat -> A) (n : nat)
    (init : list A) :
  (n <= length init)%nat ->
  let out := for_loop 0 n (fun i out => <[i := f i]> out) init in
  length out = length init /\
  forall i, out !!! i = if (i <? n)%nat then f i else init !!! i.
Proof.
  intros Hn.
  apply (for_loop_invariant
           (fun k out => length out = length init /\
              forall i, out !!! i = if (i <? k)%nat then f i else init !!! i)).
  - lia.
  - split; [reflexivity|]. intros i. reflexivity.
  - intros k st Hk [Hlen Hel]. split.
    + rewrite length_insert. exact Hlen.
    + intros i. destruct (Nat.eq_dec k i) as [->|Hne].
      * rewrite list_lookup_total_insert_eq by lia.
        destruct (Nat.ltb_spec i (Datatypes.S i)); [reflexivity|lia].
      * rewrite list_lookup_total_insert_ne by exact Hne.
        rewrite Hel.
        destruct (Nat.ltb_spec i k), (Nat.ltb_spec i (Datatypes.S k));
          try reflexivity; lia.
Qed.

(** ** Ring accumulator *)

Lemma size_t_small (z : Z) : 0 <= z < SIZE_MODULUS -> size_t z = z.
Proof. intros Hz. unfold size_t. apply Z.mod_small. exact Hz. Qed.

Lemma mod_wrap_below (a m : Z) : 0 < m -> - m <= a < 0 -> a mod m = a + m.
Proof.
  intros Hm Ha. symmetry. apply (Z.mod_unique a m (-1) (a + m)); lia.
Qed.

Lemma mod_sub_idemp (a b m : Z) : (a mod m - b) mod m = (a - b) mod m.
Proof. apply Zminus_mod_idemp_l. Qed.

Section RingProofs.
Context {A : Type} `{!Inhabited A}.
Implicit Types (buffer hist src : list A).

Lemma ring_holds_step buffer capacity pos count hist src i :
  ring_holds buffer capacity pos count hist ->
  let '(buffer', pos', count') :=
    ring_write_step capacity src i (buffer, pos, count) in
  ring_holds buffer' capacity pos' count' (hist ++ [src !!! i]).
Proof.
  intros [Hok [Hcount Hel]].
  destruct Hok as (Hcap & Hcap4 & Hlen & Hpos & Hcnt).
  unfold SIZE_MODULUS in Hcap4.
  cbn [ring_write_step].
  assert (Hst : size_t (pos + 1) = pos + 1).
  { apply size_t_small. unfold SIZE_MODULUS. lia. }
  rewrite Hst.
  assert (Hp' : 0 <= (pos + 1) mod capacity < capacity)
    by (apply Z.mod_pos_bound; lia).
  assert (Hc' : (if count <? capacity then size_t (count + 1) else count)
                = Z.min (Z.of_nat (length (hist ++ [src !!! i]))) capacity).
  { rewrite length_app. cbn [length].
    destruct (Z.ltb_spec count capacity).
    - rewrite size_t_small by (unfold SIZE_MODULUS; lia). lia.
    - lia. }
  rewrite Hc'. split; [|split].
  - unfold ring_ok. rewrite length_insert. unfold SIZE_MODULUS.
    repeat split; try lia.
  - reflexivity.
  - intros j Hj. rewrite length_app in *. cbn [length] in *.
    replace ((pos + 1) mod capacity - 1 - j)
      with ((pos + 1) mod capacity - (1 + j)) by lia.
    rewrite mod_sub_idemp.
    replace (pos + 1 - (1 + j)) with (pos - j) by lia.
    destruct (Z.eq_dec j 0) as [->|Hj0].
    + rewrite Z.sub_0_r, Z.mod_small by lia.
      rewrite list_lookup_total_insert_eq by lia.
      rewrite list_lookup_total_middle; [reflexivity|lia].
    + assert (Hne : (pos - j) mod capacity <> pos).
      { destruct (Z_lt_le_dec (pos - j) 0).
        - rewrite mod_wrap_below by lia. lia.
        - rewrite Z.mod_small by lia. lia. }
      assert (Hb : 0 <= (pos - j) mod capacity < capacity)
        by (apply Z.mod_pos_bound; lia).
      rewrite list_lookup_total_insert_ne by lia.
      replace (pos - j) with (pos - 1 - (j - 1)) by lia.
      rewrite Hel by lia.
      rewrite lookup_total_app_l by lia.
      f_equal. lia.
Qed.

Lemma ring_write_holds buffer capacity pos count hist src frames :
  ring_holds buffer capacity pos count hist ->
  0 <= frames <= Z.of_nat (length src) ->
  forall buffer' pos' count',
  ring_write buffer capacity pos count src frames = (buffer', pos', count') ->
  ring_holds buffer' capacity pos' count' (hist ++ take (Z.to_nat frames) src).
Proof.
  intros Hh Hfr.
  unfold ring_write.
  assert (Hinv :
    (fun (k : nat) (st : list A * Z * Z) =>
       ring_holds st.1.1 capacity st.1.2 st.2 (hist ++ take k src))
      (Z.to_nat frames)
      (for_loop 0 (Z.to_nat frames) (ring_write_step capacity src)
         (buffer, pos, count))).
  { apply for_loop_invariant.
    - lia.
    - cbn. rewrite take_0, app_nil_r. exact Hh.
    - intros k [[b p] c] Hk Hst. cbn in Hst.
      pose proof (ring_holds_step b capacity p c _ src k Hst) as Hstep.
      destruct (ring_write_step capacity src k (b, p, c)) as [[b' p'] c'].
      cbn.
      rewrite (take_S_r src k (src !!! k)).
      + rewrite app_assoc. exact Hstep.
      + apply list_lookup_lookup_total_lt. lia. }
  intros b' p' c' Heq. rewrite Heq in Hinv. exact Hinv.
Qed.

Lemma ring_read_length buffer capacity start frames :
  length (ring_read buffer capacity start frames) = Z.to_nat frames.
Proof.
  unfold ring_read.
  pose proof (fill_loop_spec
    (fun i => buffer !!! Z.to_nat (size_t (start + Z.of_nat i) mod capacity))
    (Z.to_nat frames) (replicate (Z.to_nat frames) inhabitant)) as Hs.
  rewrite length_replicate in Hs. destruct (Hs (le_n _)) as [Hl _].
  exact Hl.
Qed.

Lemma ring_read_lookup buffer capacity start frames i :
  (i < Z.to_nat frames)%nat ->
  ring_read buffer capacity start frames !!! i
  = buffer !!! Z.to_nat (size_t (start + Z.of_nat i) mod capacity).
Proof.
  intros Hi. unfold ring_read.
  pose proof (fill_loop_spec
    (fun i => buffer !!! Z.to_nat (size_t (start + Z.of_nat i) mod capacity))
    (Z.to_nat frames) (replicate (Z.to_nat frames) inhabitant)) as Hs.
  rewrite length_replicate in Hs. destruct (Hs (le_n _)) as [_ He].
  rewrite He. destruct (Nat.ltb_spec i (Z.to_nat frames)); [reflexivity|lia].
Qed.

Lemma ring_holds_length buffer capacity pos count hist :
  ring_holds buffer capacity pos count hist ->
  count <= Z.of_nat (length hist).
Proof. intros (_ & Hc & _). lia. Qed.

(** Reading the [n] most recent samples the way [copy_recent] does. *)
Lemma ring_holds_read buffer capacity pos count hist n :
  ring_holds buffer capacity pos count hist ->
  0 <= n <= count ->
  ring_read buffer capacity (recent_start capacity pos n) n = last_n n hist.
Proof.
  intros Hh Hn.
  pose proof (ring_holds_length _ _ _ _ _ Hh) as Hlen.
  destruct Hh as ((Hcap & Hcap4 & Hbl & Hpos & Hcnt) & Hcount & Hel).
  unfold SIZE_MODULUS in Hcap4.
  apply list_eq_total.
  - rewrite ring_read_length. unfold last_n. rewrite length_drop. lia.
  - rewrite ring_read_length. intros i Hi.
    rewrite ring_read_lookup by exact Hi.
    unfold last_n. rewrite lookup_total_drop.
    unfold recent_start.
    rewrite (size_t_small (pos + capacity)) by (unfold SIZE_MODULUS; lia).
    rewrite (size_t_small (pos + capacity - n)) by (unfold SIZE_MODULUS; lia).
    assert (Hs : 0 <= (pos + capacity - n) mod capacity < capacity)
      by (apply Z.mod_pos_bound; lia).
    rewrite size_t_small by (unfold SIZE_MODULUS; lia).
    rewrite Zplus_mod_idemp_l.
    replace (pos + capacity - n + Z.of_nat i)
      with (pos - 1 - (n - 1 - Z.of_nat i) + 1 * capacity) by lia.
    rewrite Z_mod_plus_full.
    rewrite Hel by lia.
    f_equal. lia.
Qed.

Lemma ring_ok_holds_contents buffer capacity pos count :
  ring_ok buffer capacity pos count ->
  ring_holds buffer capacity pos count
    (ring_contents buffer capacity pos count).
Proof.
  intros Hok. split; [exact Hok|].
  destruct Hok as (Hcap & Hcap4 & Hbl & Hpos & Hcnt).
  unfold SIZE_MODULUS in Hcap4.
  unfold ring_contents. rewrite ring_read_length. split; [lia|].
  intros j Hj.
  rewrite ring_read_lookup by lia.
  assert (Hs : 0 <= (pos - count) mod capacity < capacity)
    by (apply Z.mod_pos_bound; lia).
  rewrite size_t_small by (unfold SIZE_MODULUS; lia).
  rewrite Zplus_mod_idemp_l.
  f_equal. f_equal. f_equal. lia.
Qed.

Lemma write_chunk_holds capacity st hist src :
  ring_holds st.1.1 capacity st.1.2 st.2 hist ->
  let st' := write_chunk capacity st src in
  ring_holds st'.1.1 capacity st'.1.2 st'.2 (hist ++ src).
Proof.
  destruct st as [[b p] c]. cbn. intros Hh.
  destruct (ring_write b capacity p c src (Z.of_nat (length src)))
    as [[b' p'] c'] eqn:Hw.
  cbn.
  assert (Hfr : 0 <= Z.of_nat (length src) <= Z.of_nat (length src)) by lia.
  pose proof (ring_write_holds b capacity p c hist src _ Hh Hfr b' p' c' Hw)
    as Hr.
  rewrite Nat2Z.id, firstn_all in Hr. exact Hr.
Qed.

Lemma write_chunks_holds capacity chunks : forall st hist,
  ring_holds st.1.1 capacity st.1.2 st.2 hist ->
  let st' := fold_left (write_chunk capacity) chunks st in
  ring_holds st'.1.1 capacity st'.1.2 st'.2 (hist ++ concat chunks).
Proof.
  induction chunks as [|src chunks IH]; intros st hist Hh.
  - cbn. rewrite app_nil_r. exact Hh.
  - cbn [fold_left concat]. rewrite app_assoc.
    apply IH. apply write_chunk_holds. exact Hh.
Qed.


Lemma recent_start_eq capacity pos n :
  0 < capacity -> capacity * 4 < SIZE_MODULUS ->
  0 <= pos < capacity -> 0 <= n <= capacity ->
  recent_start capacity pos n = (pos - n) mod capacity.
Proof.
  intros Hcap Hcap4 Hpos Hn. unfold SIZE_MODULUS in Hcap4.
  unfold recent_start.
  rewrite (size_t_small (pos + capacity)) by (unfold SIZE_MODULUS; lia).
  rewrite size_t_small by (unfold SIZE_MODULUS; lia).
  replace (pos + capacity - n) with (pos - n + 1 * capacity) by lia.
  apply Z_mod_plus_full.
Qed.

Lemma ring_holds_contents buffer capacity pos count hist :
  ring_holds buffer capacity pos count hist ->
  ring_contents buffer capacity pos count = last_n count hist.
Proof.
  intros Hh. pose proof Hh as ((Hcap & Hcap4 & Hbl & Hpos & Hcnt) & _).
  unfold ring_contents.
  rewrite <- (recent_start_eq capacity pos count) by lia.
  apply (ring_holds_read buffer capacity pos count); [exact Hh|lia].
Qed.

(** C2. For every ring buffer and every sequence of writes: the count never
    exceeds the capacity; it is the number of samples held before plus the
    number written, capped at the capacity; the samples read oldest-first
    from [(pos - count) mod capacity] are the most recent [count] ones in
    the order they were written; a full ring stays full; and after
    [capacity + k] samples ([k > 0]) the count is the capacity and exactly
    the last [capacity] written samples are retrievable. *)
Theorem ring_eviction buffer capacity pos count (chunks : list (list A)) :
  ring_ok buffer capacity pos count ->
  let written := concat chunks in
  let '(buffer', pos', count') :=
    fold_left (write_chunk capacity) chunks (buffer, pos, count) in
  ring_ok buffer' capacity pos' count' /\
  count' <= capacity /\
  count' = Z.min (count + Z.of_nat (length written)) capacity /\
  ring_contents buffer' capacity pos' count'
  = last_n count' (ring_contents buffer capacity pos count ++ written) /\
  (count = capacity -> count' = capacity) /\
  (forall k, 0 < k -> Z.of_nat (length written) = capacity + k ->
     count' = capacity /\
     ring_contents buffer' capacity pos' count' = last_n capacity written).
Proof.
  intros Hok written.
  pose proof (ring_ok_holds_contents _ _ _ _ Hok) as Hh0.
  pose proof (write_chunks_holds capacity chunks (buffer, pos, count) _ Hh0)
    as Hh.
  cbn zeta in Hh.
  destruct (fold_left (write_chunk capacity) chunks (buffer, pos, count))
    as [[buffer' pos'] count'].
  cbn [fst snd] in Hh. fold written in Hh.
  pose proof Hh as (Hok' & Hcount' & _).
  pose proof Hok' as (Hcap & Hcap4 & Hbl & Hpos & Hcnt).
  destruct Hok as (_ & _ & _ & _ & Hcnt0).
  rewrite length_app in Hcount'.
  unfold ring_contents at 1 in Hcount'. rewrite ring_read_length in Hcount'.
  assert (Hc : count' = Z.min (count + Z.of_nat (length written)) capacity)
    by lia.
  pose proof (ring_holds_contents _ _ _ _ _ Hh) as Hcont.
  repeat split; try lia; try exact Hcont.
  rewrite Hcont.
  replace count' with capacity by lia.
  unfold last_n. rewrite length_app.
  rewrite drop_app_ge.
  - f_equal. unfold ring_contents. rewrite ring_read_length. lia.
  - unfold ring_contents. rewrite ring_read_length. lia.
Qed.

End RingProofs.

Lemma ring_eviction_witness :
  let '(buffer', pos', count') :=
    fold_left (write_chunk 4) [[1; 2; 3]; [4; 5; 6]] ([0; 0; 0; 0], 0, 0) in
  ring_ok buffer' 4 pos' count' /\
  count' <= 4 /\
  count' = Z.min (0 + Z.of_nat (length (concat [[1; 2; 3]; [4; 5; 6]]))) 4 /\
  ring_contents buffer' 4 pos' count'
  = last_n count' (ring_contents [0; 0; 0; 0] 4 0 0
                   ++ concat [[1; 2; 3]; [4; 5; 6]]) /\
  (0 = 4 -> count' = 4) /\
  (forall k, 0 < k ->
     Z.of_nat (length (concat [[1; 2; 3]; [4; 5; 6]])) = 4 + k ->
     count' = 4 /\
     ring_contents buffer' 4 pos' count'
     = last_n 4 (concat [[1; 2; 3]; [4; 5; 6]])).
Proof.
  apply (ring_eviction [0; 0; 0; 0] 4 0 0 [[1; 2; 3]; [4; 5; 6]]).
  unfold ring_ok, SIZE_MODULUS. cbn. lia.
Defined.

Example ring_write_run :
  fold_left (write_chunk 4) [[1; 2; 3]; [4; 5; 6]] ([0; 0; 0; 0], 0, 0)
  = ([5; 6; 3; 4], 2, 4)
  /\ ring_contents [5; 6; 3; 4] 4 2 4 = [3; 4; 5; 6].
Proof. split; reflexivity. Qed.



(** ** Unit conversion and the clamp of the lag range *)

Lemma ms_to_samples_eq (ms sample_rate : Z) :
  0 <= ms < UINT32_MODULUS -> 0 <= sample_rate < UINT32_MODULUS ->
  ms_to_samples ms sample_rate = (ms * sample_rate + 500) / 1000.
Proof.
  unfold UINT32_MODULUS. intros Hms Hrate.
  assert (Hp : 0 <= ms * sample_rate <= 4294967295 * 4294967295) by nia.
  unfold ms_to_samples, size_t, uint64_t, SIZE_MODULUS.
  rewrite (Z.mod_small ms) by lia.
  rewrite (Z.mod_small (ms * sample_rate)) by lia.
  rewrite (Z.mod_small (ms * sample_rate + 500)) by lia.
  apply Z.mod_small.
  split.
  - apply Z.div_pos; lia.
  - apply Z.div_lt_upper_bound; lia.
Qed.

Lemma int_cast_small (z : Z) : - INT_HALF <= z < INT_HALF -> int_cast z = z.
Proof.
  unfold int_cast, INT_HALF, UINT32_MODULUS. intros Hz.
  rewrite Z.mod_small by lia. lia.
Qed.

Lemma In_lag_range (max_lag lag : Z) :
  In lag (lag_range max_lag) <-> - max_lag <= lag <= max_lag.
Proof.
  unfold lag_range. rewrite <- list_elem_of_In, elem_of_seqZ. lia.
Qed.

Lemma clamp_max_lag_le (max_lag_ms sample_rate frames : Z) :
  clamp_max_lag max_lag_ms sample_rate frames <= Z.quot (int_cast frames) 2.
Proof.
  unfold clamp_max_lag.
  destruct (Z.gtb_spec (int_cast (ms_to_samples max_lag_ms sample_rate))
              (Z.quot (int_cast frames) 2)); lia.
Qed.

(** C7. For every milliseconds value and sample rate of the engine's types,
    [ms_to_samples] is [(ms * rate + 500) / 1000] with truncating division,
    the sample count nearest to [ms * rate / 1000] with a half rounded up.
    The [max_lag] the search uses is the lesser of the converted maximum
    lag, cast to [int], and [frames / 2]: the converted value is kept when
    it is at most [frames / 2] and replaced by [frames / 2] otherwise, so
    whatever the configured maximum lag [max_lag] is at most [frames / 2].
    The converted value is [(max_lag_ms * rate + 500) / 1000] itself when
    that fits an [int]. Unless the cast gives [INT_MIN], whose negation is
    not defined in [int], the lags the loop visits are exactly those from
    [-max_lag] to [max_lag], each within [frames / 2] of zero. *)
Theorem ms_to_samples_round_half_up (ms sample_rate max_lag_ms frames : Z) :
  0 <= ms < UINT32_MODULUS ->
  0 <= sample_rate < UINT32_MODULUS ->
  0 <= frames < INT_HALF ->
  let converted := int_cast (ms_to_samples max_lag_ms sample_rate) in
  let max_lag := clamp_max_lag max_lag_ms sample_rate frames in
  ms_to_samples ms sample_rate = (ms * sample_rate + 500) / 1000 /\
  - 500 < 1000 * ms_to_samples ms sample_rate - ms * sample_rate <= 500 /\
  max_lag = Z.min converted (frames / 2) /\
  max_lag <= frames / 2 /\
  (converted <= frames / 2 -> max_lag = converted) /\
  (frames / 2 < converted -> max_lag = frames / 2) /\
  (0 <= max_lag_ms < UINT32_MODULUS ->
   (max_lag_ms * sample_rate + 500) / 1000 < INT_HALF ->
   converted = (max_lag_ms * sample_rate + 500) / 1000) /\
  (- INT_HALF < converted ->
   forall lag, In lag (lag_range max_lag) <-> - max_lag <= lag <= max_lag) /\
  (- INT_HALF < converted ->
   forall lag, In lag (lag_range max_lag) -> Z.abs lag <= frames / 2).
Proof.
  intros Hms Hrate Hframes. cbv zeta.
  pose proof (ms_to_samples_eq ms sample_rate Hms Hrate) as Heq.
  assert (Hclamp :
    clamp_max_lag max_lag_ms sample_rate frames
    = Z.min (int_cast (ms_to_samples max_lag_ms sample_rate)) (frames / 2)).
  { unfold clamp_max_lag. cbv zeta.
    rewrite (int_cast_small frames) by (unfold INT_HALF in *; lia).
    rewrite Z.quot_div_nonneg by lia.
    destruct (Z.gtb_spec (int_cast (ms_to_samples max_lag_ms sample_rate))
                (frames / 2)); lia. }
  split; [exact Heq|]. split.
  { rewrite Heq.
    pose proof (Z.div_mod (ms * sample_rate + 500) 1000 ltac:(lia)) as Hdm.
    pose proof (Z.mod_pos_bound (ms * sample_rate + 500) 1000 ltac:(lia)).
    lia. }
  split; [exact Hclamp|]. split; [lia|]. split; [lia|]. split; [lia|].
  split.
  { intros Hml Hfit.
    rewrite (ms_to_samples_eq max_lag_ms sample_rate Hml Hrate).
    apply int_cast_small.
    assert (0 <= (max_lag_ms * sample_rate + 500) / 1000)
      by (apply Z.div_pos; nia).
    lia. }
  split.
  - intros _ lag. apply In_lag_range.
  - intros _ lag Hin. apply In_lag_range in Hin. lia.
Qed.

Lemma ms_to_samples_round_half_up_witness :
  let converted := int_cast (ms_to_samples 1500 48000) in
  let max_lag := clamp_max_lag 1500 48000 4096 in
  ms_to_samples 500 48000 = (500 * 48000 + 500) / 1000 /\
  - 500 < 1000 * ms_to_samples 500 48000 - 500 * 48000 <= 500 /\
  max_lag = Z.min converted (4096 / 2) /\
  max_lag <= 4096 / 2 /\
  (converted <= 4096 / 2 -> max_lag = converted) /\
  (4096 / 2 < converted -> max_lag = 4096 / 2) /\
  (0 <= 1500 < UINT32_MODULUS ->
   (1500 * 48000 + 500) / 1000 < INT_HALF ->
   converted = (1500 * 48000 + 500) / 1000) /\
  (- INT_HALF < converted ->
   forall lag, In lag (lag_range max_lag) <-> - max_lag <= lag <= max_lag) /\
  (- INT_HALF < converted ->
   forall lag, In lag (lag_range max_lag) -> Z.abs lag <= 4096 / 2).
Proof.
  apply (ms_to_samples_round_half_up 500 48000 1500 4096);
    unfold UINT32_MODULUS, INT_HALF; lia.
Defined.

(** The clamp at work: a bound below [frames / 2] is kept, a bound above it
    is replaced, and a bound that the cast makes negative stays negative. *)
Example clamp_max_lag_cases :
  clamp_max_lag 10 48000 4096 = 480 /\
  clamp_max_lag 1500 48000 4096 = 2048 /\
  clamp_max_lag 4294967295 48000 4096 = -48.
Proof. repeat split; reflexivity. Qed.

(** A configuration whose cast is [INT_MIN] at 48 kHz: there the
    source negates [INT_MIN], which [int] cannot hold, and the model, whose
    range is then empty, does not follow it. *)
Example max_lag_int_min :
  ms_to_samples 134217728 48000 = 6442450944 /\
  int_cast (ms_to_samples 134217728 48000) = - INT_HALF /\
  clamp_max_lag 134217728 48000 4096 = - INT_HALF.
Proof. repeat split; reflexivity. Qed.

Example ms_to_samples_half : ms_to_samples 1 1500 = 2 /\ ms_to_samples 1 1499 = 1.
Proof. split; reflexivity. Qed.

Example clamp_max_lag_run : clamp_max_lag 1500 48000 4096 = 2048.
Proof. reflexivity. Qed.

(** ** Configuration *)

Lemma connect_target_config sources dm name :
  let dm' := connect_target sources dm name in
  window_ms dm' = window_ms dm /\ max_lag_ms dm' = max_lag_ms dm /\
  debug_enabled dm' = debug_enabled dm /\ sample_rate dm' = sample_rate dm.
Proof.
  unfold connect_target.
  destruct (match target dm with Some _ => _ | None => _ end); [auto|].
  destruct (target dm), name as [n|]; cbn;
    try destruct (String.eqb n EmptyString); cbn; auto;
    destruct (sources n); cbn; auto.
Qed.


(** C8, as stated, fails: an update whose settings carry a window of 100 ms
    and a maximum lag of 2000 ms stores both values unchanged, outside
    [200, 3000] and [50, 1500]. *)
Lemma update_out_of_bounds :
  let dm' := delay_meter_update (fun _ => None) dm_idle
               (mk_settings 100 2000 false (Some EmptyString)) in
  window_ms dm' = 100 /\ max_lag_ms dm' = 2000 /\
  ~ (MIN_WINDOW_MS <= window_ms dm' <= MAX_WINDOW_MS /\
     50 <= max_lag_ms dm' <= MAX_LAG_MS).
Proof.
  cbn. unfold MIN_WINDOW_MS, MAX_WINDOW_MS, MAX_LAG_MS.
  repeat split; try reflexivity.
  change (uint32_t 100) with 100. change (uint32_t 2000) with 2000. lia.
Qed.

(** C8, amended. The bounds are those of the two sliders of the property
    view; [delay_meter_update] stores what the settings hold, converted to
    [uint32_t] and not clamped. For every update whose settings lie within
    the slider ranges, the stored [window_ms] and [max_lag_ms] are the
    settings' values and lie within [200, 3000] and [50, 1500]. *)
Theorem update_within_sliders sources dm settings :
  within_sliders settings ->
  let dm' := delay_meter_update sources dm settings in
  window_ms dm' = obs_data_get_int settings "window_ms" /\
  max_lag_ms dm' = obs_data_get_int settings "max_lag_ms" /\
  MIN_WINDOW_MS <= window_ms dm' <= MAX_WINDOW_MS /\
  50 <= max_lag_ms dm' <= MAX_LAG_MS.
Proof.
  intros Hw dm'.
  unfold within_sliders, delay_meter_properties_sliders in Hw.
  apply Forall_cons in Hw as [Hwin Hw].
  apply Forall_cons in Hw as [Hlag _].
  unfold MIN_WINDOW_MS, MAX_WINDOW_MS, MAX_LAG_MS in *.
  subst dm'. unfold delay_meter_update.
  destruct (connect_target_config sources
              (with_config (uint32_t (obs_data_get_int settings "window_ms"))
                 (uint32_t (obs_data_get_int settings "max_lag_ms"))
                 (obs_data_get_bool settings "debug_enabled") dm)
              (obs_data_get_string settings "target_source"))
    as (Hw1 & Hl1 & _ & _).
  cbn zeta in Hw1, Hl1. rewrite Hw1, Hl1. cbn [with_config window_ms max_lag_ms].
  unfold uint32_t, UINT32_MODULUS.
  rewrite !Z.mod_small by lia. lia.
Qed.

Lemma update_within_sliders_witness :
  let dm' := delay_meter_update (fun _ => None) dm_idle delay_meter_defaults in
  window_ms dm' = obs_data_get_int delay_meter_defaults "window_ms" /\
  max_lag_ms dm' = obs_data_get_int delay_meter_defaults "max_lag_ms" /\
  MIN_WINDOW_MS <= window_ms dm' <= MAX_WINDOW_MS /\
  50 <= max_lag_ms dm' <= MAX_LAG_MS.
Proof.
  apply (update_within_sliders (fun _ => None) dm_idle delay_meter_defaults).
  unfold within_sliders, delay_meter_properties_sliders.
  repeat constructor; cbn; unfold MIN_WINDOW_MS, MAX_WINDOW_MS, MAX_LAG_MS,
    DEFAULT_WINDOW_MS; lia.
Defined.


(** ** Signal conditioner *)

Section Conditioner.
Local Open Scope R_scope.

(** The state of the pre-emphasis loop when its counter is [k]: indices
    below [k] are filtered, the others untouched, and [prev] is the
    unfiltered sample before [k]. *)
Lemma pre_emphasis_loop (x : list R) (n : nat) :
  (1 <= n <= length x)%nat ->
  let '(y, prev) :=
    for_loop 1 n
      (fun i '(data, prev) =>
         let next := data !!! i in
         (<[i := next - PRE_EMPHASIS_ALPHA * prev]> data, next))
      (x, x !!! 0%nat) in
  length y = length x /\
  prev = x !!! (n - 1)%nat /\
  forall i, y !!! i =
    if ((1 <=? i) && (i <? n))%nat
    then x !!! i - PRE_EMPHASIS_ALPHA * x !!! (i - 1)%nat
    else x !!! i.
Proof.
  intros Hn.
  apply (for_loop_invariant
    (fun k (st : list R * R) =>
       let '(y, prev) := st in
       length y = length x /\
       prev = x !!! (k - 1)%nat /\
       forall i, y !!! i =
         if ((1 <=? i) && (i <? k))%nat
         then x !!! i - PRE_EMPHASIS_ALPHA * x !!! (i - 1)%nat
         else x !!! i)).
  - lia.
  - split; [reflexivity|]. split; [reflexivity|].
    intros i. destruct (Nat.leb_spec 1 i), (Nat.ltb_spec i 1);
      try reflexivity; lia.
  - intros k [y prev] Hk (Hlen & Hprev & Hel).
    assert (Hyk : y !!! k = x !!! k).
    { rewrite Hel. destruct (Nat.leb_spec 1 k), (Nat.ltb_spec k k);
        try reflexivity; lia. }
    split; [rewrite length_insert; exact Hlen|].
    split; [rewrite Hyk; f_equal; lia|].
    intros i. destruct (Nat.eq_dec k i) as [<-|Hne].
    + rewrite list_lookup_total_insert_eq by lia.
      rewrite Hyk, Hprev.
      destruct (Nat.leb_spec 1 k), (Nat.ltb_spec k (S k));
        try reflexivity; lia.
    + rewrite list_lookup_total_insert_ne by exact Hne.
      rewrite Hel.
      destruct (Nat.leb_spec 1 i), (Nat.ltb_spec i k),
        (Nat.ltb_spec i (S k)); try reflexivity; lia.
Qed.

Lemma apply_pre_emphasis_small (x : list R) (frames : Z) :
  (frames < 2)%Z -> apply_pre_emphasis x frames = x.
Proof.
  intros Hf. unfold apply_pre_emphasis.
  destruct (Z.ltb_spec frames 2); [reflexivity|lia].
Qed.

Lemma apply_pre_emphasis_length (x : list R) (frames : Z) :
  (frames <= Z.of_nat (length x))%Z ->
  length (apply_pre_emphasis x frames) = length x.
Proof.
  intros Hf. unfold apply_pre_emphasis.
  destruct (Z.ltb_spec frames 2); [reflexivity|].
  pose proof (pre_emphasis_loop x (Z.to_nat frames) ltac:(lia)) as Hl.
  destruct (for_loop _ _ _ _) as [y prev]. cbn. tauto.
Qed.

Lemma apply_pre_emphasis_lookup (x : list R) (frames : Z) (i : nat) :
  (frames <= Z.of_nat (length x))%Z ->
  apply_pre_emphasis x frames !!! i =
    if ((1 <=? i) && (i <? Z.to_nat frames))%nat
    then x !!! i - PRE_EMPHASIS_ALPHA * x !!! (i - 1)%nat
    else x !!! i.
Proof.
  intros Hf. unfold apply_pre_emphasis.
  destruct (Z.ltb_spec frames 2).
  - destruct (Nat.leb_spec 1 i), (Nat.ltb_spec i (Z.to_nat frames));
      try reflexivity; lia.
  - pose proof (pre_emphasis_loop x (Z.to_nat frames) ltac:(lia)) as Hl.
    destruct (for_loop _ _ _ _) as [y prev]. cbn.
    destruct Hl as (_ & _ & Hel). apply Hel.
Qed.

(** C5. [apply_pre_emphasis] on a sequence [x]: the first sample is kept;
    every later sample [i] becomes [x[i] - 0.95 * x[i-1]] with the
    unfiltered [x[i-1]]; a sequence of fewer than two samples is returned
    as it is; and [[1,1,1,1]] yields [[1, 0.05, 0.05, 0.05]]. *)
Theorem pre_emphasis_spec (x : list R) :
  let y := apply_pre_emphasis x (Z.of_nat (length x)) in
  length y = length x /\
  y !!! 0%nat = x !!! 0%nat /\
  (forall i, (1 <= i < length x)%nat ->
     y !!! i = x !!! i - 0.95 * x !!! (i - 1)%nat) /\
  ((length x < 2)%nat -> y = x) /\
  apply_pre_emphasis [1; 1; 1; 1] 4 = [1; 0.05; 0.05; 0.05].
Proof.
  intros y. subst y. split; [|split; [|split; [|split]]].
  - apply apply_pre_emphasis_length. lia.
  - rewrite apply_pre_emphasis_lookup by lia. reflexivity.
  - intros i Hi. rewrite apply_pre_emphasis_lookup by lia.
    rewrite Nat2Z.id.
    destruct (Nat.leb_spec 1 i), (Nat.ltb_spec i (length x));
      try lia. reflexivity.
  - intros Hlen. apply apply_pre_emphasis_small. lia.
  - apply list_eq_total.
    + rewrite apply_pre_emphasis_length; [reflexivity|cbn; lia].
    + rewrite apply_pre_emphasis_length by (cbn; lia).
      intros i Hi. rewrite apply_pre_emphasis_lookup by (cbn; lia).
      unfold PRE_EMPHASIS_ALPHA.
      change (Z.to_nat 4) with 4%nat.
      destruct i as [|[|[|[|i]]]]; cbn in Hi; try lia; cbn; lra.
Qed.


Lemma apply_hann_window_small (x : list R) (frames : Z) :
  (frames <= 1)%Z -> apply_hann_window x frames = x.
Proof.
  intros Hf. unfold apply_hann_window.
  destruct (Z.leb_spec frames 1); [reflexivity|lia].
Qed.

(** The state of the window loop when its counter is [k]. *)
Lemma hann_loop (x : list R) (frames : Z) (n : nat) :
  (n <= length x)%nat ->
  let y := for_loop 0 n
             (fun i data => <[i := data !!! i * hann_weight i frames]> data)
             x in
  length y = length x /\
  forall i, y !!! i =
    if (i <? n)%nat then x !!! i * hann_weight i frames else x !!! i.
Proof.
  intros Hn.
  apply (for_loop_invariant
    (fun k (y : list R) =>
       length y = length x /\
       forall i, y !!! i =
         if (i <? k)%nat then x !!! i * hann_weight i frames else x !!! i)).
  - lia.
  - split; [reflexivity|]. intros i. reflexivity.
  - intros k y Hk (Hlen & Hel).
    assert (Hyk : y !!! k = x !!! k).
    { rewrite Hel. destruct (Nat.ltb_spec k k); [lia|reflexivity]. }
    split; [rewrite length_insert; exact Hlen|].
    intros i. destruct (Nat.eq_dec k i) as [<-|Hne].
    + rewrite list_lookup_total_insert_eq by lia. rewrite Hyk.
      destruct (Nat.ltb_spec k (S k)); [reflexivity|lia].
    + rewrite list_lookup_total_insert_ne by exact Hne.
      rewrite Hel.
      destruct (Nat.ltb_spec i k), (Nat.ltb_spec i (S k));
        try reflexivity; lia.
Qed.

Lemma apply_hann_window_length (x : list R) (frames : Z) :
  (frames <= Z.of_nat (length x))%Z ->
  length (apply_hann_window x frames) = length x.
Proof.
  intros Hf. unfold apply_hann_window.
  destruct (Z.leb_spec frames 1); [reflexivity|].
  apply (hann_loop x frames (Z.to_nat frames)). lia.
Qed.

Lemma apply_hann_window_lookup (x : list R) (frames : Z) (i : nat) :
  (1 < frames <= Z.of_nat (length x))%Z ->
  apply_hann_window x frames !!! i =
    if (i <? Z.to_nat frames)%nat
    then x !!! i * hann_weight i frames else x !!! i.
Proof.
  intros Hf. unfold apply_hann_window.
  destruct (Z.leb_spec frames 1); [lia|].
  apply (hann_loop x frames (Z.to_nat frames)). lia.
Qed.

Lemma hann_weights_5 :
  hann_weight 0 5 = 0 /\ hann_weight 1 5 = 0.5 /\ hann_weight 2 5 = 1 /\
  hann_weight 3 5 = 0.5 /\ hann_weight 4 5 = 0.
Proof.
  unfold hann_weight. cbn [INR].
  replace (2.0 * PI * 0 / (5 - 1.0)) with 0 by lra.
  replace (2.0 * PI * 1 / (5 - 1.0)) with (PI / 2) by lra.
  replace (2.0 * PI * (1 + 1) / (5 - 1.0)) with PI by lra.
  replace (2.0 * PI * (1 + 1 + 1) / (5 - 1.0)) with (3 * (PI / 2)) by lra.
  replace (2.0 * PI * (1 + 1 + 1 + 1) / (5 - 1.0)) with (2 * PI) by lra.
  rewrite cos_0, cos_PI2, cos_PI, cos_3PI2, cos_2PI.
  repeat split; lra.
Qed.

(** C6. [apply_hann_window] on [N] samples multiplies sample [i] by
    [0.5 * (1 - cos (2 * PI * i / (N - 1)))]; with [N <= 1] it changes
    nothing; for [N = 5] the weights are [[0, 0.5, 1, 0.5, 0]], and the
    window applied to five ones is that list of weights. *)
Theorem hann_window_spec (x : list R) :
  let N := length x in
  let y := apply_hann_window x (Z.of_nat N) in
  length y = N /\
  (forall i, (i < N)%nat -> (2 <= N)%nat ->
     y !!! i = x !!! i * (0.5 * (1 - cos (2 * PI * INR i / (INR N - 1))))) /\
  ((N <= 1)%nat -> y = x) /\
  map (fun i => hann_weight i 5) (seq 0 5) = [0; 0.5; 1; 0.5; 0] /\
  apply_hann_window [1; 1; 1; 1; 1] 5 = [0; 0.5; 1; 0.5; 0].
Proof.
  intros N y. subst N y. split; [|split; [|split; [|split]]].
  - apply apply_hann_window_length. lia.
  - intros i Hi HN. rewrite apply_hann_window_lookup by lia.
    rewrite Nat2Z.id.
    destruct (Nat.ltb_spec i (length x)); [|lia].
    unfold hann_weight. rewrite <- INR_IZR_INZ.
    repeat f_equal; lra.
  - intros HN. apply apply_hann_window_small. lia.
  - destruct hann_weights_5 as (H0 & H1 & H2 & H3 & H4).
    cbn [map seq]. rewrite H0, H1, H2, H3, H4. reflexivity.
  - destruct hann_weights_5 as (H0 & H1 & H2 & H3 & H4).
    apply list_eq_total.
    + rewrite apply_hann_window_length; [reflexivity|cbn; lia].
    + rewrite apply_hann_window_length by (cbn; lia).
      intros i Hi. rewrite apply_hann_window_lookup by (cbn; lia).
      change (Z.to_nat 5) with 5%nat.
      destruct i as [|[|[|[|[|i]]]]]; cbn in Hi; try lia;
        cbn [Nat.ltb Nat.leb]; cbn [lookup_total list_lookup_total];
        rewrite ?H0, ?H1, ?H2, ?H3, ?H4; lra.
Qed.

End Conditioner.


(** ** Snapshot *)

Lemma for_loop_pair {S T : Type} (lo hi : nat) (f : nat -> S -> S)
    (g : nat -> T -> T) (s : S) (t : T) :
  for_loop lo hi (fun i '(a, b) => (f i a, g i b)) (s, t)
  = (for_loop lo hi f s, for_loop lo hi g t).
Proof.
  unfold for_loop. generalize (seq lo (hi - lo)). intros l.
  revert s t. induction l as [|i l IH]; intros s t; [reflexivity|].
  cbn. apply IH.
Qed.

Lemma snapshot_loop_reads (dm : delay_meter_data) (ref_start tgt_start frames : Z) :
  snapshot_loop dm ref_start tgt_start frames
    (replicate (Z.to_nat frames) inhabitant)
    (replicate (Z.to_nat frames) inhabitant)
  = (ring_read dm.(ref_buffer) dm.(capacity) ref_start frames,
     ring_read dm.(tgt_buffer) dm.(capacity) tgt_start frames).
Proof. unfold snapshot_loop, ring_read. apply for_loop_pair. Qed.

Lemma snapshot_frames_min (dm : delay_meter_data) :
  snapshot_frames dm
  = Z.min (ms_to_samples dm.(window_ms) dm.(sample_rate))
      (Z.min dm.(ref_count) dm.(tgt_count)).
Proof.
  unfold snapshot_frames.
  destruct (Z.ltb_spec (ref_count dm) (tgt_count dm)).
  - destruct (Z.ltb_spec (ref_count dm)
                (ms_to_samples (window_ms dm) (sample_rate dm))); lia.
  - destruct (Z.ltb_spec (tgt_count dm)
                (ms_to_samples (window_ms dm) (sample_rate dm))); lia.
Qed.

Lemma snapshot_None (dm : delay_meter_data) (alloc_ok : bool) :
  snapshot_frames dm < 1024 -> snapshot dm alloc_ok = None.
Proof.
  intros Hf. unfold snapshot.
  destruct (Z.ltb_spec (snapshot_frames dm) 1024); [reflexivity|lia].
Qed.

Lemma snapshot_Some (dm : delay_meter_data) (ref_hist tgt_hist : list R) :
  ring_holds dm.(ref_buffer) dm.(capacity) dm.(ref_pos) dm.(ref_count) ref_hist ->
  ring_holds dm.(tgt_buffer) dm.(capacity) dm.(tgt_pos) dm.(tgt_count) tgt_hist ->
  1024 <= snapshot_frames dm ->
  snapshot dm true
  = Some (last_n (snapshot_frames dm) ref_hist,
          last_n (snapshot_frames dm) tgt_hist, snapshot_frames dm).
Proof.
  intros Href Htgt Hf. unfold snapshot.
  destruct (Z.ltb_spec (snapshot_frames dm) 1024); [lia|]. cbn [negb].
  rewrite snapshot_loop_reads.
  pose proof (snapshot_frames_min dm) as Hmin.
  rewrite (ring_holds_read _ _ _ _ ref_hist _ Href) by lia.
  rewrite (ring_holds_read _ _ _ _ tgt_hist _ Htgt) by lia.
  reflexivity.
Qed.

Lemma copy_recent_conditioned (dm : delay_meter_data)
    (ref_hist tgt_hist : list R) :
  ring_holds dm.(ref_buffer) dm.(capacity) dm.(ref_pos) dm.(ref_count) ref_hist ->
  ring_holds dm.(tgt_buffer) dm.(capacity) dm.(tgt_pos) dm.(tgt_count) tgt_hist ->
  1024 <= snapshot_frames dm ->
  copy_recent dm true
  = Some (apply_hann_window
            (apply_pre_emphasis (last_n (snapshot_frames dm) ref_hist)
               (snapshot_frames dm)) (snapshot_frames dm),
          apply_hann_window
            (apply_pre_emphasis (last_n (snapshot_frames dm) tgt_hist)
               (snapshot_frames dm)) (snapshot_frames dm),
          snapshot_frames dm).
Proof.
  intros Href Htgt Hf. unfold copy_recent.
  rewrite (snapshot_Some dm ref_hist tgt_hist Href Htgt Hf). reflexivity.
Qed.

(** C3, amended. On an engine whose rings hold the histories [ref_hist] and
    [tgt_hist] of written samples, [copy_recent] settles on
    [frames_actual = min (frames_requested, ref_count, tgt_count)], where
    [frames_requested] is the analysis window in frames, and fails when
    [frames_actual < 1024]. Otherwise its copy loop fills two new sequences
    with exactly the last [frames_actual] samples of each history, in the
    order they were written, wherever the cursors are; what it returns are
    these two sequences after pre-emphasis and the Hann window. *)
Theorem snapshot_spec (dm : delay_meter_data) (ref_hist tgt_hist : list R) :
  ring_holds dm.(ref_buffer) dm.(capacity) dm.(ref_pos) dm.(ref_count) ref_hist ->
  ring_holds dm.(tgt_buffer) dm.(capacity) dm.(tgt_pos) dm.(tgt_count) tgt_hist ->
  let frames_requested := ms_to_samples dm.(window_ms) dm.(sample_rate) in
  let frames_actual :=
    Z.min frames_requested (Z.min dm.(ref_count) dm.(tgt_count)) in
  snapshot_frames dm = frames_actual /\
  (frames_actual < 1024 ->
     forall alloc_ok, snapshot dm alloc_ok = None /\ copy_recent dm alloc_ok = None) /\
  (1024 <= frames_actual ->
     snapshot dm true
     = Some (last_n frames_actual ref_hist, last_n frames_actual tgt_hist,
             frames_actual) /\
     length (last_n frames_actual ref_hist) = Z.to_nat frames_actual /\
     length (last_n frames_actual tgt_hist) = Z.to_nat frames_actual /\
     copy_recent dm true
     = Some (apply_hann_window
               (apply_pre_emphasis (last_n frames_actual ref_hist) frames_actual)
               frames_actual,
             apply_hann_window
               (apply_pre_emphasis (last_n frames_actual tgt_hist) frames_actual)
               frames_actual,
             frames_actual)).
Proof.
  intros Href Htgt frames_requested frames_actual.
  pose proof (snapshot_frames_min dm) as Hmin.
  fold frames_requested in Hmin. fold frames_actual in Hmin.
  split; [exact Hmin|]. split.
  - intros Hlt alloc_ok.
    assert (Hs : snapshot dm alloc_ok = None) by (apply snapshot_None; lia).
    split; [exact Hs|]. unfold copy_recent. rewrite Hs. reflexivity.
  - intros Hge.
    pose proof (snapshot_Some dm ref_hist tgt_hist Href Htgt ltac:(lia)) as Hs.
    rewrite Hmin in Hs.
    pose proof (ring_holds_length _ _ _ _ _ Href).
    pose proof (ring_holds_length _ _ _ _ _ Htgt).
    split; [exact Hs|].
    split; [unfold last_n; rewrite length_drop; lia|].
    split; [unfold last_n; rewrite length_drop; lia|].
    unfold copy_recent. rewrite Hs. reflexivity.
Qed.


Lemma snapshot_spec_witness :
  let dm := dm_wrapped in
  let ref_hist :=
    ring_contents dm.(ref_buffer) dm.(capacity) dm.(ref_pos) dm.(ref_count) in
  let tgt_hist :=
    ring_contents dm.(tgt_buffer) dm.(capacity) dm.(tgt_pos) dm.(tgt_count) in
  let frames_requested := ms_to_samples dm.(window_ms) dm.(sample_rate) in
  let frames_actual :=
    Z.min frames_requested (Z.min dm.(ref_count) dm.(tgt_count)) in
  snapshot_frames dm = frames_actual /\
  (frames_actual < 1024 ->
     forall alloc_ok, snapshot dm alloc_ok = None /\ copy_recent dm alloc_ok = None) /\
  (1024 <= frames_actual ->
     snapshot dm true
     = Some (last_n frames_actual ref_hist, last_n frames_actual tgt_hist,
             frames_actual) /\
     length (last_n frames_actual ref_hist) = Z.to_nat frames_actual /\
     length (last_n frames_actual tgt_hist) = Z.to_nat frames_actual /\
     copy_recent dm true
     = Some (apply_hann_window
               (apply_pre_emphasis (last_n frames_actual ref_hist) frames_actual)
               frames_actual,
             apply_hann_window
               (apply_pre_emphasis (last_n frames_actual tgt_hist) frames_actual)
               frames_actual,
             frames_actual)).
Proof.
  apply (snapshot_spec dm_wrapped);
    apply ring_ok_holds_contents; unfold ring_ok, SIZE_MODULUS;
    cbn [dm_wrapped ref_buffer tgt_buffer capacity ref_pos tgt_pos
         ref_count tgt_count];
    rewrite length_fmap, length_seq; lia.
Defined.

Lemma hann_weight_0 (frames : Z) : hann_weight 0 frames = 0%R.
Proof.
  unfold hann_weight. cbn [INR].
  replace (2.0 * PI * 0 / (IZR frames - 1.0))%R with 0%R
    by (unfold Rdiv; ring).
  rewrite cos_0. lra.
Qed.

(** The first sample of a conditioned snapshot is zero: the window weight at
    index 0 is. *)
Lemma conditioned_head (x : list R) (frames : Z) :
  1 < frames <= Z.of_nat (length x) ->
  apply_hann_window (apply_pre_emphasis x frames) frames !!! 0%nat = 0%R.
Proof.
  intros Hf.
  rewrite apply_hann_window_lookup
    by (rewrite apply_pre_emphasis_length; lia).
  destruct (Nat.ltb_spec 0 (Z.to_nat frames)); [|lia].
  rewrite hann_weight_0. apply Rmult_0_r.
Qed.

(** C3, as stated, fails. On an engine whose full rings hold ramps,
    [copy_recent] succeeds with all 2048 frames; the oldest reference sample
    it was given is 100, and the first sample of the reference sequence it
    returns is 0: what it returns is the snapshot after pre-emphasis and
    windowing, not the written values. *)
Lemma copy_recent_returns_conditioned :
  let ref_hist :=
    ring_contents dm_wrapped.(ref_buffer) dm_wrapped.(capacity)
      dm_wrapped.(ref_pos) dm_wrapped.(ref_count) in
  snapshot_frames dm_wrapped = 2048 /\
  last_n 2048 ref_hist !!! 0%nat = 100%R /\
  exists ref tgt,
    copy_recent dm_wrapped true = Some (ref, tgt, 2048) /\
    ref !!! 0%nat = 0%R /\
    ref <> last_n 2048 ref_hist.
Proof.
  cbv zeta.
  assert (Hok : forall (buffer : list R) pos,
            length buffer = 2048%nat -> 0 <= pos < 2048 ->
            ring_ok buffer 2048 pos 2048).
  { intros buffer pos Hlen Hpos. unfold ring_ok, SIZE_MODULUS.
    rewrite Hlen. lia. }
  assert (Href : ring_ok dm_wrapped.(ref_buffer) dm_wrapped.(capacity)
                   dm_wrapped.(ref_pos) dm_wrapped.(ref_count)).
  { apply Hok; [unfold dm_wrapped; cbn [ref_buffer];
                rewrite length_fmap, length_seq; reflexivity|cbn; lia]. }
  assert (Htgt : ring_ok dm_wrapped.(tgt_buffer) dm_wrapped.(capacity)
                   dm_wrapped.(tgt_pos) dm_wrapped.(tgt_count)).
  { apply Hok; [unfold dm_wrapped; cbn [tgt_buffer];
                rewrite length_fmap, length_seq; reflexivity|cbn; lia]. }
  assert (Hframes : snapshot_frames dm_wrapped = 2048) by reflexivity.
  pose proof (copy_recent_conditioned dm_wrapped _ _
                (ring_ok_holds_contents _ _ _ _ Href)
                (ring_ok_holds_contents _ _ _ _ Htgt)) as Hcopy.
  rewrite Hframes in Hcopy. specialize (Hcopy ltac:(lia)).
  assert (Hlen :
    length (last_n 2048
              (ring_contents dm_wrapped.(ref_buffer) dm_wrapped.(capacity)
                 dm_wrapped.(ref_pos) dm_wrapped.(ref_count)))
    = Z.to_nat 2048).
  { unfold last_n, ring_contents. rewrite length_drop, ring_read_length.
    cbn [dm_wrapped ref_count]. lia. }
  assert (Hhead :
    last_n 2048
      (ring_contents dm_wrapped.(ref_buffer) dm_wrapped.(capacity)
         dm_wrapped.(ref_pos) dm_wrapped.(ref_count)) !!! 0%nat = 100%R).
  { unfold last_n, ring_contents. rewrite ring_read_length.
    cbn [dm_wrapped ref_count ref_pos capacity ref_buffer].
    change (Z.to_nat 2048 - Z.to_nat 2048)%nat with 0%nat.
    rewrite drop_0, ring_read_lookup by (change (Z.to_nat 2048) with 2048%nat; lia).
    change (Z.to_nat (size_t ((100 - 2048) mod 2048 + Z.of_nat 0) mod 2048))
      with 100%nat.
    rewrite (list_lookup_total_fmap _ (seq 0 2048) 100)
      by (rewrite length_seq; lia).
    rewrite lookup_total_seq_lt by lia.
    rewrite INR_IZR_INZ. reflexivity. }
  split; [exact Hframes|]. split; [exact Hhead|].
  eexists _, _. split; [exact Hcopy|].
  assert (Hzero :
    apply_hann_window
      (apply_pre_emphasis
         (last_n 2048
            (ring_contents dm_wrapped.(ref_buffer) dm_wrapped.(capacity)
               dm_wrapped.(ref_pos) dm_wrapped.(ref_count))) 2048) 2048
    !!! 0%nat = 0%R).
  { apply conditioned_head. rewrite Hlen. lia. }
  split; [exact Hzero|].
  intros Heq. rewrite Heq, Hhead in Hzero. lra.
Qed.

(** The snapshot read on a small ring of integers that has wrapped: after
    [1..6] went through four slots, the three most recent samples come out
    oldest first although they straddle the end of the buffer. *)
Example ring_read_wraps :
  ring_read [5; 6; 3; 4] 4 (recent_start 4 2 3) 3 = [4; 5; 6].
Proof. reflexivity. Qed.

(** ** Producers *)

(** Both producers go through [ring_write]: the target callback on the
    target ring, the filter callback on the reference ring once a target is
    bound; each leaves the other ring alone. *)
Lemma capture_target_writes (dm : delay_meter_data) (samples : list R) :
  dm.(format) = AUDIO_FORMAT_FLOAT_PLANAR ->
  let dm' := capture_target dm (Some samples) (Z.of_nat (length samples)) in
  (dm'.(tgt_buffer), dm'.(tgt_pos), dm'.(tgt_count))
  = write_chunk dm.(capacity)
      (dm.(tgt_buffer), dm.(tgt_pos), dm.(tgt_count)) samples /\
  (dm'.(ref_buffer), dm'.(ref_pos), dm'.(ref_count))
  = (dm.(ref_buffer), dm.(ref_pos), dm.(ref_count)) /\
  dm'.(capacity) = dm.(capacity).
Proof.
  intros Hfmt. unfold capture_target, as_float_channel. rewrite Hfmt.
  cbn [write_chunk].
  destruct (ring_write _ _ _ _ _ _) as [[b p] c]. cbn. repeat split.
Qed.

Lemma filter_audio_writes (sources : string -> option obs_source)
    (dm : delay_meter_data) (t : obs_source) (samples : list R) :
  dm.(format) = AUDIO_FORMAT_FLOAT_PLANAR ->
  dm.(target) = Some t ->
  let dm' := delay_meter_filter_audio sources dm (Some samples)
               (Z.of_nat (length samples)) in
  (dm'.(ref_buffer), dm'.(ref_pos), dm'.(ref_count))
  = write_chunk dm.(capacity)
      (dm.(ref_buffer), dm.(ref_pos), dm.(ref_count)) samples /\
  (dm'.(tgt_buffer), dm'.(tgt_pos), dm'.(tgt_count))
  = (dm.(tgt_buffer), dm.(tgt_pos), dm.(tgt_count)) /\
  dm'.(capacity) = dm.(capacity).
Proof.
  intros Hfmt Ht. unfold delay_meter_filter_audio, as_float_channel.
  rewrite Ht. cbv iota beta zeta. rewrite Ht, Hfmt. cbn [write_chunk].
  destruct (ring_write _ _ _ _ _ _) as [[b p] c]. cbn. repeat split.
Qed.

(** The engine [delay_meter_create] returns has two well-formed, empty
    rings whenever the sample rate gives a positive capacity. *)
Lemma create_rings_ok (sources : string -> option obs_source)
    (settings : obs_data) (ctx : obs_source) (rate : Z) :
  0 < rate < UINT32_MODULUS ->
  let dm := delay_meter_create sources settings ctx rate in
  dm.(capacity) = 5 * rate /\
  ring_ok dm.(ref_buffer) dm.(capacity) dm.(ref_pos) dm.(ref_count) /\
  ring_ok dm.(tgt_buffer) dm.(capacity) dm.(tgt_pos) dm.(tgt_count) /\
  dm.(ref_count) = 0 /\ dm.(tgt_count) = 0.
Proof.
  intros Hrate. unfold delay_meter_create.
  change (uint32_t (BUFFER_SECONDS * 1000)) with 5000.
  rewrite ms_to_samples_eq by (unfold UINT32_MODULUS in *; lia).
  assert (Hcap : (5000 * rate + 500) / 1000 = 5 * rate).
  { symmetry. apply (Z.div_unique _ _ _ 500); lia. }
  rewrite Hcap.
  set (dm0 := mk_dm _ _ _ _ _ _ _ _ _ _ _ _ _ _ _ _ _ _ _ _ _ _).
  assert (Hfr : forall name,
    let dm := connect_target sources dm0 name in
    ref_buffer dm = ref_buffer dm0 /\ tgt_buffer dm = tgt_buffer dm0 /\
    capacity dm = capacity dm0 /\ ref_pos dm = ref_pos dm0 /\
    tgt_pos dm = tgt_pos dm0 /\ ref_count dm = ref_count dm0 /\
    tgt_count dm = tgt_count dm0).
  { intros name. unfold connect_target. cbn [target target_name dm0].
    destruct name as [n|]; cbn; [|repeat split].
    destruct (String.eqb n EmptyString); cbn; [repeat split|].
    destruct (sources n); cbn; repeat split. }
  destruct (Hfr (obs_data_get_string settings "target_source"))
    as (H1 & H2 & H3 & H4 & H5 & H6 & H7).
  cbn zeta. rewrite H1, H2, H3, H4, H5, H6, H7. cbn [dm0 ref_buffer tgt_buffer
    capacity ref_pos tgt_pos ref_count tgt_count].
  unfold ring_ok, SIZE_MODULUS, UINT32_MODULUS in *.
  rewrite length_replicate. repeat split; lia.
Qed.

(** ** Lag search *)

Section LagSearchProofs.
Local Open Scope R_scope.

Variables (ref tgt : list R) (ref_mean tgt_mean : R) (frames : Z).

Abbreviation corr_of := (lag_corr ref tgt ref_mean tgt_mean frames).
Abbreviation step := (lag_step ref tgt ref_mean tgt_mean frames).


Lemma lag_step_skip (st : R * Z * Z) (lag : Z) :
  corr_of lag = None -> step st lag = st.
Proof.
  intros Hn. unfold lag_step. destruct st as [[b l] n]. rewrite Hn.
  reflexivity.
Qed.

Lemma scan_all_skipped (lags : list Z) (st : R * Z * Z) :
  (forall lag, In lag lags -> corr_of lag = None) ->
  fold_left step lags st = st.
Proof.
  revert st. induction lags as [|lag lags IH]; intros st Hall; [reflexivity|].
  cbn [fold_left]. rewrite lag_step_skip by (apply Hall; left; reflexivity).
  apply IH. intros l Hl. apply Hall. right. exact Hl.
Qed.


Lemma scan_inv_step (m : Z) (k : nat) (st : R * Z * Z) :
  scan_inv corr_of m k st ->
  scan_inv corr_of m (S k) (step st (m + Z.of_nat k)%Z).
Proof.
  destruct st as [[best blag] n]. intros [Hmax Hfirst].
  unfold lag_step.
  destruct (corr_of (m + Z.of_nat k)%Z) as [c|] eqn:Hc.
  - destruct (Rgt_dec c best) as [Hgt|Hle].
    + split.
      * intros lag x Hlag Hx.
        destruct (Z.eq_dec lag (m + Z.of_nat k)%Z) as [->|Hne].
        -- rewrite Hc in Hx. injection Hx as <-. lra.
        -- specialize (Hmax lag x ltac:(lia) Hx). lra.
      * right. split; [lia|]. split; [exact Hc|]. split.
        -- destruct Hfirst as [[-> _]|(_ & _ & Hb & _)]; lra.
        -- intros lag x Hlag Hx. specialize (Hmax lag x ltac:(lia) Hx). lra.
    + split.
      * intros lag x Hlag Hx.
        destruct (Z.eq_dec lag (m + Z.of_nat k)%Z) as [->|Hne].
        -- rewrite Hc in Hx. injection Hx as <-. lra.
        -- apply (Hmax lag x); [lia|exact Hx].
      * destruct Hfirst as [Hinit|(Hr & Hb & Hpos & Hless)].
        -- left. exact Hinit.
        -- right. split; [lia|]. split; [exact Hb|]. split; [exact Hpos|].
           exact Hless.
  - split.
    + intros lag x Hlag Hx.
      destruct (Z.eq_dec lag (m + Z.of_nat k)%Z) as [->|Hne].
      * rewrite Hc in Hx. discriminate.
      * apply (Hmax lag x); [lia|exact Hx].
    + destruct Hfirst as [Hinit|(Hr & Hb & Hpos & Hless)].
      * left. exact Hinit.
      * right. split; [lia|]. split; [exact Hb|]. split; [exact Hpos|].
        exact Hless.
Qed.

Lemma scan_inv_all (m : Z) (k : nat) :
  scan_inv corr_of m k
    (fold_left step (seqZ m (Z.of_nat k)) (-1.0, 0%Z, 0%Z)).
Proof.
  induction k as [|k IH].
  - cbn. split; [intros; lia|]. left. split; reflexivity.
  - rewrite seqZ_S, fold_left_app. cbn [fold_left].
    apply scan_inv_step. exact IH.
Qed.

End LagSearchProofs.


Lemma lag_range_nat (max_lag : Z) :
  lag_range max_lag
  = seqZ (- max_lag) (Z.of_nat (Z.to_nat (2 * max_lag + 1))).
Proof. unfold lag_range, seqZ. rewrite Nat2Z.id. reflexivity. Qed.


Lemma find_best_lag_all_skipped (ref tgt : list R) (frames max_lag : Z) :
  (forall lag, In lag (lag_range max_lag) ->
     lag_corr ref tgt (snapshot_means ref tgt frames).1
       (snapshot_means ref tgt frames).2 frames lag = None) ->
  find_best_lag ref tgt frames max_lag = ((-1.0)%R, 0, 0).
Proof.
  unfold find_best_lag.
  destruct (snapshot_means ref tgt frames) as [ref_mean tgt_mean].
  cbn [fst snd]. apply scan_all_skipped.
Qed.

Section ConstantSnapshots.
Local Open Scope R_scope.

Lemma lag_sums_zero_a (ref tgt : list R) (ref_mean tgt_mean : R)
    (start_a start_b overlap : Z) :
  (forall i, (i < Z.to_nat overlap)%nat ->
     ref !!! Z.to_nat (size_t (start_a + Z.of_nat i)) = ref_mean) ->
  (lag_sums ref tgt ref_mean tgt_mean start_a start_b overlap).1.2 = 0.
Proof.
  intros Hc. unfold lag_sums.
  apply (for_loop_invariant
           (fun (k : nat) (st : R * R * R) => st.1.2 = 0)).
  - lia.
  - cbn. lra.
  - intros k [[sab sa2] sb2] Hk Hst. cbn in Hst. cbn.
    rewrite (Hc k) by lia. rewrite Hst. lra.
Qed.

Lemma lag_sums_zero_b (ref tgt : list R) (ref_mean tgt_mean : R)
    (start_a start_b overlap : Z) :
  (forall i, (i < Z.to_nat overlap)%nat ->
     tgt !!! Z.to_nat (size_t (start_b + Z.of_nat i)) = tgt_mean) ->
  (lag_sums ref tgt ref_mean tgt_mean start_a start_b overlap).2 = 0.
Proof.
  intros Hc. unfold lag_sums.
  apply (for_loop_invariant
           (fun (k : nat) (st : R * R * R) => st.2 = 0)).
  - lia.
  - cbn. lra.
  - intros k [[sab sa2] sb2] Hk Hst. cbn in Hst. cbn.
    rewrite (Hc k) by lia. rewrite Hst. lra.
Qed.

Lemma mean_loop_fst (ref tgt : list R) (n : nat) (a : R) :
  (forall i, (i < n)%nat -> ref !!! i = a) ->
  (for_loop 0 n
     (fun i '(ref_mean, tgt_mean) => (ref_mean + ref !!! i, tgt_mean + tgt !!! i))
     (0.0, 0.0)).1
  = INR n * a.
Proof.
  intros Ha.
  apply (for_loop_invariant
           (fun (k : nat) (st : R * R) => st.1 = INR k * a)).
  - lia.
  - cbn. lra.
  - intros k [s t] Hk Hst. cbn in Hst. cbn [fst].
    rewrite Ha by lia. rewrite Hst, S_INR. lra.
Qed.

Lemma mean_loop_snd (ref tgt : list R) (n : nat) (b : R) :
  (forall i, (i < n)%nat -> tgt !!! i = b) ->
  (for_loop 0 n
     (fun i '(ref_mean, tgt_mean) => (ref_mean + ref !!! i, tgt_mean + tgt !!! i))
     (0.0, 0.0)).2
  = INR n * b.
Proof.
  intros Hb.
  apply (for_loop_invariant
           (fun (k : nat) (st : R * R) => st.2 = INR k * b)).
  - lia.
  - cbn. lra.
  - intros k [s t] Hk Hst. cbn in Hst. cbn [snd].
    rewrite Hb by lia. rewrite Hst, S_INR. lra.
Qed.

Lemma snapshot_means_const_ref (ref tgt : list R) (frames : Z) (c : R) :
  (0 < frames)%Z ->
  (forall i, (i < Z.to_nat frames)%nat -> ref !!! i = c) ->
  (snapshot_means ref tgt frames).1 = c.
Proof.
  intros Hf Hc. unfold snapshot_means.
  pose proof (mean_loop_fst ref tgt (Z.to_nat frames) c Hc) as Hs.
  destruct (for_loop _ _ _ _) as [s t]. cbn [fst] in *. subst s.
  rewrite INR_IZR_INZ, Z2Nat.id by lia.
  field. apply not_0_IZR. lia.
Qed.

Lemma snapshot_means_const_tgt (ref tgt : list R) (frames : Z) (c : R) :
  (0 < frames)%Z ->
  (forall i, (i < Z.to_nat frames)%nat -> tgt !!! i = c) ->
  (snapshot_means ref tgt frames).2 = c.
Proof.
  intros Hf Hc. unfold snapshot_means.
  pose proof (mean_loop_snd ref tgt (Z.to_nat frames) c Hc) as Hs.
  destruct (for_loop _ _ _ _) as [s t]. cbn [snd] in *. subst t.
  rewrite INR_IZR_INZ, Z2Nat.id by lia.
  field. apply not_0_IZR. lia.
Qed.

Lemma lag_overlap_small (frames lag : Z) :
  (0 <= frames < INT_HALF)%Z -> (Z.abs lag <= frames)%Z ->
  lag_overlap frames lag = (frames - Z.abs lag)%Z.
Proof.
  unfold INT_HALF. intros Hf Hl. unfold lag_overlap.
  apply size_t_small. unfold SIZE_MODULUS. lia.
Qed.

(** A lag whose window of [ref] is constant at the mean, or whose window of
    [tgt] is, has a zero denominator and is skipped. *)
Lemma lag_corr_const (ref tgt : list R) (frames : Z) (c : R) (lag : Z) :
  (0 < frames < INT_HALF)%Z -> (Z.abs lag <= frames)%Z ->
  (forall i, (i < Z.to_nat frames)%nat -> ref !!! i = c) \/
  (forall i, (i < Z.to_nat frames)%nat -> tgt !!! i = c) ->
  lag_corr ref tgt (snapshot_means ref tgt frames).1
    (snapshot_means ref tgt frames).2 frames lag = None.
Proof.
  intros Hf Hl Hc. unfold lag_corr, lag_sums_at.
  rewrite lag_overlap_small by lia.
  destruct (Z.ltb_spec (frames - Z.abs lag) 1024) as [|Hge]; [reflexivity|].
  unfold INT_HALF in Hf.
  set (start_a := if (lag >=? 0)%Z then 0%Z else Z.abs lag).
  set (start_b := if (lag >=? 0)%Z then Z.abs lag else 0%Z).
  assert (Hsa : (0 <= start_a <= Z.abs lag)%Z)
    by (subst start_a; destruct (lag >=? 0)%Z; lia).
  assert (Hsb : (0 <= start_b <= Z.abs lag)%Z)
    by (subst start_b; destruct (lag >=? 0)%Z; lia).
  assert (Hden :
    let '(_, sum_a2, sum_b2) :=
      lag_sums ref tgt (snapshot_means ref tgt frames).1
        (snapshot_means ref tgt frames).2 start_a start_b
        (frames - Z.abs lag) in
    sqrt (sum_a2 * sum_b2) = 0).
  { destruct Hc as [Hc|Hc].
    - pose proof (lag_sums_zero_a ref tgt (snapshot_means ref tgt frames).1
                    (snapshot_means ref tgt frames).2 start_a start_b
                    (frames - Z.abs lag)) as Hz.
      destruct (lag_sums _ _ _ _ _ _ _) as [[sab sa2] sb2]. cbn in Hz.
      rewrite Hz.
      + rewrite Rmult_0_l. apply sqrt_0.
      + intros i Hi.
        rewrite size_t_small by (unfold SIZE_MODULUS; lia).
        rewrite (snapshot_means_const_ref ref tgt frames c) by (lia || exact Hc).
        apply Hc. lia.
    - pose proof (lag_sums_zero_b ref tgt (snapshot_means ref tgt frames).1
                    (snapshot_means ref tgt frames).2 start_a start_b
                    (frames - Z.abs lag)) as Hz.
      destruct (lag_sums _ _ _ _ _ _ _) as [[sab sa2] sb2]. cbn in Hz.
      rewrite Hz.
      + rewrite Rmult_0_r. apply sqrt_0.
      + intros i Hi.
        rewrite size_t_small by (unfold SIZE_MODULUS; lia).
        rewrite (snapshot_means_const_tgt ref tgt frames c) by (lia || exact Hc).
        apply Hc. lia. }
  destruct (lag_sums _ _ _ _ _ _ _) as [[sab sa2] sb2].
  rewrite Hden.
  destruct (Rlt_dec 0 1e-8) as [|Hn]; [reflexivity|]. exfalso. apply Hn. lra.
Qed.

End ConstantSnapshots.

Lemma estimate_all_skipped (ref tgt : list R)
    (frames max_lag_ms sample_rate : Z) :
  (forall lag,
     In lag (lag_range (clamp_max_lag max_lag_ms sample_rate frames)) ->
     lag_corr ref tgt (snapshot_means ref tgt frames).1
       (snapshot_means ref tgt frames).2 frames lag = None) ->
  estimate_from_snapshot max_lag_ms sample_rate ref tgt frames = None.
Proof.
  intros Hall. unfold estimate_from_snapshot.
  rewrite (find_best_lag_all_skipped ref tgt frames _ Hall).
  destruct (Rlt_dec (-1.0) MIN_CORR_THRESHOLD) as [|Hn]; [reflexivity|].
  exfalso. apply Hn. unfold MIN_CORR_THRESHOLD. lra.
Qed.

Lemma constant_all_skipped (ref tgt : list R)
    (frames max_lag_ms sample_rate : Z) (c : R) :
  0 < frames < INT_HALF ->
  (forall i, (i < Z.to_nat frames)%nat -> ref !!! i = c) \/
  (forall i, (i < Z.to_nat frames)%nat -> tgt !!! i = c) ->
  forall lag,
    In lag (lag_range (clamp_max_lag max_lag_ms sample_rate frames)) ->
    lag_corr ref tgt (snapshot_means ref tgt frames).1
      (snapshot_means ref tgt frames).2 frames lag = None.
Proof.
  intros Hfr Hc lag Hin.
  apply In_lag_range in Hin.
  pose proof (clamp_max_lag_le max_lag_ms sample_rate frames) as Hcl.
  rewrite int_cast_small in Hcl by (unfold INT_HALF in *; lia).
  rewrite Z.quot_div_nonneg in Hcl by lia.
  assert (frames / 2 <= frames) by (apply Z.div_le_upper_bound; lia).
  apply (lag_corr_const ref tgt frames c lag); [exact Hfr|lia|exact Hc].
Qed.


(** ** A tie between lags *)


Section Tie.
Local Open Scope R_scope.






End Tie.


(** ** Measurement orchestrator *)

Lemma copy_recent_Some (dm : delay_meter_data) :
  1024 <= snapshot_frames dm ->
  exists ref tgt,
    copy_recent dm true = Some (ref, tgt, snapshot_frames dm).
Proof.
  intros Hf. unfold copy_recent, snapshot.
  destruct (Z.ltb_spec (snapshot_frames dm) 1024); [lia|]. cbn [negb].
  destruct (snapshot_loop _ _ _ _ _ _) as [ref tgt].
  eexists _, _. reflexivity.
Qed.

Lemma set_result_frame (dm : delay_meter_data) (now : Z)
    (delay_text notes_text : option text) :
  let dm' := set_result dm now delay_text notes_text in
  ref_buffer dm' = ref_buffer dm /\ tgt_buffer dm' = tgt_buffer dm /\
  capacity dm' = capacity dm /\
  ref_pos dm' = ref_pos dm /\ tgt_pos dm' = tgt_pos dm /\
  ref_count dm' = ref_count dm /\ tgt_count dm' = tgt_count dm /\
  sample_rate dm' = sample_rate dm /\ window_ms dm' = window_ms dm /\
  max_lag_ms dm' = max_lag_ms dm /\ debug_enabled dm' = debug_enabled dm /\
  target dm' = target dm /\ target_name dm' = target_name dm.
Proof. destruct delay_text; cbn; repeat split. Qed.

(** C1, amended. On an engine with a target bound and at least 1024 frames
    in both rings and in the analysis window, so that the lag search runs on
    the conditioned snapshot, and with a lag bound whose negation is defined
    in [int]: [perform_measure] reports a valid result if and only if the
    best correlation of the search is at least [MIN_CORR_THRESHOLD], which
    is the single-precision constant [0.6f], 5033165 / 2^23, a little above
    0.6. The delay it then stores is [best_lag * 1000 / sample_rate], and
    the notes say that the target lags when the delay is positive, leads
    when it is negative and is aligned when it is zero. When the best
    correlation is below the constant the result is invalid and carries the
    low-confidence text. *)
Theorem measure_valid_iff (dm : delay_meter_data) (now : Z) :
  target dm <> None ->
  1024 <= ref_count dm ->
  1024 <= tgt_count dm ->
  1024 <= ms_to_samples (window_ms dm) (sample_rate dm) ->
  - INT_HALF < int_cast (ms_to_samples (max_lag_ms dm) (sample_rate dm)) ->
  MIN_CORR_THRESHOLD = (5033165 / 8388608)%R /\
  (0.6 < MIN_CORR_THRESHOLD < 0.60000003)%R /\
  exists ref tgt frames,
    copy_recent dm true = Some (ref, tgt, frames) /\
    let max_lag := clamp_max_lag (max_lag_ms dm) (sample_rate dm) frames in
    let '(best_corr, best_lag, _) := find_best_lag ref tgt frames max_lag in
    let delay_ms := (IZR best_lag * 1000.0 / IZR (sample_rate dm))%R in
    let name := default "<target>"%string (target_name dm) in
    let '(ok, dm') := perform_measure dm now true in
    (ok = true <-> (MIN_CORR_THRESHOLD <= best_corr)%R) /\
    last_delay_valid dm' = ok /\
    ((MIN_CORR_THRESHOLD <= best_corr)%R ->
     last_delay_ms dm' = delay_ms /\
     last_delay_text dm' = Some (FmtDelay delay_ms best_corr) /\
     ((delay_ms > 0)%R -> last_notes dm' = Some (FmtLags name delay_ms)) /\
     ((delay_ms < 0)%R ->
      last_notes dm' = Some (FmtLeads name (Rabs delay_ms))) /\
     (delay_ms = 0%R -> last_notes dm' = Some (FmtAligned name))) /\
    ((best_corr < MIN_CORR_THRESHOLD)%R ->
     last_delay_text dm'
     = Some (Lit "Insufficient correlation - check audio levels and similarity")).
Proof.
  intros Htarget Href Htgt Hwin _.
  split; [unfold MIN_CORR_THRESHOLD; lra|].
  split; [unfold MIN_CORR_THRESHOLD; lra|].
  assert (Hframes : 1024 <= snapshot_frames dm).
  { unfold snapshot_frames.
    destruct (Z.ltb_spec (ref_count dm) (tgt_count dm)).
    - destruct (Z.ltb_spec (ref_count dm)
                  (ms_to_samples (window_ms dm) (sample_rate dm))); lia.
    - destruct (Z.ltb_spec (tgt_count dm)
                  (ms_to_samples (window_ms dm) (sample_rate dm))); lia. }
  destruct (copy_recent_Some dm Hframes) as (ref & tgt & Hcopy).
  exists ref, tgt, (snapshot_frames dm). split; [exact Hcopy|].
  cbn zeta.
  unfold perform_measure.
  destruct (target dm) as [t|]; [|contradiction].
  destruct (Z.geb_spec (ref_count dm) 1024); [|lia].
  destruct (Z.geb_spec (tgt_count dm) 1024); [|lia].
  cbn [andb negb].
  unfold estimate_delay. rewrite Hcopy. unfold estimate_from_snapshot.
  destruct (find_best_lag ref tgt (snapshot_frames dm) _)
    as [[best_corr best_lag] lag_count].
  destruct (Rlt_dec best_corr MIN_CORR_THRESHOLD) as [Hlow|Hhigh].
  - split; [split; [discriminate|lra]|].
    split; [reflexivity|]. split; [lra|]. intros _. reflexivity.
  - split; [split; [lra|reflexivity]|].
    split; [reflexivity|]. split; [|lra]. intros _.
    split; [reflexivity|]. split; [reflexivity|].
    destruct (Rgt_dec (IZR best_lag * 1000.0 / IZR (sample_rate dm)) 0)
      as [Hpos|Hnpos].
    + repeat split; intros; try reflexivity; lra.
    + destruct (Rlt_dec (IZR best_lag * 1000.0 / IZR (sample_rate dm)) 0)
        as [Hneg|Hnneg].
      * repeat split; intros; try reflexivity; lra.
      * repeat split; intros; try reflexivity; lra.
Qed.

Lemma measure_valid_iff_witness :
  MIN_CORR_THRESHOLD = (5033165 / 8388608)%R /\
  (0.6 < MIN_CORR_THRESHOLD < 0.60000003)%R /\
  exists ref tgt frames,
    copy_recent dm_click true = Some (ref, tgt, frames) /\
    let max_lag :=
      clamp_max_lag (max_lag_ms dm_click) (sample_rate dm_click) frames in
    let '(best_corr, best_lag, _) := find_best_lag ref tgt frames max_lag in
    let delay_ms := (IZR best_lag * 1000.0 / IZR (sample_rate dm_click))%R in
    let name := default "<target>"%string (target_name dm_click) in
    let '(ok, dm') := perform_measure dm_click 0 true in
    (ok = true <-> (MIN_CORR_THRESHOLD <= best_corr)%R) /\
    last_delay_valid dm' = ok /\
    ((MIN_CORR_THRESHOLD <= best_corr)%R ->
     last_delay_ms dm' = delay_ms /\
     last_delay_text dm' = Some (FmtDelay delay_ms best_corr) /\
     ((delay_ms > 0)%R -> last_notes dm' = Some (FmtLags name delay_ms)) /\
     ((delay_ms < 0)%R ->
      last_notes dm' = Some (FmtLeads name (Rabs delay_ms))) /\
     (delay_ms = 0%R -> last_notes dm' = Some (FmtAligned name))) /\
    ((best_corr < MIN_CORR_THRESHOLD)%R ->
     last_delay_text dm'
     = Some (Lit "Insufficient correlation - check audio levels and similarity")).
Proof.
  apply (measure_valid_iff dm_click 0).
  - discriminate.
  - cbn. lia.
  - cbn. lia.
  - change (1024 <= 48000). lia.
  - vm_compute. reflexivity.
Defined.

(** C9. Whatever the engine state, [perform_measure] leaves both rings
    (storage, cursors, counts, capacity) and the configuration (window,
    maximum lag, sample rate, debug flag) as they were. Every failed
    attempt leaves the result invalid and stores a reason and notes, both
    literal texts: "No target source" when no target is bound, "Buffers too
    small" when a target is bound and a ring holds fewer than 1024 samples,
    and the low-confidence text otherwise. Without a target the attempt
    fails with the first of these whatever the rings hold: the check comes
    before any snapshot. *)
Theorem measure_failure_frame (dm : delay_meter_data) (now : Z)
    (alloc_ok : bool) :
  let '(ok, dm') := perform_measure dm now alloc_ok in
  (ref_buffer dm' = ref_buffer dm /\ tgt_buffer dm' = tgt_buffer dm /\
   capacity dm' = capacity dm /\
   ref_pos dm' = ref_pos dm /\ tgt_pos dm' = tgt_pos dm /\
   ref_count dm' = ref_count dm /\ tgt_count dm' = tgt_count dm /\
   sample_rate dm' = sample_rate dm /\ window_ms dm' = window_ms dm /\
   max_lag_ms dm' = max_lag_ms dm /\ debug_enabled dm' = debug_enabled dm) /\
  (ok = false ->
   last_delay_valid dm' = false /\
   exists reason notes : string,
     last_delay_text dm' = Some (Lit reason) /\
     last_notes dm' = Some (Lit notes) /\
     reason <> EmptyString /\
     ((target dm = None /\ reason = "No target source"%string) \/
      (target dm <> None /\ (ref_count dm < 1024 \/ tgt_count dm < 1024) /\
       reason = "Buffers too small"%string) \/
      (target dm <> None /\ 1024 <= ref_count dm /\ 1024 <= tgt_count dm /\
       reason
       = "Insufficient correlation - check audio levels and similarity"%string))) /\
  (target dm = None ->
   ok = false /\ last_delay_text dm' = Some (Lit "No target source")).
Proof.
  unfold perform_measure.
  destruct (target dm) as [t|] eqn:Ht.
  - destruct (Z.geb_spec (ref_count dm) 1024) as [Hr|Hr];
      [destruct (Z.geb_spec (tgt_count dm) 1024) as [Hg|Hg]|]; cbn [andb negb].
    + destruct (estimate_delay dm alloc_ok) as [[delay_ms corr]|].
      * split; [cbn; repeat split|]. split; [discriminate|discriminate].
      * split; [cbn; repeat split|]. split; [|discriminate].
        intros _. split; [reflexivity|].
        eexists _, _. split; [reflexivity|]. split; [reflexivity|].
        split; [discriminate|]. right. right.
        repeat split; try lia. discriminate.
    + split; [cbn; repeat split|]. split; [|discriminate].
      intros _. split; [reflexivity|].
      eexists _, _. split; [reflexivity|]. split; [reflexivity|].
      split; [discriminate|]. right. left.
      repeat split; try lia. discriminate.
    + split; [cbn; repeat split|]. split; [|discriminate].
      intros _. split; [reflexivity|].
      eexists _, _. split; [reflexivity|]. split; [reflexivity|].
      split; [discriminate|]. right. left.
      repeat split; try lia. discriminate.
  - split; [cbn; repeat split|]. split.
    + intros _. split; [reflexivity|].
      eexists _, _. split; [reflexivity|]. split; [reflexivity|].
      split; [discriminate|]. left. split; reflexivity.
    + intros _. split; reflexivity.
Qed.


(** Conditioning keeps silence silent. *)
Lemma conditioned_silence (x : list R) (frames : Z) (i : nat) :
  1 < frames <= Z.of_nat (length x) ->
  (forall j, (j < Z.to_nat frames)%nat -> x !!! j = 0%R) ->
  (i < Z.to_nat frames)%nat ->
  apply_hann_window (apply_pre_emphasis x frames) frames !!! i = 0%R.
Proof.
  intros Hf Hx Hi.
  rewrite apply_hann_window_lookup
    by (rewrite apply_pre_emphasis_length; lia).
  destruct (Nat.ltb_spec i (Z.to_nat frames)); [|lia].
  rewrite apply_pre_emphasis_lookup by lia.
  destruct ((1 <=? i)%nat && (i <? Z.to_nat frames)%nat) eqn:Hb.
  - apply andb_true_iff in Hb as [Hb1 _]. apply Nat.leb_le in Hb1.
    rewrite (Hx i), (Hx (i - 1)%nat) by lia. lra.
  - rewrite (Hx i) by lia. lra.
Qed.

(** The low-confidence outcome is reached from a real engine state: with a
    target bound, at least 1024 frames on both sides and a reference ring
    that stores only zeros, every lag is skipped and the measurement ends
    invalid with the low-confidence text. *)
Lemma silent_reference_low_confidence (dm : delay_meter_data) (now : Z) :
  target dm <> None ->
  ring_ok dm.(ref_buffer) dm.(capacity) dm.(ref_pos) dm.(ref_count) ->
  ring_ok dm.(tgt_buffer) dm.(capacity) dm.(tgt_pos) dm.(tgt_count) ->
  dm.(capacity) < INT_HALF ->
  1024 <= ref_count dm -> 1024 <= tgt_count dm ->
  1024 <= ms_to_samples (window_ms dm) (sample_rate dm) ->
  (forall i, dm.(ref_buffer) !!! i = 0%R) ->
  let '(ok, dm') := perform_measure dm now true in
  ok = false /\ last_delay_valid dm' = false /\
  last_delay_text dm'
  = Some (Lit "Insufficient correlation - check audio levels and similarity").
Proof.
  intros Htarget Href Htgt Hcap Hrc Htc Hwin Hzero.
  pose proof (snapshot_frames_min dm) as Hmin.
  pose proof Href as (_ & _ & _ & _ & Hrcnt).
  pose proof (ring_ok_holds_contents _ _ _ _ Href) as Hhr.
  pose proof (ring_ok_holds_contents _ _ _ _ Htgt) as Hht.
  assert (Hf : 1024 <= snapshot_frames dm) by lia.
  pose proof (copy_recent_conditioned dm _ _ Hhr Hht Hf) as Hcopy.
  set (frames := snapshot_frames dm) in *.
  set (ref_hist := ring_contents _ _ (ref_pos dm) _) in *.
  assert (Hlen : length (last_n frames ref_hist) = Z.to_nat frames).
  { unfold last_n. rewrite length_drop.
    pose proof (ring_holds_length _ _ _ _ _ Hhr). lia. }
  assert (Hsil : forall j, (j < Z.to_nat frames)%nat ->
            last_n frames ref_hist !!! j = 0%R).
  { intros j Hj.
    rewrite <- (ring_holds_read _ _ _ _ _ frames Hhr) by lia.
    rewrite ring_read_lookup by exact Hj. apply Hzero. }
  unfold perform_measure.
  destruct (target dm) as [t|]; [|contradiction].
  destruct (Z.geb_spec (ref_count dm) 1024); [|lia].
  destruct (Z.geb_spec (tgt_count dm) 1024); [|lia].
  cbn [andb negb]. unfold estimate_delay. rewrite Hcopy.
  rewrite estimate_all_skipped; [repeat split|].
  apply (constant_all_skipped _ _ frames _ _ 0%R); [lia|].
  left. intros i Hi. apply conditioned_silence; [lia|exact Hsil|exact Hi].
Qed.

(** ** A measurement that succeeds *)

Section IdenticalSnapshots.
Local Open Scope R_scope.

Variables (x : list R) (frames : Z).

(** The same array on both sides has the same mean on both sides. *)
Lemma snapshot_means_same :
  (snapshot_means x x frames).1 = (snapshot_means x x frames).2.
Proof.
  unfold snapshot_means.
  assert (Hinv :
    (fun (k : nat) (st : R * R) => st.1 = st.2)
      (Z.to_nat frames)
      (for_loop 0 (Z.to_nat frames)
         (fun i '(ref_mean, tgt_mean) => (ref_mean + x !!! i, tgt_mean + x !!! i))
         (0.0, 0.0))).
  { apply for_loop_invariant; [lia|reflexivity|].
    intros k [s t] _ Hst. cbn in *. rewrite Hst. reflexivity. }
  destruct (for_loop _ _ _ _) as [s t]. cbn in *. rewrite Hinv. reflexivity.
Qed.

(** At lag 0 the three sums of an array against itself coincide, are
    non-negative and bound the squared deviation of every sample of the
    window. *)
Lemma lag_sums_same (m : R) (overlap : Z) (j : nat) :
  (0 <= overlap < SIZE_MODULUS)%Z ->
  (j < Z.to_nat overlap)%nat ->
  let '(sum_ab, sum_a2, sum_b2) := lag_sums x x m m 0 0 overlap in
  sum_ab = sum_a2 /\ sum_b2 = sum_a2 /\
  (x !!! j - m) * (x !!! j - m) <= sum_a2.
Proof.
  intros Ho Hj. unfold lag_sums.
  assert (Hinv :
    (fun (k : nat) (st : R * R * R) =>
       st.1.1 = st.1.2 /\ st.2 = st.1.2 /\ 0 <= st.1.2 /\
       ((j < k)%nat -> (x !!! j - m) * (x !!! j - m) <= st.1.2))
      (Z.to_nat overlap)
      (for_loop 0 (Z.to_nat overlap)
         (fun i '(sum_ab, sum_a2, sum_b2) =>
            let da := x !!! Z.to_nat (size_t (0 + Z.of_nat i)) - m in
            let db := x !!! Z.to_nat (size_t (0 + Z.of_nat i)) - m in
            (sum_ab + da * db, sum_a2 + da * da, sum_b2 + db * db))
         (0.0, 0.0, 0.0))).
  { apply for_loop_invariant.
    - lia.
    - cbn. repeat split; try lra. intros; lia.
    - intros k [[sab sa2] sb2] Hk (H1 & H2 & H3 & H4). cbn in H1, H2, H3, H4.
      cbn [fst snd].
      rewrite size_t_small by lia.
      replace (Z.to_nat (0 + Z.of_nat k)) with k by lia.
      pose proof (Rle_0_sqr (x !!! k - m)) as Hsq. unfold Rsqr in Hsq.
      subst sab sb2. repeat split; try lra.
      intros Hjk. destruct (Nat.eq_dec j k) as [->|Hne]; [lra|].
      specialize (H4 ltac:(lia)). lra. }
  destruct (for_loop _ _ _ _) as [[sab sa2] sb2]. cbn in Hinv.
  destruct Hinv as (H1 & H2 & _ & H4). repeat split; auto.
Qed.

(** An array that starts at 0 and reaches 1 somewhere correlates with itself
    at lag 0 with coefficient 1. *)
Lemma lag_corr_same_zero (j : nat) :
  (1024 <= frames < INT_HALF)%Z ->
  (j < Z.to_nat frames)%nat ->
  x !!! 0%nat = 0 -> x !!! j = 1 ->
  lag_corr x x (snapshot_means x x frames).1 (snapshot_means x x frames).2
    frames 0 = Some 1.
Proof.
  intros Hf Hj H0 H1. unfold INT_HALF in Hf.
  rewrite <- snapshot_means_same.
  set (m := (snapshot_means x x frames).1).
  unfold lag_corr, lag_sums_at.
  assert (Hov : lag_overlap frames 0 = frames).
  { unfold lag_overlap. rewrite Z.sub_0_r. apply size_t_small.
    unfold SIZE_MODULUS. lia. }
  rewrite Hov. change (0 >=? 0)%Z with true. change (Z.abs 0) with 0%Z.
  cbv iota zeta.
  destruct (Z.ltb_spec frames 1024); [lia|].
  pose proof (lag_sums_same m frames 0 ltac:(unfold SIZE_MODULUS; lia)
                ltac:(lia)) as Ha.
  pose proof (lag_sums_same m frames j ltac:(unfold SIZE_MODULUS; lia) Hj)
    as Hb.
  destruct (lag_sums x x m m 0 0 frames) as [[sab sa2] sb2].
  destruct Ha as (Hab & Hb2 & Ha). destruct Hb as (_ & _ & Hb).
  subst sab sb2.
  rewrite H0 in Ha. rewrite H1 in Hb.
  assert (Hs : 1 / 4 <= sa2) by nra.
  rewrite sqrt_square by lra.
  destruct (Rlt_dec sa2 1e-8) as [Hd|_]; [lra|].
  f_equal. field. lra.
Qed.

End IdenticalSnapshots.

Lemma find_best_lag_scan (ref tgt : list R) (frames max_lag : Z) :
  scan_inv
    (lag_corr ref tgt (snapshot_means ref tgt frames).1
       (snapshot_means ref tgt frames).2 frames)
    (- max_lag) (Z.to_nat (2 * max_lag + 1))
    (find_best_lag ref tgt frames max_lag).
Proof.
  unfold find_best_lag.
  destruct (snapshot_means ref tgt frames) as [ref_mean tgt_mean].
  cbn [fst snd]. rewrite lag_range_nat. apply scan_inv_all.
Qed.

Lemma hann_weight_middle : hann_weight 1024 2049 = 1%R.
Proof.
  unfold hann_weight. rewrite INR_IZR_INZ.
  change (Z.of_nat 1024) with 1024.
  replace (2.0 * PI * 1024 / (2049 - 1.0))%R with PI by lra.
  rewrite cos_PI. lra.
Qed.

(** The success side of the measurement is reached from a real engine
    state: with the same click in both rings the two conditioned snapshots
    coincide, lag 0 is evaluated with correlation 1, and the measurement
    ends valid. *)
Lemma click_measure_valid :
  let '(ok, dm') := perform_measure dm_click 0 true in
  ok = true /\ last_delay_valid dm' = true.
Proof.
  assert (Hlenb : length (<[1024%nat := 1%R]> (replicate 2049 0%R)) = 2049%nat)
    by (rewrite length_insert, length_replicate; reflexivity).
  assert (Hok : ring_ok (<[1024%nat := 1%R]> (replicate 2049 0%R)) 2049 0 2049).
  { unfold ring_ok, SIZE_MODULUS. rewrite Hlenb. lia. }
  pose proof (ring_ok_holds_contents _ _ _ _ Hok) as Hh.
  assert (Hframes : snapshot_frames dm_click = 2049) by reflexivity.
  pose proof (copy_recent_conditioned dm_click _ _ Hh Hh) as Hcopy.
  rewrite Hframes in Hcopy. specialize (Hcopy ltac:(lia)).
  set (x := last_n 2049
              (ring_contents (<[1024%nat := 1%R]> (replicate 2049 0%R))
                 2049 0 2049)) in *.
  assert (Hx : forall j, (j < 2049)%nat ->
            x !!! j = <[1024%nat := 1%R]> (replicate 2049 0%R) !!! j).
  { intros j Hj. subst x.
    rewrite <- (ring_holds_read _ _ _ _ _ 2049 Hh) by lia.
    rewrite ring_read_lookup by (change (Z.to_nat 2049) with 2049%nat; lia).
    f_equal. change (recent_start 2049 0 2049) with 0.
    rewrite size_t_small by (unfold SIZE_MODULUS; lia).
    rewrite Z.mod_small by lia. lia. }
  assert (Hlenx : length x = 2049%nat).
  { subst x. unfold last_n, ring_contents.
    rewrite length_drop, ring_read_length. reflexivity. }
  set (c := apply_hann_window (apply_pre_emphasis x 2049) 2049) in *.
  assert (Hc0 : c !!! 0%nat = 0%R).
  { subst c. apply conditioned_head. rewrite Hlenx. lia. }
  assert (Hc1 : c !!! 1024%nat = 1%R).
  { subst c.
    rewrite apply_hann_window_lookup
      by (rewrite apply_pre_emphasis_length; rewrite Hlenx; lia).
    rewrite apply_pre_emphasis_lookup by (rewrite Hlenx; lia).
    change (Z.to_nat 2049) with 2049%nat.
    change (1024 <? 2049)%nat with true.
    change ((1 <=? 1024)%nat && true) with true. cbv iota.
    rewrite (Hx 1024%nat), (Hx (1024 - 1)%nat) by lia.
    rewrite list_lookup_total_insert_eq by (rewrite length_replicate; lia).
    rewrite list_lookup_total_insert_ne by lia.
    rewrite lookup_total_replicate_2 by lia.
    rewrite hann_weight_middle. unfold PRE_EMPHASIS_ALPHA. lra. }
  pose proof (lag_corr_same_zero c 2049 1024
                ltac:(unfold INT_HALF; lia) ltac:(lia) Hc0 Hc1) as Hcorr.
  pose proof (find_best_lag_scan c c 2049
                (clamp_max_lag (max_lag_ms dm_click) (sample_rate dm_click)
                   2049)) as Hscan.
  unfold perform_measure, estimate_delay.
  change (target dm_click) with (Some 1%nat).
  change (ref_count dm_click >=? 1024) with true.
  change (tgt_count dm_click >=? 1024) with true.
  cbn [andb negb].
  change (tgt_buffer dm_click) with (ref_buffer dm_click) in Hcopy.
  rewrite Hcopy. unfold estimate_from_snapshot.
  destruct (find_best_lag c c 2049 _) as [[best_corr best_lag] lag_count].
  destruct Hscan as [Hmax _].
  assert (Hbest : (1 <= best_corr)%R).
  { apply (Hmax 0); [|exact Hcorr].
    change (clamp_max_lag (max_lag_ms dm_click) (sample_rate dm_click) 2049)
      with 1024.
    lia. }
  destruct (Rlt_dec best_corr MIN_CORR_THRESHOLD) as [Hlow|_];
    [unfold MIN_CORR_THRESHOLD in Hlow; lra|].
  split; reflexivity.
Qed.

(** The low-confidence side on a concrete engine: a target bound and both
    rings full of silence. *)
Example silent_measure_fails :
  let '(ok, dm') := perform_measure dm_busy 0 true in
  ok = false /\ last_delay_valid dm' = false /\
  last_delay_text dm'
  = Some (Lit "Insufficient correlation - check audio levels and similarity").
Proof.
  assert (Hok : ring_ok (replicate 2048 0%R) 2048 0 2048).
  { unfold ring_ok, SIZE_MODULUS. rewrite length_replicate. lia. }
  apply (silent_reference_low_confidence dm_busy 0).
  - discriminate.
  - exact Hok.
  - exact Hok.
  - unfold INT_HALF. cbn. lia.
  - cbn. lia.
  - cbn. lia.
  - change (1024 <= 48000). lia.
  - intros i. change (ref_buffer dm_busy) with (replicate 2048 0%R).
    destruct (Nat.lt_ge_cases i 2048) as [Hi|Hi].
    + apply lookup_total_replicate_2. exact Hi.
    + rewrite list_lookup_total_alt, lookup_ge_None_2; [reflexivity|].
      rewrite length_replicate. exact Hi.
Qed.


(** ** The threshold is the single-precision constant *)

Section IntegerSamples.
Local Open Scope R_scope.

Variables (a b : list Z).

Lemma IZR_lookup (l : list Z) (i : nat) :
  (i < length l)%nat -> (IZR <$> l) !!! i = IZR (l !!! i).
Proof.
  intros Hi. apply list_lookup_total_correct.
  rewrite list_lookup_fmap.
  rewrite (list_lookup_lookup_total_lt l i Hi). reflexivity.
Qed.

(** On arrays of integers the mean loop computes the integer sums. *)
Lemma snapshot_means_IZR (frames : Z) :
  (frames <= Z.of_nat (length a))%Z -> (frames <= Z.of_nat (length b))%Z ->
  snapshot_means (IZR <$> a) (IZR <$> b) frames
  = (IZR (sums_Z a b frames).1 / IZR frames,
     IZR (sums_Z a b frames).2 / IZR frames).
Proof.
  intros Ha Hb. unfold snapshot_means, sums_Z.
  assert (Hinv : forall n, (n <= Z.to_nat frames)%nat ->
    for_loop 0 n
      (fun i '(ref_mean, tgt_mean) =>
         (ref_mean + (IZR <$> a) !!! i, tgt_mean + (IZR <$> b) !!! i))
      (0.0, 0.0)
    = (IZR (for_loop 0 n
              (fun i '(sa, sb) => ((sa + a !!! i)%Z, (sb + b !!! i)%Z))
              (0%Z, 0%Z)).1,
       IZR (for_loop 0 n
              (fun i '(sa, sb) => ((sa + a !!! i)%Z, (sb + b !!! i)%Z))
              (0%Z, 0%Z)).2)).
  { induction n as [|n IH]; intros Hn.
    - rewrite !for_loop_nil by lia. cbn. f_equal; lra.
    - rewrite !for_loop_S by lia. rewrite IH by lia.
      destruct (for_loop 0 n _ (0%Z, 0%Z)) as [sa sb]. cbn [fst snd].
      rewrite !IZR_lookup by lia. rewrite !plus_IZR. reflexivity. }
  rewrite (Hinv (Z.to_nat frames)) by lia. reflexivity.
Qed.

(** On arrays of integers, with integer means, the inner loop computes the
    integer sums. *)
Lemma lag_sums_IZR (mean_a mean_b start_a start_b overlap : Z) :
  (0 <= start_a)%Z -> (0 <= start_b)%Z ->
  (start_a + overlap <= Z.of_nat (length a))%Z ->
  (start_b + overlap <= Z.of_nat (length b))%Z ->
  (Z.of_nat (length a) < SIZE_MODULUS)%Z ->
  (Z.of_nat (length b) < SIZE_MODULUS)%Z ->
  lag_sums (IZR <$> a) (IZR <$> b) (IZR mean_a) (IZR mean_b)
    start_a start_b overlap
  = let '(sum_ab, sum_a2, sum_b2) :=
      lag_sums_Z a b mean_a mean_b start_a start_b overlap in
    (IZR sum_ab, IZR sum_a2, IZR sum_b2).
Proof.
  intros Hsa Hsb Ha Hb Hla Hlb. unfold lag_sums, lag_sums_Z.
  induction (Z.to_nat overlap) as [|n IH] eqn:Hn in overlap, Ha, Hb |- *.
  - rewrite !for_loop_nil by lia. cbn. repeat f_equal; lra.
  - rewrite !for_loop_S by lia.
    rewrite (IH (Z.of_nat n)) by lia. clear IH.
    destruct (for_loop 0 n _ (0%Z, 0%Z, 0%Z)) as [[sab sa2] sb2].
    cbv zeta.
    rewrite !size_t_small by lia.
    rewrite !IZR_lookup by lia.
    rewrite !plus_IZR, !mult_IZR, !minus_IZR. reflexivity.
Qed.

End IntegerSamples.

Section Decondition.
Local Open Scope R_scope.

(** Inside the window the Hann weight is positive. *)
Lemma hann_weight_pos (i : nat) (frames : Z) :
  (0 < i)%nat -> (Z.of_nat i < frames - 1)%Z -> 0 < hann_weight i frames.
Proof.
  intros Hi Hf. unfold hann_weight.
  replace 2.0 with 2 by lra. replace 1.0 with 1 by lra.
  assert (Hi0 : 0 < INR i) by (apply lt_0_INR; exact Hi).
  assert (Hif : INR i < IZR frames - 1).
  { rewrite INR_IZR_INZ, <- minus_IZR. apply IZR_lt. exact Hf. }
  set (y := PI * INR i / (IZR frames - 1)).
  replace (2 * PI * INR i / (IZR frames - 1)) with (2 * y)
    by (unfold y; field; lra).
  assert (Hy : 0 < y < PI).
  { unfold y. pose proof PI_RGT_0 as Hpi. split.
    - apply Rdiv_lt_0_compat; nra.
    - apply Rmult_lt_reg_r with (IZR frames - 1); [lra|].
      unfold Rdiv. rewrite Rmult_assoc, Rinv_l by lra. nra. }
  rewrite cos_2a_sin.
  pose proof (sin_gt_0 y (proj1 Hy) (proj2 Hy)) as Hs. nra.
Qed.

Lemma length_decondition_from (frames : Z) (c : list R) :
  forall (i : nat) (prev : R),
  length (decondition_from frames i prev c) = length c.
Proof.
  induction c as [|y c IH]; intros i prev; [reflexivity|].
  cbn. rewrite IH. reflexivity.
Qed.

(** Each raw sample is the conditioned one with the weight divided out,
    plus 0.95 times the raw sample before it. *)
Lemma decondition_from_lookup (frames : Z) (c : list R) :
  forall (i : nat) (prev : R) (k : nat),
  (k < length c)%nat ->
  decondition_from frames i prev c !!! k
  = c !!! k / hann_weight (i + k) frames
    + PRE_EMPHASIS_ALPHA
      * match k with
        | O => prev
        | S k' => decondition_from frames i prev c !!! k'
        end.
Proof.
  induction c as [|y c IH]; intros i prev k Hk; [cbn in Hk; lia|].
  destruct k as [|k].
  - cbn. rewrite Nat.add_0_r. reflexivity.
  - cbn [decondition_from]. cbn [length] in Hk.
    change ((?x :: ?l) !!! S k) with (l !!! k).
    rewrite IH by lia. rewrite Nat.add_succ_r. cbn [Nat.add].
    destruct k as [|k']; reflexivity.
Qed.

(** Every array that vanishes where the window does is the conditioned
    form of its [decondition]. *)
Lemma condition_decondition (c : list R) :
  (2 <= length c)%nat ->
  c !!! 0%nat = 0 -> c !!! (length c - 1)%nat = 0 ->
  apply_hann_window
    (apply_pre_emphasis (decondition c) (Z.of_nat (length c)))
    (Z.of_nat (length c))
  = c.
Proof.
  intros Hlen H0 Hlast. set (N := Z.of_nat (length c)).
  assert (Hld : length (decondition c) = length c)
    by apply length_decondition_from.
  assert (Hlp : length (apply_pre_emphasis (decondition c) N) = length c).
  { rewrite apply_pre_emphasis_length; [exact Hld|]. unfold N. lia. }
  apply list_eq_total.
  - rewrite apply_hann_window_length; [exact Hlp|]. rewrite Hlp. unfold N. lia.
  - intros k Hk.
    rewrite apply_hann_window_length in Hk by (rewrite Hlp; unfold N; lia).
    rewrite Hlp in Hk.
    rewrite apply_hann_window_lookup by (rewrite Hlp; unfold N; lia).
    destruct (Nat.ltb_spec k (Z.to_nat N)) as [_|Hge]; [|unfold N in Hge; lia].
    rewrite apply_pre_emphasis_lookup by (rewrite Hld; unfold N; lia).
    assert (Hpre :
      (if ((1 <=? k)%nat && (k <? Z.to_nat N)%nat)
       then decondition c !!! k
            - PRE_EMPHASIS_ALPHA * decondition c !!! (k - 1)%nat
       else decondition c !!! k)
      = c !!! k / hann_weight k N).
    { unfold decondition at 1 2 3. fold N.
      destruct k as [|k].
      - cbn [Nat.leb andb]. rewrite decondition_from_lookup by lia.
        cbn [Nat.add]. unfold Rdiv. ring.
      - destruct (Nat.leb_spec 1 (S k)); [|lia].
        destruct (Nat.ltb_spec (S k) (Z.to_nat N)); [|unfold N in *; lia].
        cbn [andb]. rewrite (decondition_from_lookup N c 0 0 (S k)) by lia.
        cbn [Nat.add]. replace (S k - 1)%nat with k by lia.
        unfold Rdiv. ring. }
    rewrite Hpre.
    destruct (Nat.eq_dec k 0%nat) as [->|Hk0].
    { rewrite H0, hann_weight_0. unfold Rdiv. ring. }
    destruct (Nat.eq_dec k (length c - 1)%nat) as [->|Hk1].
    { rewrite Hlast. unfold Rdiv. rewrite !Rmult_0_l. reflexivity. }
    pose proof (hann_weight_pos k N ltac:(lia) ltac:(unfold N; lia)) as Hw.
    field. lra.
Qed.

End Decondition.

Section ThresholdArrays.
Local Open Scope R_scope.

Lemma threshold_lengths :
  length threshold_ref = 1024%nat /\ length threshold_tgt = 1024%nat.
Proof.
  unfold threshold_ref, threshold_tgt. rewrite !length_fmap.
  split; reflexivity.
Qed.

Lemma threshold_ends :
  threshold_ref !!! 0%nat = 0 /\ threshold_ref !!! 1023%nat = 0 /\
  threshold_tgt !!! 0%nat = 0 /\ threshold_tgt !!! 1023%nat = 0.
Proof.
  unfold threshold_ref, threshold_tgt.
  rewrite !IZR_lookup by (vm_compute; lia).
  repeat split; apply (f_equal IZR); vm_compute; reflexivity.
Qed.

Lemma threshold_means :
  snapshot_means threshold_ref threshold_tgt 1024 = (0, 0).
Proof.
  unfold threshold_ref, threshold_tgt.
  rewrite snapshot_means_IZR by (vm_compute; discriminate).
  replace (sums_Z threshold_ref_Z threshold_tgt_Z 1024) with (0%Z, 0%Z)
    by (vm_compute; reflexivity).
  cbn [fst snd]. f_equal; lra.
Qed.

(** At lag 0 the two arrays correlate with coefficient 3/5 exactly: the
    sums are 3060, 1020 and 25500, and 1020 * 25500 is the square of
    5100. *)
Lemma threshold_lag_corr_0 :
  lag_corr threshold_ref threshold_tgt 0 0 1024 0 = Some 0.6.
Proof.
  unfold lag_corr, lag_sums_at.
  change (lag_overlap 1024 0) with 1024%Z.
  change (1024 <? 1024)%Z with false. cbv iota zeta.
  change (0 >=? 0)%Z with true. change (Z.abs 0) with 0%Z. cbv iota.
  unfold threshold_ref, threshold_tgt.
  rewrite (lag_sums_IZR threshold_ref_Z threshold_tgt_Z 0 0 0 0 1024)
    by (vm_compute; first [discriminate | reflexivity]).
  replace (lag_sums_Z threshold_ref_Z threshold_tgt_Z 0 0 0 0 1024)
    with (3060%Z, 1020%Z, 25500%Z) by (vm_compute; reflexivity).
  cbv iota beta.
  replace (1020 * 25500) with (5100 * 5100) by lra.
  rewrite sqrt_square by lra.
  destruct (Rlt_dec 5100 1e-8) as [Hd|_]; [lra|].
  f_equal. lra.
Qed.

(** Every other lag leaves fewer than 1024 frames of overlap. *)
Lemma threshold_lag_corr_other (lag : Z) :
  (lag <> 0)%Z -> (-512 <= lag <= 512)%Z ->
  lag_corr threshold_ref threshold_tgt 0 0 1024 lag = None.
Proof.
  intros Hne Hr. unfold lag_corr.
  rewrite lag_overlap_small by (unfold INT_HALF; lia).
  destruct (Z.ltb_spec (1024 - Z.abs lag) 1024) as [_|Hge]; [reflexivity|lia].
Qed.

(** The search keeps lag 0 with its correlation of 3/5. *)
Lemma threshold_best :
  let '(best_corr, best_lag, _) :=
    find_best_lag threshold_ref threshold_tgt 1024
      (clamp_max_lag 500 48000 1024) in
  best_corr = 0.6 /\ best_lag = 0%Z.
Proof.
  change (clamp_max_lag 500 48000 1024) with 512%Z.
  pose proof (find_best_lag_scan threshold_ref threshold_tgt 1024 512)
    as Hscan.
  rewrite threshold_means in Hscan. cbn [fst snd] in Hscan.
  destruct (find_best_lag threshold_ref threshold_tgt 1024 512)
    as [[best_corr best_lag] n].
  destruct Hscan as [Hmax Hfirst].
  pose proof (Hmax 0%Z 0.6 ltac:(lia) threshold_lag_corr_0) as Hge.
  destruct Hfirst as [[Hb _]|(Hr & Hb & _ & _)]; [lra|].
  destruct (Z.eq_dec best_lag 0%Z) as [->|Hne].
  - rewrite threshold_lag_corr_0 in Hb. injection Hb as <-.
    split; reflexivity.
  - rewrite threshold_lag_corr_other in Hb by lia. discriminate.
Qed.

Lemma threshold_estimate :
  estimate_from_snapshot 500 48000 threshold_ref threshold_tgt 1024 = None.
Proof.
  unfold estimate_from_snapshot. cbv zeta.
  pose proof threshold_best as Hb.
  destruct (find_best_lag _ _ _ _) as [[best_corr best_lag] n].
  destruct Hb as [-> ->].
  destruct (Rlt_dec 0.6 MIN_CORR_THRESHOLD) as [_|Hn]; [reflexivity|].
  exfalso. apply Hn. unfold MIN_CORR_THRESHOLD. lra.
Qed.

End ThresholdArrays.

(** A full ring whose cursor is at 0 reads back as its buffer. *)
Lemma full_ring_contents (buffer : list R) (n : Z) :
  ring_ok buffer n 0 n ->
  last_n n (ring_contents buffer n 0 n) = buffer.
Proof.
  intros Hok. pose proof Hok as (Hn & Hsz & Hlen & _ & _).
  pose proof (ring_ok_holds_contents _ _ _ _ Hok) as Hh.
  rewrite <- (ring_holds_read _ _ _ _ _ n Hh) by lia.
  apply list_eq_total.
  - rewrite ring_read_length. lia.
  - intros i Hi. rewrite ring_read_length in Hi.
    rewrite ring_read_lookup by exact Hi.
    f_equal. rewrite recent_start_eq by lia.
    replace (0 - n) with (- (1) * n) by lia.
    rewrite Z.mod_mul by lia.
    rewrite size_t_small by (unfold SIZE_MODULUS in *; lia).
    rewrite Z.mod_small by lia. lia.
Qed.

(** The rings of [dm_threshold] condition to the two arrays. *)
Lemma threshold_copy_recent :
  copy_recent dm_threshold true
  = Some (threshold_ref, threshold_tgt, 1024).
Proof.
  destruct threshold_lengths as [Hlr Hlt].
  destruct threshold_ends as (Hr0 & Hr1 & Ht0 & Ht1).
  assert (Hdr : length (decondition threshold_ref) = 1024%nat)
    by (unfold decondition; rewrite length_decondition_from; exact Hlr).
  assert (Hdt : length (decondition threshold_tgt) = 1024%nat)
    by (unfold decondition; rewrite length_decondition_from; exact Hlt).
  assert (Hokr : ring_ok (decondition threshold_ref) 1024 0 1024).
  { unfold ring_ok, SIZE_MODULUS. rewrite Hdr. lia. }
  assert (Hokt : ring_ok (decondition threshold_tgt) 1024 0 1024).
  { unfold ring_ok, SIZE_MODULUS. rewrite Hdt. lia. }
  pose proof (copy_recent_conditioned dm_threshold _ _
                (ring_ok_holds_contents _ _ _ _ Hokr)
                (ring_ok_holds_contents _ _ _ _ Hokt)) as Hcopy.
  assert (Hframes : snapshot_frames dm_threshold = 1024) by reflexivity.
  rewrite Hframes in Hcopy. specialize (Hcopy ltac:(lia)).
  change (ref_buffer dm_threshold) with (decondition threshold_ref) in Hcopy.
  change (tgt_buffer dm_threshold) with (decondition threshold_tgt) in Hcopy.
  change (capacity dm_threshold) with 1024 in Hcopy.
  change (ref_pos dm_threshold) with 0 in Hcopy.
  change (tgt_pos dm_threshold) with 0 in Hcopy.
  change (ref_count dm_threshold) with 1024 in Hcopy.
  change (tgt_count dm_threshold) with 1024 in Hcopy.
  rewrite !full_ring_contents in Hcopy by assumption.
  pose proof (condition_decondition threshold_ref) as Hcr.
  pose proof (condition_decondition threshold_tgt) as Hct.
  rewrite Hlr in Hcr. rewrite Hlt in Hct.
  change (Z.of_nat 1024) with 1024 in Hcr, Hct.
  change (1024 - 1)%nat with 1023%nat in Hcr, Hct.
  rewrite Hcr, Hct in Hcopy by (first [lia | assumption]).
  exact Hcopy.
Qed.

(** C1, as stated, fails. The rings of [dm_threshold] condition to two
    arrays whose best correlation is exactly 0.6, reached at lag 0, the
    only lag with 1024 frames of overlap. 0.6 is at least 0.6, but it is
    below the constant [0.6f] the code compares with: the measurement
    returns false, leaves the result invalid and stores the low-confidence
    text. On the two arrays themselves every value of the loop is an
    integer: the source computes the same sums 3060, 1020 and 25500 and the
    same square root 5100 without rounding, and as their quotient the double
    nearest to 0.6, which its comparison with [0.6f] rejects as well. *)
Lemma measure_rejects_correlation_0_6 :
  copy_recent dm_threshold true = Some (threshold_ref, threshold_tgt, 1024) /\
  lag_corr threshold_ref threshold_tgt
    (snapshot_means threshold_ref threshold_tgt 1024).1
    (snapshot_means threshold_ref threshold_tgt 1024).2 1024 0
  = Some 0.6%R /\
  estimate_from_snapshot 500 48000 threshold_ref threshold_tgt 1024 = None /\
  let max_lag :=
    clamp_max_lag (max_lag_ms dm_threshold) (sample_rate dm_threshold) 1024 in
  let '(best_corr, best_lag, _) :=
    find_best_lag threshold_ref threshold_tgt 1024 max_lag in
  let '(ok, dm') := perform_measure dm_threshold 0 true in
  best_corr = 0.6%R /\ best_lag = 0 /\
  (0.6 <= best_corr)%R /\
  ok = false /\ last_delay_valid dm' = false /\
  last_delay_text dm'
  = Some (Lit "Insufficient correlation - check audio levels and similarity") /\
  ~ (ok = true <-> (0.6 <= best_corr)%R).
Proof.
  split; [exact threshold_copy_recent|].
  split; [rewrite threshold_means; exact threshold_lag_corr_0|].
  split; [exact threshold_estimate|].
  cbv zeta.
  change (max_lag_ms dm_threshold) with 500.
  change (sample_rate dm_threshold) with 48000.
  pose proof threshold_best as Hb.
  destruct (find_best_lag _ _ _ _) as [[best_corr best_lag] n].
  destruct Hb as [-> ->].
  unfold perform_measure, estimate_delay.
  change (target dm_threshold) with (Some 1%nat).
  change (ref_count dm_threshold >=? 1024) with true.
  change (tgt_count dm_threshold >=? 1024) with true.
  cbn [andb negb].
  rewrite threshold_copy_recent.
  change (max_lag_ms dm_threshold) with 500.
  change (sample_rate dm_threshold) with 48000.
  rewrite threshold_estimate.
  split; [reflexivity|]. split; [reflexivity|]. split; [lra|].
  split; [reflexivity|]. split; [reflexivity|]. split; [reflexivity|].
  intros [_ H]. specialize (H ltac:(lra)). discriminate.
Qed.

(** * Further properties of the code *)

(** ** [next_power_of_2] *)

Lemma shiftl_pow2 (k : nat) :
  (k < 63)%nat ->
  size_t (Z.shiftl (2 ^ Z.of_nat k) 1) = 2 ^ Z.of_nat (S k).
Proof.
  intros Hk. rewrite Z.shiftl_mul_pow2 by lia.
  rewrite Nat2Z.inj_succ, Z.pow_succ_r by lia.
  assert (H63 : 2 ^ Z.of_nat k <= 2 ^ 62) by (apply Z.pow_le_mono_r; lia).
  assert (Hpos : 0 < 2 ^ Z.of_nat k) by (apply Z.pow_pos_nonneg; lia).
  change (2 ^ 62) with 4611686018427387904 in H63. change (2 ^ 1) with 2.
  rewrite size_t_small by (unfold SIZE_MODULUS; lia). lia.
Qed.

Lemma next_power_of_2_loop_spec (n : Z) :
  0 <= n <= 2 ^ 63 ->
  forall (m k fuel : nat),
    (k + m = 63)%nat -> (m <= fuel)%nat ->
    (k = 0%nat \/ 2 ^ (Z.of_nat k - 1) < n) ->
    exists j : nat,
      (j <= 63)%nat /\
      next_power_of_2_loop fuel n (2 ^ Z.of_nat k) = Some (2 ^ Z.of_nat j) /\
      n <= 2 ^ Z.of_nat j /\
      (j = 0%nat \/ 2 ^ (Z.of_nat j - 1) < n).
Proof.
  intros Hn. induction m as [|m IH]; intros k fuel Hk Hfuel Hlow.
  - assert (k = 63%nat) by lia. subst k. exists 63%nat.
    change (Z.of_nat 63) with 63 in *.
    assert (Hr : next_power_of_2_loop fuel n (2 ^ 63) = Some (2 ^ 63)).
    { destruct fuel; cbn [next_power_of_2_loop];
        (destruct (Z.ltb_spec (2 ^ 63) n); [lia|reflexivity]). }
    split; [lia|]. split; [exact Hr|]. split; [lia|exact Hlow].
  - destruct fuel as [|fuel]; [lia|]. cbn [next_power_of_2_loop].
    destruct (Z.ltb_spec (2 ^ Z.of_nat k) n) as [Hlt|Hge].
    + rewrite shiftl_pow2 by lia.
      apply (IH (S k) fuel); [lia|lia|]. right.
      replace (Z.of_nat (S k) - 1) with (Z.of_nat k) by lia. exact Hlt.
    + exists k. split; [lia|]. split; [reflexivity|]. split; [lia|exact Hlow].
Qed.

(** X1. For every [n] up to [2^63], [next_power_of_2] ends within 63
    iterations and returns the least power of two that is at least [n]
    (1 for [n = 0] and [n = 1]). *)
Theorem next_power_of_2_least (n : Z) (fuel : nat) :
  0 <= n <= 2 ^ 63 -> (63 <= fuel)%nat ->
  exists k, 0 <= k <= 63 /\
    next_power_of_2 fuel n = Some (2 ^ k) /\
    n <= 2 ^ k /\ (0 < k -> 2 ^ (k - 1) < n).
Proof.
  intros Hn Hfuel.
  destruct (next_power_of_2_loop_spec n Hn 63 0 fuel) as (j & Hj & Hr & Hle & Hl);
    [lia|lia|left; reflexivity|].
  exists (Z.of_nat j). split; [lia|]. split; [exact Hr|]. split; [exact Hle|].
  intros Hpos. destruct Hl as [->|Hl]; [lia|exact Hl].
Qed.

Lemma next_power_of_2_least_witness :
  exists k, 0 <= k <= 63 /\
    next_power_of_2 63 240000 = Some (2 ^ k) /\
    240000 <= 2 ^ k /\ (0 < k -> 2 ^ (k - 1) < 240000).
Proof.
  apply (next_power_of_2_least 240000 63).
  - change (2 ^ 63) with 9223372036854775808. lia.
  - lia.
Defined.

(** X2. For an [n] above [2^63] the loop of [next_power_of_2] never ends:
    the shifted value passes [2^63], wraps to zero and stays below [n],
    whatever the number of iterations allowed. *)
Theorem next_power_of_2_wraps (n : Z) (fuel : nat) :
  2 ^ 63 < n -> next_power_of_2 fuel n = None.
Proof.
  intros Hn. unfold next_power_of_2.
  assert (Hall : forall f p,
            (p = 0 \/ exists k : nat, (k <= 63)%nat /\ p = 2 ^ Z.of_nat k) ->
            next_power_of_2_loop f n p = None).
  { induction f as [|f IH]; intros p Hp.
    - cbn. destruct (Z.ltb_spec p n) as [|Hge]; [reflexivity|].
      destruct Hp as [->|(k & Hk & ->)]; [lia|].
      assert (2 ^ Z.of_nat k <= 2 ^ 63) by (apply Z.pow_le_mono_r; lia). lia.
    - cbn [next_power_of_2_loop].
      destruct (Z.ltb_spec p n) as [_|Hge].
      + apply IH. destruct Hp as [->|(k & Hk & ->)].
        * left. reflexivity.
        * destruct (Nat.eq_dec k 63%nat) as [->|Hne].
          -- left. reflexivity.
          -- right. exists (S k). split; [lia|]. apply shiftl_pow2. lia.
      + destruct Hp as [->|(k & Hk & ->)]; [lia|].
        assert (2 ^ Z.of_nat k <= 2 ^ 63) by (apply Z.pow_le_mono_r; lia).
        lia. }
  apply Hall. right. exists 0%nat. split; [lia|reflexivity].
Qed.

Lemma next_power_of_2_wraps_witness :
  next_power_of_2 1000 (2 ^ 63 + 1) = None.
Proof.
  apply (next_power_of_2_wraps (2 ^ 63 + 1) 1000).
  change (2 ^ 63) with 9223372036854775808. lia.
Defined.

Example next_power_of_2_run :
  next_power_of_2 63 0 = Some 1 /\ next_power_of_2 63 1 = Some 1 /\
  next_power_of_2 63 5 = Some 8 /\ next_power_of_2 63 1024 = Some 1024 /\
  next_power_of_2 63 240000 = Some 262144.
Proof. repeat split; reflexivity. Qed.

(** ** The cursor of a ring *)

(** X3. Writing a chunk into a well-formed ring advances the cursor by the
    length of the chunk modulo the capacity, keeps the size of the storage,
    and leaves every slot alone that lies further from the old cursor than
    the chunk is long. *)
Theorem ring_write_cursor {A : Type} `{!Inhabited A} (buffer : list A)
    (capacity pos count : Z) (src : list A) :
  ring_ok buffer capacity pos count ->
  let '(buffer', pos', count') :=
    write_chunk capacity (buffer, pos, count) src in
  pos' = (pos + Z.of_nat (length src)) mod capacity /\
  length buffer' = length buffer /\
  forall i : nat,
    Z.of_nat (length src) <= (Z.of_nat i - pos) mod capacity ->
    buffer' !!! i = buffer !!! i.
Proof.
  intros (Hcap & Hcap4 & Hlen & Hpos & Hcnt).
  unfold SIZE_MODULUS in Hcap4.
  cbn [write_chunk]. unfold ring_write. rewrite Nat2Z.id.
  assert (Hinv :
    (fun (k : nat) (st : list A * Z * Z) =>
       st.1.2 = (pos + Z.of_nat k) mod capacity /\
       length st.1.1 = length buffer /\
       forall i : nat,
         Z.of_nat k <= (Z.of_nat i - pos) mod capacity ->
         st.1.1 !!! i = buffer !!! i)
      (length src)
      (for_loop 0 (length src) (ring_write_step capacity src)
         (buffer, pos, count))).
  { apply for_loop_invariant.
    - lia.
    - cbn. rewrite Z.add_0_r, Z.mod_small by lia. auto.
    - intros k [[b p] c] Hk (Hp & Hl & Hel). cbn in Hp, Hl, Hel.
      cbn [ring_write_step fst snd].
      assert (Hpb : 0 <= p < capacity)
        by (rewrite Hp; apply Z.mod_pos_bound; lia).
      rewrite size_t_small by (unfold SIZE_MODULUS; lia).
      split; [|split].
      + rewrite Hp, Zplus_mod_idemp_l. f_equal. lia.
      + rewrite length_insert. exact Hl.
      + intros i Hi.
        assert (Hne : Z.to_nat p <> i).
        { intros <-. rewrite Z2Nat.id in Hi by lia.
          rewrite Hp in Hi. rewrite Zminus_mod_idemp_l in Hi.
          replace (pos + Z.of_nat k - pos) with (Z.of_nat k) in Hi by lia.
          pose proof (Z.mod_le (Z.of_nat k) capacity ltac:(lia) ltac:(lia)).
          lia. }
        rewrite list_lookup_total_insert_ne by exact Hne.
        apply Hel. lia. }
  destruct (for_loop _ _ _ _) as [[b p] c]. exact Hinv.
Qed.

Lemma ring_write_cursor_witness :
  let '(buffer', pos', count') :=
    write_chunk 4 ([5; 6; 3; 4], 2, 4) [7; 8; 9] in
  pos' = (2 + Z.of_nat (length [7; 8; 9])) mod 4 /\
  length buffer' = length [5; 6; 3; 4] /\
  forall i : nat,
    Z.of_nat (length [7; 8; 9]) <= (Z.of_nat i - 2) mod 4 ->
    buffer' !!! i = [5; 6; 3; 4] !!! i.
Proof.
  apply (ring_write_cursor [5; 6; 3; 4] 4 2 4 [7; 8; 9]).
  unfold ring_ok, SIZE_MODULUS. cbn. lia.
Defined.

Example ring_write_wraps_cursor :
  write_chunk 4 ([5; 6; 3; 4], 2, 4) [7; 8; 9] = ([9; 6; 7; 8], 1, 4).
Proof. reflexivity. Qed.

(** ** Target binding and configuration *)

(** X4. On an engine whose stored name is not the empty string (the engine
    never stores one), [connect_target] keeps it so, and afterwards a target
    is bound only under a stored name. A null or empty name unbinds: no
    target, no name. A non-empty name is
    stored, and the target is what the host finds under it, unless the
    engine was already bound under that very name, in which case nothing
    changes. The rings, the configuration and the stored result are never
    touched. *)
Theorem connect_target_binding (sources : string -> option obs_source)
    (dm : delay_meter_data) (name : option string) :
  target_name dm <> Some EmptyString ->
  let dm' := connect_target sources dm name in
  target_name dm' <> Some EmptyString /\
  (target dm' <> None -> target_name dm' <> None) /\
  (name = None \/ name = Some EmptyString ->
   target dm' = None /\ target_name dm' = None) /\
  (forall n, name = Some n -> n <> EmptyString ->
   target_name dm' = Some n /\
   (target dm' = sources n \/
    (dm' = dm /\ target dm <> None /\ target_name dm = Some n))) /\
  (ref_buffer dm' = ref_buffer dm /\ tgt_buffer dm' = tgt_buffer dm /\
   capacity dm' = capacity dm /\
   ref_pos dm' = ref_pos dm /\ tgt_pos dm' = tgt_pos dm /\
   ref_count dm' = ref_count dm /\ tgt_count dm' = tgt_count dm /\
   sample_rate dm' = sample_rate dm /\ window_ms dm' = window_ms dm /\
   max_lag_ms dm' = max_lag_ms dm /\ debug_enabled dm' = debug_enabled dm /\
   last_delay_text dm' = last_delay_text dm /\
   last_notes dm' = last_notes dm /\
   last_delay_ms dm' = last_delay_ms dm /\
   last_delay_valid dm' = last_delay_valid dm).
Proof.
  destruct dm as [ctx tg tn rb tb cap rp tp rc tc sr fmt w l d ldt ltt ln ldm lc up lv].
  unfold connect_target.
  cbn [target target_name]. intros Hwf.
  destruct tg as [t|], tn as [tn|], name as [n|]; cbn;
    try destruct (String.eqb_spec tn n) as [Heq|Hneq]; cbn;
    try destruct (String.eqb_spec n EmptyString) as [He|Hne]; cbn;
    try destruct (sources n) as [s|] eqn:Hs; cbn;
    repeat split; try discriminate; try congruence; intros;
    repeat match goal with
           | H : _ \/ _ |- _ => destruct H
           | H : Some _ = Some _ |- _ => injection H as H
           end;
    subst; try congruence; try discriminate; auto;
    try (split; [reflexivity|]); try (left; congruence);
    try (right; repeat split; congruence).
Qed.

Lemma connect_target_binding_witness :
  target_name dm_idle <> Some EmptyString /\
  let dm' := connect_target (fun _ => Some 7%nat) dm_idle (Some "Mic"%string) in
  target_name dm' <> Some EmptyString /\
  (target dm' <> None -> target_name dm' <> None) /\
  (Some "Mic"%string = None \/ Some "Mic"%string = Some EmptyString ->
   target dm' = None /\ target_name dm' = None) /\
  (forall n, Some "Mic"%string = Some n -> n <> EmptyString ->
   target_name dm' = Some n /\
   (target dm' = (fun _ => Some 7%nat) n \/
    (dm' = dm_idle /\ target dm_idle <> None /\ target_name dm_idle = Some n))) /\
  (ref_buffer dm' = ref_buffer dm_idle /\ tgt_buffer dm' = tgt_buffer dm_idle /\
   capacity dm' = capacity dm_idle /\
   ref_pos dm' = ref_pos dm_idle /\ tgt_pos dm' = tgt_pos dm_idle /\
   ref_count dm' = ref_count dm_idle /\ tgt_count dm' = tgt_count dm_idle /\
   sample_rate dm' = sample_rate dm_idle /\ window_ms dm' = window_ms dm_idle /\
   max_lag_ms dm' = max_lag_ms dm_idle /\
   debug_enabled dm' = debug_enabled dm_idle /\
   last_delay_text dm' = last_delay_text dm_idle /\
   last_notes dm' = last_notes dm_idle /\
   last_delay_ms dm' = last_delay_ms dm_idle /\
   last_delay_valid dm' = last_delay_valid dm_idle).
Proof.
  split; [discriminate|].
  apply (connect_target_binding (fun _ => Some 7%nat) dm_idle (Some "Mic"%string)).
  discriminate.
Defined.

(** X5. [connect_target] is idempotent: connecting a second time under the
    name just given changes nothing, whether the host knows the source or
    not; and an update with the settings just applied changes nothing
    either. *)
Theorem connect_target_idempotent (sources : string -> option obs_source)
    (dm : delay_meter_data) (name : option string) (settings : obs_data) :
  connect_target sources (connect_target sources dm name) name
  = connect_target sources dm name /\
  delay_meter_update sources (delay_meter_update sources dm settings) settings
  = delay_meter_update sources dm settings.
Proof.
  assert (Hc : forall dm name,
    connect_target sources (connect_target sources dm name) name
    = connect_target sources dm name).
  { clear. intros dm name.
    destruct dm as [ctx tg tn rb tb cap rp tp rc tc sr fmt w l d ldt ltt ln ldm lc up lv].
    unfold connect_target. cbn [target target_name].
    destruct tg as [t|], tn as [tn|], name as [n|]; cbn;
      try destruct (String.eqb_spec tn n) as [Heq|Hneq]; cbn;
      try destruct (String.eqb_spec n EmptyString) as [He|Hne]; cbn;
      try destruct (sources n) as [s|] eqn:Hs; cbn;
      rewrite ?String.eqb_refl; cbn;
      try destruct (String.eqb n EmptyString); cbn;
      rewrite ?Hs; try reflexivity; try congruence;
      try (destruct (String.eqb_spec tn n); try congruence; reflexivity). }
  split; [apply Hc|].
  unfold delay_meter_update.
  set (w := uint32_t _). set (l := uint32_t _). set (d := obs_data_get_bool _ _).
  set (name' := obs_data_get_string _ _).
  assert (Hw : forall dm0,
    with_config w l d (connect_target sources (with_config w l d dm0) name')
    = connect_target sources (with_config w l d dm0) name').
  { clear. intros dm0.
    destruct dm0 as [ctx tg tn rb tb cap rp tp rc tc sr fmt w0 l0 d0 ldt ltt ln ldm lc up lv].
    unfold connect_target, with_config. cbn [target target_name].
    destruct tg as [t|], tn as [tn|], name' as [n|]; cbn;
      try destruct (String.eqb tn n); cbn;
      try destruct (String.eqb n EmptyString); cbn;
      try destruct (sources n) as [s|]; cbn; reflexivity. }
  rewrite Hw. apply Hc.
Qed.

(** ** Bounds on the correlation and on the measured delay *)

Section CorrelationBounds.
Local Open Scope R_scope.

(** One more term keeps the Cauchy-Schwarz inequality between the three
    running sums. *)
Lemma cauchy_schwarz_step (ab a2 b2 x y : R) :
  0 <= a2 -> 0 <= b2 -> ab * ab <= a2 * b2 ->
  (ab + x * y) * (ab + x * y) <= (a2 + x * x) * (b2 + y * y).
Proof.
  intros Ha Hb Hab.
  set (u := 2 * ab * (x * y)). set (v := a2 * (y * y) + b2 * (x * x)).
  assert (Hv : 0 <= v).
  { unfold v. pose proof (Rle_0_sqr x) as Hx. pose proof (Rle_0_sqr y) as Hy.
    unfold Rsqr in Hx, Hy. nra. }
  assert (Huv : u * u <= v * v).
  { unfold u, v.
    pose proof (Rle_0_sqr (a2 * (y * y) - b2 * (x * x))) as Hd.
    pose proof (Rle_0_sqr (x * y)) as Hxy. unfold Rsqr in Hd, Hxy.
    assert (H4 : ab * ab * ((x * y) * (x * y)) <= a2 * b2 * ((x * y) * (x * y))).
    { apply Rmult_le_compat_r; assumption. }
    nra. }
  assert (Hle : u <= v).
  { destruct (Rle_dec u v) as [H|H]; [exact H|]. nra. }
  unfold u, v in Hle. nra.
Qed.

(** The sums of the inner loop: both sums of squares are non-negative and
    the squared cross sum is at most their product. *)
Lemma lag_sums_cauchy_schwarz (ref tgt : list R) (ref_mean tgt_mean : R)
    (start_a start_b overlap : Z) :
  let '(sum_ab, sum_a2, sum_b2) :=
    lag_sums ref tgt ref_mean tgt_mean start_a start_b overlap in
  0 <= sum_a2 /\ 0 <= sum_b2 /\ sum_ab * sum_ab <= sum_a2 * sum_b2.
Proof.
  unfold lag_sums.
  assert (Hinv :
    (fun (k : nat) (st : R * R * R) =>
       0 <= st.1.2 /\ 0 <= st.2 /\ st.1.1 * st.1.1 <= st.1.2 * st.2)
      (Z.to_nat overlap)
      (for_loop 0 (Z.to_nat overlap)
         (fun i '(sum_ab, sum_a2, sum_b2) =>
            let da := ref !!! Z.to_nat (size_t (start_a + Z.of_nat i)) - ref_mean in
            let db := tgt !!! Z.to_nat (size_t (start_b + Z.of_nat i)) - tgt_mean in
            (sum_ab + da * db, sum_a2 + da * da, sum_b2 + db * db))
         (0.0, 0.0, 0.0))).
  { apply for_loop_invariant.
    - lia.
    - cbn. repeat split; lra.
    - intros k [[sab sa2] sb2] _ (H1 & H2 & H3). cbn in H1, H2, H3.
      cbn [fst snd].
      set (da := _ - ref_mean). set (db := _ - tgt_mean).
      pose proof (Rle_0_sqr da) as Hda. pose proof (Rle_0_sqr db) as Hdb.
      unfold Rsqr in Hda, Hdb.
      split; [lra|]. split; [lra|].
      apply cauchy_schwarz_step; assumption. }
  destruct (for_loop _ _ _ _) as [[sab sa2] sb2]. exact Hinv.
Qed.

(** A correlation the lag loop evaluates is a correlation coefficient. *)
Lemma lag_corr_bounded (ref tgt : list R) (ref_mean tgt_mean : R)
    (frames lag : Z) (c : R) :
  lag_corr ref tgt ref_mean tgt_mean frames lag = Some c -> -1 <= c <= 1.
Proof.
  unfold lag_corr, lag_sums_at.
  destruct (lag_overlap frames lag <? 1024)%Z; [discriminate|].
  pose proof (lag_sums_cauchy_schwarz ref tgt ref_mean tgt_mean
                (if (lag >=? 0)%Z then 0%Z else Z.abs lag)
                (if (lag >=? 0)%Z then Z.abs lag else 0%Z)
                (lag_overlap frames lag)) as Hcs.
  cbv zeta.
  destruct (lag_sums _ _ _ _ _ _ _) as [[sab sa2] sb2].
  destruct Hcs as (Ha & Hb & Hab).
  destruct (Rlt_dec (sqrt (sa2 * sb2)) 1e-8) as [Hd|Hd]; [discriminate|].
  intros [= <-].
  set (d := sqrt (sa2 * sb2)) in *.
  assert (Hd0 : 0 < d) by lra.
  assert (Hdd : d * d = sa2 * sb2).
  { unfold d. apply sqrt_sqrt. apply Rmult_le_pos; assumption. }
  assert (Hbound : - d <= sab <= d).
  { split.
    - destruct (Rle_dec (- d) sab) as [H|H]; [exact H|]. nra.
    - destruct (Rle_dec sab d) as [H|H]; [exact H|]. nra. }
  split.
  - apply Rmult_le_reg_r with d; [exact Hd0|].
    unfold Rdiv. rewrite Rmult_assoc, Rinv_l by lra. lra.
  - apply Rmult_le_reg_r with d; [exact Hd0|].
    unfold Rdiv. rewrite Rmult_assoc, Rinv_l by lra. lra.
Qed.

End CorrelationBounds.

(** X6. Every correlation the lag loop evaluates lies between -1 and 1: the
    squared cross sum of the deviations is at most the product of the two
    sums of squares (Cauchy-Schwarz), whatever the arrays, the means and
    the lag. *)
Theorem lag_corr_is_coefficient (ref tgt : list R) (ref_mean tgt_mean : R)
    (frames lag : Z) :
  (let '(sum_ab, sum_a2, sum_b2) :=
     lag_sums_at ref tgt ref_mean tgt_mean frames lag in
   0 <= sum_a2 /\ 0 <= sum_b2 /\ sum_ab * sum_ab <= sum_a2 * sum_b2)%R /\
  match lag_corr ref tgt ref_mean tgt_mean frames lag with
  | Some c => (-1 <= c <= 1)%R
  | None => True
  end.
Proof.
  split.
  - unfold lag_sums_at. apply lag_sums_cauchy_schwarz.
  - destruct (lag_corr _ _ _ _ _ _) as [c|] eqn:Hc; [|exact I].
    apply (lag_corr_bounded _ _ _ _ _ _ _ Hc).
Qed.

(** The count of evaluated lags only grows along the scan, by at most one
    per lag, and a scan that leaves it unchanged leaves the whole state
    unchanged. *)
Lemma scan_count (ref tgt : list R) (ref_mean tgt_mean : R) (frames : Z)
    (lags : list Z) : forall st : R * Z * Z,
  let st' := fold_left (lag_step ref tgt ref_mean tgt_mean frames) lags st in
  st.2 <= st'.2 <= st.2 + Z.of_nat (length lags) /\
  (st'.2 = st.2 -> st' = st).
Proof.
  induction lags as [|lag lags IH]; intros st.
  - cbn. split; [lia|reflexivity].
  - cbn [fold_left length].
    specialize (IH (lag_step ref tgt ref_mean tgt_mean frames st lag)).
    cbv zeta in IH. destruct IH as [Hb Hsame].
    assert (Hstep :
      lag_step ref tgt ref_mean tgt_mean frames st lag = st \/
      (lag_step ref tgt ref_mean tgt_mean frames st lag).2 = st.2 + 1).
    { unfold lag_step. destruct st as [[b l] n].
      destruct (lag_corr _ _ _ _ _ _) as [c|]; [|left; reflexivity].
      right. destruct (Rgt_dec c b); reflexivity. }
    cbv zeta. destruct Hstep as [Hs|Hs].
    + rewrite Hs in *. split; [lia|exact Hsame].
    + split; [lia|]. intros Heq. lia.
Qed.

(** X7. What [find_best_lag] can return, for a lag bound above [INT_MIN]
    (so that the [-max_lag] the loop starts from is defined in [int]): a
    lag inside the range it scanned, a count of evaluated lags of at most
    the size of the range; when no lag was evaluated the initial
    [(-1.0, 0)] is returned, and a lag other than 0 is returned only if it
    was evaluated (its overlap is at least 1024 frames) with a correlation
    above -1. The best correlation is at least the initial -1; that it is at
    most 1 is Cauchy-Schwarz in the exact real arithmetic of the model,
    which the rounded double arithmetic of the source follows only up to
    its rounding error. *)
Theorem find_best_lag_bounds (ref tgt : list R) (frames max_lag : Z) :
  - INT_HALF < max_lag ->
  let '(best_corr, best_lag, lag_count) :=
    find_best_lag ref tgt frames max_lag in
  (-1 <= best_corr <= 1)%R /\
  Z.abs best_lag <= Z.max 0 max_lag /\
  0 <= lag_count <= Z.max 0 (2 * max_lag + 1) /\
  (lag_count = 0 -> best_corr = (-1.0)%R /\ best_lag = 0) /\
  (best_lag <> 0 ->
   1024 <= lag_overlap frames best_lag /\ (-1 < best_corr)%R).
Proof.
  intros _.
  pose proof (find_best_lag_scan ref tgt frames max_lag) as Hscan.
  assert (Hcount :
    0 <= (find_best_lag ref tgt frames max_lag).2
      <= Z.max 0 (2 * max_lag + 1) /\
    ((find_best_lag ref tgt frames max_lag).2 = 0 ->
     find_best_lag ref tgt frames max_lag = ((-1.0)%R, 0, 0))).
  { unfold find_best_lag.
    destruct (snapshot_means ref tgt frames) as [ref_mean tgt_mean].
    pose proof (scan_count ref tgt ref_mean tgt_mean frames
                  (lag_range max_lag) ((-1.0)%R, 0, 0)) as Hc.
    cbv zeta in Hc. cbn [snd] in Hc.
    assert (Hlen : length (lag_range max_lag) = Z.to_nat (2 * max_lag + 1))
      by (unfold lag_range; apply length_seqZ).
    rewrite Hlen in Hc. destruct Hc as [Hb Hsame].
    split; [lia|exact Hsame]. }
  destruct (find_best_lag ref tgt frames max_lag) as [[best_corr best_lag] n].
  cbn [snd] in Hcount. destruct Hcount as [Hn Hzero].
  destruct Hscan as [_ Hfirst].
  assert (Hcases :
    (best_corr = (-1.0)%R /\ best_lag = 0) \/
    (- max_lag <= best_lag <= max_lag /\
     (-1 < best_corr <= 1)%R /\ 1024 <= lag_overlap frames best_lag)).
  { destruct Hfirst as [Hinit|(Hr & Hb & Hpos & _)]; [left; exact Hinit|].
    right. split; [lia|].
    pose proof (lag_corr_bounded _ _ _ _ _ _ _ Hb) as Hcb.
    split; [lra|].
    unfold lag_corr in Hb.
    destruct (Z.ltb_spec (lag_overlap frames best_lag) 1024) as [Hlt|Hge];
      [discriminate|exact Hge]. }
  split; [|split; [|split; [exact Hn|split]]].
  - destruct Hcases as [[-> _]|(_ & Hc & _)]; lra.
  - destruct Hcases as [[_ ->]|(Hr & _)]; lia.
  - intros ->. specialize (Hzero eq_refl). injection Hzero as -> ->.
    split; reflexivity.
  - intros Hne. destruct Hcases as [[_ ->]|(_ & Hc & Ho)]; [congruence|].
    split; [exact Ho|lra].
Qed.

Lemma find_best_lag_bounds_witness :
  let '(best_corr, best_lag, lag_count) :=
    find_best_lag (alternating 1026) (alternating 1026) 1026 2 in
  (-1 <= best_corr <= 1)%R /\
  Z.abs best_lag <= Z.max 0 2 /\
  0 <= lag_count <= Z.max 0 (2 * 2 + 1) /\
  (lag_count = 0 -> best_corr = (-1.0)%R /\ best_lag = 0) /\
  (best_lag <> 0 ->
   1024 <= lag_overlap 1026 best_lag /\ (-1 < best_corr)%R).
Proof.
  apply (find_best_lag_bounds (alternating 1026) (alternating 1026) 1026 2).
  unfold INT_HALF. lia.
Defined.

(** The clamp never raises the lag bound. *)
Lemma clamp_max_lag_le_max (max_lag_ms sample_rate frames : Z) :
  clamp_max_lag max_lag_ms sample_rate frames
  <= int_cast (ms_to_samples max_lag_ms sample_rate).
Proof.
  unfold clamp_max_lag. cbv zeta.
  destruct (Z.gtb_spec (int_cast (ms_to_samples max_lag_ms sample_rate))
              (Z.quot (int_cast frames) 2)); lia.
Qed.

(** The cast to [int] never raises a non-negative value. *)
Lemma int_cast_le (z : Z) : 0 <= z -> int_cast z <= z.
Proof.
  intros Hz. unfold int_cast, INT_HALF, UINT32_MODULUS.
  pose proof (Z.mod_le (z + 2147483648) 4294967296 ltac:(lia) ltac:(lia)).
  lia.
Qed.

(** What a successful estimate returns: a correlation from the threshold
    to 1 and the delay of a lag of the clamped range that was evaluated. *)
Lemma estimate_Some_bounds (max_lag_ms sample_rate : Z) (ref tgt : list R)
    (frames : Z) (delay corr : R) :
  estimate_from_snapshot max_lag_ms sample_rate ref tgt frames
  = Some (delay, corr) ->
  (MIN_CORR_THRESHOLD <= corr <= 1)%R /\
  exists lag,
    delay = (IZR lag * 1000.0 / IZR sample_rate)%R /\
    Z.abs lag <= clamp_max_lag max_lag_ms sample_rate frames /\
    1024 <= lag_overlap frames lag.
Proof.
  unfold estimate_from_snapshot. cbv zeta.
  pose proof (find_best_lag_scan ref tgt frames
                (clamp_max_lag max_lag_ms sample_rate frames)) as Hscan.
  destruct (find_best_lag _ _ _ _) as [[best_corr best_lag] n].
  destruct (Rlt_dec best_corr MIN_CORR_THRESHOLD) as [Hlow|Hok];
    [discriminate|].
  intros [= <- <-].
  destruct Hscan as [_ [[Hb _]|(Hr & Hb & _ & _)]];
    [unfold MIN_CORR_THRESHOLD in Hok; lra|].
  pose proof (lag_corr_bounded _ _ _ _ _ _ _ Hb) as Hcb.
  split; [lra|]. exists best_lag. split; [reflexivity|]. split; [lia|].
  unfold lag_corr in Hb.
  destruct (Z.ltb_spec (lag_overlap frames best_lag) 1024) as [Hlt|Hge];
    [discriminate|exact Hge].
Qed.

(** X8. A measurement that succeeds (with a lag bound whose negation is
    defined in [int]) reports a correlation that is at least the threshold
    [0.6f] and stores the delay of an integer lag inside the configured
    search range: the magnitude of the lag is at most the rounded
    [max_lag_ms], [1000 * |lag| <= max_lag_ms * sample_rate + 500]. In the
    exact real arithmetic of the model the correlation is moreover at most
    1 and the delay is [lag * 1000 / sample_rate] itself, so that
    [|delay_ms| * sample_rate <= max_lag_ms * sample_rate + 500]; the
    double arithmetic of the source follows these two up to its rounding
    error only. *)
Theorem measured_delay_in_range (dm : delay_meter_data) (now : Z)
    (alloc_ok : bool) :
  0 <= max_lag_ms dm < UINT32_MODULUS ->
  0 < sample_rate dm < UINT32_MODULUS ->
  - INT_HALF < int_cast (ms_to_samples (max_lag_ms dm) (sample_rate dm)) ->
  (perform_measure dm now alloc_ok).1 = true ->
  let dm' := (perform_measure dm now alloc_ok).2 in
  exists lag corr,
    last_delay_ms dm' = (IZR lag * 1000.0 / IZR (sample_rate dm))%R /\
    last_delay_text dm' = Some (FmtDelay (last_delay_ms dm') corr) /\
    last_delay_valid dm' = true /\
    (MIN_CORR_THRESHOLD <= corr <= 1)%R /\
    1000 * Z.abs lag <= max_lag_ms dm * sample_rate dm + 500 /\
    (Rabs (last_delay_ms dm') * IZR (sample_rate dm)
     <= IZR (max_lag_ms dm * sample_rate dm + 500))%R.
Proof.
  intros Hms Hrate _. unfold perform_measure.
  destruct (target dm) as [t|]; [|cbn; discriminate].
  destruct (negb _); [cbn; discriminate|].
  destruct (estimate_delay dm alloc_ok) as [[delay corr]|] eqn:He;
    [|cbn; discriminate].
  intros _. cbn.
  unfold estimate_delay in He.
  destruct (copy_recent dm alloc_ok) as [[[ref tgt] frames]|]; [|discriminate].
  apply estimate_Some_bounds in He.
  destruct He as (Hc & lag & Hd & Hlag & _).
  assert (Hz : 1000 * Z.abs lag <= max_lag_ms dm * sample_rate dm + 500).
  { pose proof (clamp_max_lag_le_max (max_lag_ms dm) (sample_rate dm) frames).
    pose proof (ms_to_samples_eq (max_lag_ms dm) (sample_rate dm)
                  Hms ltac:(lia)) as Heq.
    assert (H0 : 0 <= ms_to_samples (max_lag_ms dm) (sample_rate dm)).
    { rewrite Heq. apply Z.div_pos; nia. }
    pose proof (int_cast_le _ H0).
    assert (Hle : Z.abs lag <= (max_lag_ms dm * sample_rate dm + 500) / 1000)
      by lia.
    pose proof (Z.mul_div_le (max_lag_ms dm * sample_rate dm + 500) 1000
                  ltac:(lia)).
    lia. }
  exists lag, corr. split; [exact Hd|]. split; [reflexivity|].
  split; [reflexivity|]. split; [exact Hc|]. split; [exact Hz|].
  assert (Hr : (0 < IZR (sample_rate dm))%R) by (apply IZR_lt; lia).
  rewrite Hd.
  replace (Rabs (IZR lag * 1000.0 / IZR (sample_rate dm))
           * IZR (sample_rate dm))%R
    with (IZR (1000 * Z.abs lag)).
  { apply IZR_le. exact Hz. }
  rewrite mult_IZR, abs_IZR.
  unfold Rdiv. rewrite !Rabs_mult.
  rewrite (Rabs_pos_eq 1000.0) by lra.
  rewrite (Rabs_pos_eq (/ IZR (sample_rate dm)))
    by (left; apply Rinv_0_lt_compat; exact Hr).
  replace 1000.0%R with 1000%R by lra. field. lra.
Qed.

Lemma measured_delay_in_range_witness :
  exists lag corr,
    last_delay_ms (perform_measure dm_click 0 true).2
    = (IZR lag * 1000.0 / IZR (sample_rate dm_click))%R /\
    last_delay_text (perform_measure dm_click 0 true).2
    = Some (FmtDelay (last_delay_ms (perform_measure dm_click 0 true).2) corr) /\
    last_delay_valid (perform_measure dm_click 0 true).2 = true /\
    (MIN_CORR_THRESHOLD <= corr <= 1)%R /\
    1000 * Z.abs lag <= max_lag_ms dm_click * sample_rate dm_click + 500 /\
    (Rabs (last_delay_ms (perform_measure dm_click 0 true).2)
     * IZR (sample_rate dm_click)
     <= IZR (max_lag_ms dm_click * sample_rate dm_click + 500))%R.
Proof.
  apply (measured_delay_in_range dm_click 0 true).
  - cbn. unfold UINT32_MODULUS. lia.
  - cbn. unfold UINT32_MODULUS. lia.
  - vm_compute. reflexivity.
  - pose proof click_measure_valid as H.
    destruct (perform_measure dm_click 0 true) as [ok dm']. apply H.
Defined.

(** X9. The lag bound is cast to [int] before the clamp. When the cast makes
    it negative, but not [INT_MIN], the lag loop runs from a positive
    [-max_lag] up to a negative [max_lag] and has no iteration: the best
    correlation stays at -1.0 and the measurement fails whatever the two
    rings hold. A maximum lag of 4294967295 ms (what a setting of -1
    becomes) at 48 kHz is such a case: 206158430160 samples, -48 as an
    [int]. At [INT_MIN] the negation overflows, the behaviour of the source
    is undefined, and nothing is stated. *)
Theorem negative_max_lag_never_measures (dm : delay_meter_data) (now : Z)
    (alloc_ok : bool) :
  - INT_HALF < int_cast (ms_to_samples (max_lag_ms dm) (sample_rate dm)) < 0 ->
  (forall frames,
     lag_range (clamp_max_lag (max_lag_ms dm) (sample_rate dm) frames) = []) /\
  estimate_delay dm alloc_ok = None /\
  (perform_measure dm now alloc_ok).1 = false /\
  last_delay_valid (perform_measure dm now alloc_ok).2 = false.
Proof.
  intros Hneg.
  assert (Hrange : forall frames,
    lag_range (clamp_max_lag (max_lag_ms dm) (sample_rate dm) frames) = []).
  { intros frames.
    pose proof (clamp_max_lag_le_max (max_lag_ms dm) (sample_rate dm) frames).
    unfold lag_range, seqZ.
    replace (Z.to_nat (2 * clamp_max_lag (max_lag_ms dm) (sample_rate dm) frames + 1))
      with 0%nat by lia.
    reflexivity. }
  assert (Hest : estimate_delay dm alloc_ok = None).
  { unfold estimate_delay.
    destruct (copy_recent dm alloc_ok) as [[[ref tgt] frames]|]; [|reflexivity].
    apply estimate_all_skipped. rewrite Hrange. intros lag []. }
  split; [exact Hrange|]. split; [exact Hest|].
  unfold perform_measure.
  destruct (target dm); [|split; reflexivity].
  destruct (negb _); [split; reflexivity|].
  rewrite Hest. split; reflexivity.
Qed.

Lemma negative_max_lag_never_measures_witness :
  let dm := delay_meter_update (fun _ => Some 1%nat) dm_click
              (mk_settings 1000 (-1) false (Some "Mic"%string)) in
  max_lag_ms dm = 4294967295 /\
  ms_to_samples (max_lag_ms dm) (sample_rate dm) = 206158430160 /\
  int_cast (ms_to_samples (max_lag_ms dm) (sample_rate dm)) = -48 /\
  (forall frames,
     lag_range (clamp_max_lag (max_lag_ms dm) (sample_rate dm) frames) = []) /\
  estimate_delay dm true = None /\
  (perform_measure dm 0 true).1 = false /\
  last_delay_valid (perform_measure dm 0 true).2 = false.
Proof.
  cbv zeta.
  split; [reflexivity|]. split; [reflexivity|]. split; [reflexivity|].
  apply (negative_max_lag_never_measures
           (delay_meter_update (fun _ => Some 1%nat) dm_click
              (mk_settings 1000 (-1) false (Some "Mic"%string))) 0 true).
  split; reflexivity.
Defined.

Section SwapSymmetry.
Local Open Scope R_scope.

(** The inner loop with the roles of the two arrays exchanged computes the
    same cross sum and exchanges the two sums of squares. *)
Lemma lag_sums_swap (ref tgt : list R) (ref_mean tgt_mean : R)
    (start_a start_b overlap : Z) :
  lag_sums tgt ref tgt_mean ref_mean start_b start_a overlap
  = let '(sum_ab, sum_a2, sum_b2) :=
      lag_sums ref tgt ref_mean tgt_mean start_a start_b overlap in
    (sum_ab, sum_b2, sum_a2).
Proof.
  unfold lag_sums. induction (Z.to_nat overlap) as [|n IH].
  - rewrite !for_loop_nil by lia. reflexivity.
  - rewrite !for_loop_S by lia. rewrite IH. clear IH.
    destruct (for_loop 0 n _ _) as [[sab sa2] sb2].
    cbv zeta. rewrite (Rmult_comm (tgt !!! _ - tgt_mean)). reflexivity.
Qed.

End SwapSymmetry.

(** X10. Exchanging the two snapshots mirrors the lags: the correlation of
    the target against the reference at lag [-lag] is the correlation of
    the reference against the target at [lag], evaluated or skipped alike. *)
Theorem lag_corr_swap (ref tgt : list R) (ref_mean tgt_mean : R)
    (frames lag : Z) :
  lag_corr tgt ref tgt_mean ref_mean frames (- lag)
  = lag_corr ref tgt ref_mean tgt_mean frames lag.
Proof.
  unfold lag_corr, lag_sums_at, lag_overlap.
  rewrite Z.abs_opp.
  destruct (size_t (frames - Z.abs lag) <? 1024); [reflexivity|].
  cbv zeta.
  assert (Hsums :
    lag_sums tgt ref tgt_mean ref_mean
      (if - lag >=? 0 then 0 else Z.abs lag)
      (if - lag >=? 0 then Z.abs lag else 0) (size_t (frames - Z.abs lag))
    = let '(sum_ab, sum_a2, sum_b2) :=
        lag_sums ref tgt ref_mean tgt_mean
          (if lag >=? 0 then 0 else Z.abs lag)
          (if lag >=? 0 then Z.abs lag else 0) (size_t (frames - Z.abs lag)) in
      (sum_ab, sum_b2, sum_a2)).
  { rewrite <- lag_sums_swap.
    destruct (Z.geb_spec (- lag) 0) as [H1|H1],
             (Z.geb_spec lag 0) as [H2|H2]; try reflexivity; try lia.
    assert (lag = 0) by lia. subst lag. reflexivity. }
  rewrite Hsums.
  destruct (lag_sums ref tgt _ _ _ _ _) as [[sab sa2] sb2].
  rewrite (Rmult_comm sb2 sa2). reflexivity.
Qed.



(** ** Shape of the conditioned snapshot *)

Section Taper.
Local Open Scope R_scope.


(** The weights are symmetric around the middle of the window. *)
Lemma hann_weight_sym (i : nat) (frames : Z) :
  (2 <= frames)%Z -> (Z.of_nat i <= frames - 1)%Z ->
  hann_weight (Z.to_nat (frames - 1) - i) frames = hann_weight i frames.
Proof.
  intros Hf Hi. unfold hann_weight. do 2 f_equal.
  replace 2.0 with 2 by lra. replace 1.0 with 1 by lra.
  assert (Hd : IZR frames - 1 <> 0).
  { assert (2 <= IZR frames) by (apply IZR_le; exact Hf). lra. }
  rewrite minus_INR by lia.
  rewrite (INR_IZR_INZ (Z.to_nat (frames - 1))), Z2Nat.id by lia.
  rewrite minus_IZR.
  replace (2 * PI * (IZR frames - 1 - INR i) / (IZR frames - 1))
    with (2 * PI - 2 * PI * INR i / (IZR frames - 1))
    by (field; exact Hd).
  rewrite cos_minus, cos_2PI, sin_2PI. lra.
Qed.

(** The last weight of the window is zero, like the first. *)
Lemma hann_weight_last (frames : Z) :
  (2 <= frames)%Z -> hann_weight (Z.to_nat (frames - 1)) frames = 0.
Proof.
  intros Hf.
  pose proof (hann_weight_sym 0 frames Hf ltac:(lia)) as Hs.
  rewrite Nat.sub_0_r in Hs. rewrite Hs. apply hann_weight_0.
Qed.

End Taper.



(** What a successful snapshot holds: the copy loop read both rings from
    their start indices. *)
Lemma snapshot_shape (dm : delay_meter_data) (alloc_ok : bool)
    (ref tgt : list R) (frames : Z) :
  snapshot dm alloc_ok = Some (ref, tgt, frames) ->
  alloc_ok = true /\ frames = snapshot_frames dm /\ 1024 <= frames /\
  ref = ring_read dm.(ref_buffer) dm.(capacity)
          (recent_start dm.(capacity) dm.(ref_pos) frames) frames /\
  tgt = ring_read dm.(tgt_buffer) dm.(capacity)
          (recent_start dm.(capacity) dm.(tgt_pos) frames) frames.
Proof.
  unfold snapshot. cbv zeta.
  destruct (Z.ltb_spec (snapshot_frames dm) 1024) as [Hlt|Hge]; [discriminate|].
  destruct alloc_ok; [|discriminate]. cbn [negb].
  rewrite snapshot_loop_reads. intros [= <- <- <-].
  repeat split; try reflexivity. exact Hge.
Qed.

(** X13. What [copy_recent] hands out. It fails exactly when fewer than
    1024 frames are common to the window and the two counts, or when an
    allocation failed. Otherwise the frame count is the least of the window
    and the two counts, both arrays have that many samples, and, the window
    being applied last, the first and the last sample of both arrays are
    zero. *)
Theorem copy_recent_shape (dm : delay_meter_data) (alloc_ok : bool) :
  match copy_recent dm alloc_ok with
  | Some (ref, tgt, frames) =>
      alloc_ok = true /\
      frames = snapshot_frames dm /\
      1024 <= frames /\
      frames <= ref_count dm /\ frames <= tgt_count dm /\
      frames <= ms_to_samples (window_ms dm) (sample_rate dm) /\
      length ref = Z.to_nat frames /\ length tgt = Z.to_nat frames /\
      ref !!! 0%nat = 0%R /\ tgt !!! 0%nat = 0%R /\
      ref !!! Z.to_nat (frames - 1) = 0%R /\
      tgt !!! Z.to_nat (frames - 1) = 0%R
  | None => snapshot_frames dm < 1024 \/ alloc_ok = false
  end.
Proof.
  unfold copy_recent.
  destruct (snapshot dm alloc_ok) as [[[ref tgt] frames]|] eqn:Hs.
  - apply snapshot_shape in Hs.
    destruct Hs as (Ha & Hf & Hge & Href & Htgt).
    assert (Hlr : length ref = Z.to_nat frames)
      by (rewrite Href; apply ring_read_length).
    assert (Hlt : length tgt = Z.to_nat frames)
      by (rewrite Htgt; apply ring_read_length).
    pose proof (snapshot_frames_min dm) as Hmin.
    assert (Hend : forall x : list R, length x = Z.to_nat frames ->
      length (apply_hann_window (apply_pre_emphasis x frames) frames)
      = Z.to_nat frames /\
      apply_hann_window (apply_pre_emphasis x frames) frames !!! 0%nat = 0%R /\
      apply_hann_window (apply_pre_emphasis x frames) frames
        !!! Z.to_nat (frames - 1) = 0%R).
    { intros x Hx.
      assert (Hp : length (apply_pre_emphasis x frames) = Z.to_nat frames)
        by (rewrite apply_pre_emphasis_length; lia).
      split; [rewrite apply_hann_window_length; lia|].
      split; [apply conditioned_head; lia|].
      rewrite apply_hann_window_lookup by lia.
      destruct (Nat.ltb_spec (Z.to_nat (frames - 1)) (Z.to_nat frames)); [|lia].
      rewrite hann_weight_last by lia. lra. }
    destruct (Hend ref Hlr) as (H1 & H2 & H3).
    destruct (Hend tgt Hlt) as (H4 & H5 & H6).
    repeat split; try assumption; lia.
  - unfold snapshot in Hs. cbv zeta in Hs.
    destruct (Z.ltb_spec (snapshot_frames dm) 1024) as [Hlt|Hge];
      [left; exact Hlt|].
    destruct alloc_ok; [|right; reflexivity]. cbn [negb] in Hs.
    destruct (snapshot_loop _ _ _ _ _ _); discriminate.
Qed.

(** X14. In exact real arithmetic the pre-emphasis filter is invertible:
    the input is recovered from the output by [x[0] = y[0]] and
    [x[i] = y[i] + 0.95 * x[i-1]], so two arrays of the same length with the
    same filtered output are equal. This is a property of the recurrence,
    stated in the arithmetic of the model; the source rounds every
    difference to single precision, where inputs that differ by less than
    a rounding error can give the same output. *)
Theorem pre_emphasis_invertible (x x' : list R) (frames : Z) :
  length x = length x' ->
  frames <= Z.of_nat (length x) ->
  (forall i : nat, (1 <= i < Z.to_nat frames)%nat ->
     x !!! i = (apply_pre_emphasis x frames !!! i + 0.95 * x !!! (i - 1)%nat)%R) /\
  (apply_pre_emphasis x frames = apply_pre_emphasis x' frames -> x = x').
Proof.
  intros Hlen Hf. split.
  - intros i Hi. rewrite apply_pre_emphasis_lookup by lia.
    destruct (Nat.leb_spec 1 i); [|lia].
    destruct (Nat.ltb_spec i (Z.to_nat frames)); [|lia].
    cbn [andb]. unfold PRE_EMPHASIS_ALPHA. lra.
  - intros Heq. apply list_eq_total; [exact Hlen|].
    intros i _. induction i as [|i IH].
    + pose proof (apply_pre_emphasis_lookup x frames 0 Hf) as H1.
      pose proof (apply_pre_emphasis_lookup x' frames 0 ltac:(lia)) as H2.
      cbn [Nat.leb andb] in H1, H2. rewrite <- H1, <- H2, Heq. reflexivity.
    + pose proof (apply_pre_emphasis_lookup x frames (S i) Hf) as H1.
      pose proof (apply_pre_emphasis_lookup x' frames (S i) ltac:(lia)) as H2.
      rewrite Heq in H1. rewrite H1 in H2. clear H1.
      replace (S i - 1)%nat with i in H2 by lia.
      destruct ((1 <=? S i)%nat && (S i <? Z.to_nat frames)%nat).
      * rewrite IH in H2. lra.
      * exact H2.
Qed.

Lemma pre_emphasis_invertible_witness :
  (forall i : nat, (1 <= i < Z.to_nat 4)%nat ->
     [1; 1; 1; 1]%R !!! i
     = (apply_pre_emphasis [1; 1; 1; 1]%R 4 !!! i
        + 0.95 * [1; 1; 1; 1]%R !!! (i - 1)%nat)%R) /\
  (apply_pre_emphasis [1; 1; 1; 1]%R 4 = apply_pre_emphasis [1; 1; 1; 1]%R 4 ->
   [1; 1; 1; 1]%R = [1; 1; 1; 1]%R).
Proof.
  apply (pre_emphasis_invertible [1; 1; 1; 1]%R [1; 1; 1; 1]%R 4).
  - reflexivity.
  - cbn. lia.
Defined.

(** ** Publication of the result *)

(** X15. The path of a result to the UI. [set_result] stores the texts with
    the time stamp and raises the pending flag; it queues a UI task only
    when none was pending, so a second result before the UI ran queues
    nothing. When the task runs, [apply_result_ui] lowers the flag and
    writes the texts stored last into the settings, leaving the stored
    result as it was. *)
Theorem result_reaches_ui (dm : delay_meter_data) (now now' : Z)
    (first second : text) (notes notes' : option text) (ctx : obs_source)
    (settings : result_view) :
  context dm = Some ctx ->
  let dm1 := set_result dm now (Some first) notes in
  let dm2 := set_result dm1 now' (Some second) notes' in
  set_result_queues dm (Some first) = negb (ui_update_pending dm) /\
  ui_update_pending dm1 = true /\
  set_result_queues dm1 (Some second) = false /\
  apply_result_ui dm1 (Some settings)
  = (with_texts (Some first) (Some (FmtTime now))
       (Some (default (Lit EmptyString) notes)) false true dm,
     Some (mk_view (FmtTime now) first (default (Lit EmptyString) notes))) /\
  (apply_result_ui dm2 (Some settings)).2
  = Some (mk_view (FmtTime now') second (default (Lit EmptyString) notes')) /\
  ui_update_pending (apply_result_ui dm2 (Some settings)).1 = false /\
  set_result_queues (apply_result_ui dm2 (Some settings)).1 (Some first) = true.
Proof.
  intros Hctx. destruct dm. cbn in Hctx. subst. cbn. repeat split.
Qed.

Lemma result_reaches_ui_witness :
  let dm1 := set_result dm_idle 1 (Some (Lit "a")) None in
  let dm2 := set_result dm1 2 (Some (Lit "b")) (Some (Lit "c")) in
  set_result_queues dm_idle (Some (Lit "a")) = negb (ui_update_pending dm_idle) /\
  ui_update_pending dm1 = true /\
  set_result_queues dm1 (Some (Lit "b")) = false /\
  apply_result_ui dm1 (Some (mk_view (Lit "x") (Lit "y") (Lit "z")))
  = (with_texts (Some (Lit "a")) (Some (FmtTime 1))
       (Some (default (Lit EmptyString) None)) false true dm_idle,
     Some (mk_view (FmtTime 1) (Lit "a") (default (Lit EmptyString) None))) /\
  (apply_result_ui dm2 (Some (mk_view (Lit "x") (Lit "y") (Lit "z")))).2
  = Some (mk_view (FmtTime 2) (Lit "b")
            (default (Lit EmptyString) (Some (Lit "c")))) /\
  ui_update_pending
    (apply_result_ui dm2 (Some (mk_view (Lit "x") (Lit "y") (Lit "z")))).1
  = false /\
  set_result_queues
    (apply_result_ui dm2 (Some (mk_view (Lit "x") (Lit "y") (Lit "z")))).1
    (Some (Lit "a")) = true.
Proof.
  apply (result_reaches_ui dm_idle 1 2 (Lit "a") (Lit "b") None
           (Some (Lit "c")) 0%nat (mk_view (Lit "x") (Lit "y") (Lit "z"))).
  reflexivity.
Defined.

Section SyncOffset.

Variables (get_parent : option obs_source -> option obs_source)
          (get_ref : obs_source -> option obs_source)
          (fmt_applied : R -> string).

Abbreviation click := (apply_sync_offset_clicked get_parent get_ref fmt_applied).

(** X16. A click on "Apply to Sync Offset" without a valid measurement is
    refused: nothing is applied and the text " No recent measurement" is
    stored. But storing that text goes through [set_result], which marks the
    result valid; the stored delay is untouched, so with the parent at hand
    the next click applies that delay (0 on a fresh engine, else the one of
    the last measurement that succeeded). *)
Theorem refused_offset_marks_valid (dm : delay_meter_data) (now now' : Z)
    (parent ref : obs_source) :
  last_delay_valid dm = false ->
  get_parent (context dm) = Some parent ->
  get_ref parent = Some ref ->
  let '(dm1, applied1) := click dm now in
  let '(dm2, applied2) := click dm1 now' in
  applied1 = None /\
  last_delay_text dm1 = Some (Lit " No recent measurement") /\
  last_delay_valid dm1 = true /\
  last_delay_ms dm1 = last_delay_ms dm /\
  applied2 = Some (ref, llround (last_delay_ms dm * 1000000.0)) /\
  last_delay_text dm2 = Some (Lit (fmt_applied (last_delay_ms dm))).
Proof.
  intros Hv Hp Hr. unfold apply_sync_offset_clicked.
  rewrite Hv. cbn [negb]. cbn [set_result with_texts last_delay_valid
    last_delay_ms context last_delay_text].
  cbn [negb]. rewrite Hp, Hr. cbn. repeat split.
Qed.

(** X17. The offset follows the measurement. After a measurement that
    succeeded, a click with the parent at hand calls
    [obs_source_set_sync_offset] on it with the measured delay in
    nanoseconds, rounded by [llround], and leaves the delay stored. After a
    measurement that failed, the click applies nothing and reports
    " No recent measurement". *)
Theorem offset_follows_measurement (dm : delay_meter_data) (now now' : Z)
    (alloc_ok : bool) (parent ref : obs_source) :
  get_parent (context dm) = Some parent ->
  get_ref parent = Some ref ->
  let '(ok, dm1) := perform_measure dm now alloc_ok in
  let '(dm2, applied) := click dm1 now' in
  (ok = true ->
   applied = Some (ref, llround (last_delay_ms dm1 * 1000000.0)) /\
   last_delay_text dm2 = Some (Lit (fmt_applied (last_delay_ms dm1))) /\
   last_delay_ms dm2 = last_delay_ms dm1) /\
  (ok = false ->
   applied = None /\
   last_delay_text dm2 = Some (Lit " No recent measurement") /\
   last_delay_ms dm2 = last_delay_ms dm).
Proof.
  intros Hp Hr. unfold perform_measure.
  destruct (target dm) as [t|].
  - destruct (negb _).
    + unfold apply_sync_offset_clicked. cbn.
      split; [discriminate|]. intros _. repeat split.
    + destruct (estimate_delay dm alloc_ok) as [[delay corr]|].
      * unfold apply_sync_offset_clicked. cbn. rewrite Hp, Hr. cbn.
        split; [|discriminate]. intros _. repeat split.
      * unfold apply_sync_offset_clicked. cbn.
        split; [discriminate|]. intros _. repeat split.
  - unfold apply_sync_offset_clicked. cbn.
    split; [discriminate|]. intros _. repeat split.
Qed.

End SyncOffset.

Lemma refused_offset_marks_valid_witness :
  let click :=
    apply_sync_offset_clicked (fun _ => Some 5%nat) (fun p => Some p)
      (fun _ => "Applied"%string) in
  let '(dm1, applied1) := click dm_idle 1 in
  let '(dm2, applied2) := click dm1 2 in
  applied1 = None /\
  last_delay_text dm1 = Some (Lit " No recent measurement") /\
  last_delay_valid dm1 = true /\
  last_delay_ms dm1 = last_delay_ms dm_idle /\
  applied2 = Some (5%nat, llround (last_delay_ms dm_idle * 1000000.0)) /\
  last_delay_text dm2 = Some (Lit "Applied").
Proof.
  apply (refused_offset_marks_valid (fun _ => Some 5%nat) (fun p => Some p)
           (fun _ => "Applied"%string) dm_idle 1 2 5%nat 5%nat);
    reflexivity.
Defined.

Lemma offset_follows_measurement_witness :
  let click :=
    apply_sync_offset_clicked (fun _ => Some 5%nat) (fun p => Some p)
      (fun _ => "Applied"%string) in
  let '(ok, dm1) := perform_measure dm_click 1 true in
  let '(dm2, applied) := click dm1 2 in
  (ok = true ->
   applied = Some (5%nat, llround (last_delay_ms dm1 * 1000000.0)) /\
   last_delay_text dm2 = Some (Lit "Applied") /\
   last_delay_ms dm2 = last_delay_ms dm1) /\
  (ok = false ->
   applied = None /\
   last_delay_text dm2 = Some (Lit " No recent measurement") /\
   last_delay_ms dm2 = last_delay_ms dm_click).
Proof.
  apply (offset_follows_measurement (fun _ => Some 5%nat) (fun p => Some p)
           (fun _ => "Applied"%string) dm_click 1 2 true 5%nat 5%nat);
    reflexivity.
Defined.

(** ** From the callbacks to the snapshot *)

(** A producer callback on a bound engine leaves the binding and the
    format alone. *)
Lemma run_callback_frame (sources : string -> option obs_source)
    (dm : delay_meter_data) (t : obs_source) (cb : audio_callback) :
  target dm = Some t ->
  let dm' := run_callback sources dm cb in
  target dm' = Some t /\ format dm' = format dm /\
  window_ms dm' = window_ms dm /\ sample_rate dm' = sample_rate dm /\
  max_lag_ms dm' = max_lag_ms dm.
Proof.
  intros Ht. destruct cb as [s|s]; cbn.
  - unfold delay_meter_filter_audio. rewrite Ht. cbv iota beta zeta.
    rewrite Ht. destruct (as_float_channel _ _); [|repeat split; exact Ht].
    destruct (ring_write _ _ _ _ _ _) as [[b p] c]. cbn. repeat split.
    exact Ht.
  - unfold capture_target.
    destruct (as_float_channel _ _); [|repeat split; exact Ht].
    destruct (ring_write _ _ _ _ _ _) as [[b p] c]. cbn. repeat split.
    exact Ht.
Qed.

(** Each callback appends its chunk to the history of its own ring. *)
Lemma run_callbacks_hold (sources : string -> option obs_source)
    (t : obs_source) (cbs : list audio_callback) :
  forall (dm : delay_meter_data) (ref_hist tgt_hist : list R),
  format dm = AUDIO_FORMAT_FLOAT_PLANAR ->
  target dm = Some t ->
  ring_holds dm.(ref_buffer) dm.(capacity) dm.(ref_pos) dm.(ref_count) ref_hist ->
  ring_holds dm.(tgt_buffer) dm.(capacity) dm.(tgt_pos) dm.(tgt_count) tgt_hist ->
  let dm' := fold_left (run_callback sources) cbs dm in
  target dm' = Some t /\ capacity dm' = capacity dm /\
  window_ms dm' = window_ms dm /\ sample_rate dm' = sample_rate dm /\
  max_lag_ms dm' = max_lag_ms dm /\
  ring_holds dm'.(ref_buffer) dm'.(capacity) dm'.(ref_pos) dm'.(ref_count)
    (ref_hist ++ reference_stream cbs) /\
  ring_holds dm'.(tgt_buffer) dm'.(capacity) dm'.(tgt_pos) dm'.(tgt_count)
    (tgt_hist ++ target_stream cbs).
Proof.
  induction cbs as [|cb cbs IH]; intros dm ref_hist tgt_hist Hfmt Ht Hr Hg.
  - cbn. rewrite !app_nil_r.
    split; [exact Ht|]. do 4 (split; [reflexivity|]).
    split; [exact Hr|exact Hg].
  - cbn [fold_left].
    pose proof (run_callback_frame sources dm t cb Ht) as Hfr.
    cbv zeta in Hfr. destruct Hfr as (Ht' & Hfmt' & Hw & Hsr & Hml).
    assert (Hstep :
      capacity (run_callback sources dm cb) = capacity dm /\
      ring_holds (run_callback sources dm cb).(ref_buffer) dm.(capacity)
        (run_callback sources dm cb).(ref_pos)
        (run_callback sources dm cb).(ref_count)
        (ref_hist ++ reference_stream [cb]) /\
      ring_holds (run_callback sources dm cb).(tgt_buffer) dm.(capacity)
        (run_callback sources dm cb).(tgt_pos)
        (run_callback sources dm cb).(tgt_count)
        (tgt_hist ++ target_stream [cb])).
    { destruct cb as [s|s]; cbn [run_callback reference_stream target_stream
        flat_map]; rewrite ?app_nil_r.
      - pose proof (filter_audio_writes sources dm t s Hfmt Ht) as Hwr.
        cbv zeta in Hwr. destruct Hwr as (Hrw & Htw & Hcap).
        split; [exact Hcap|].
        injection Htw as -> -> ->. split; [|exact Hg].
        pose proof (write_chunk_holds dm.(capacity)
                      (dm.(ref_buffer), dm.(ref_pos), dm.(ref_count))
                      ref_hist s Hr) as Hh.
        cbv zeta in Hh. rewrite <- Hrw in Hh. exact Hh.
      - pose proof (capture_target_writes dm s Hfmt) as Hwr.
        cbv zeta in Hwr. destruct Hwr as (Htw & Hrw & Hcap).
        split; [exact Hcap|].
        injection Hrw as -> -> ->. split; [exact Hr|].
        pose proof (write_chunk_holds dm.(capacity)
                      (dm.(tgt_buffer), dm.(tgt_pos), dm.(tgt_count))
                      tgt_hist s Hg) as Hh.
        cbv zeta in Hh. rewrite <- Htw in Hh. exact Hh. }
    destruct Hstep as (Hcap & Hr' & Hg').
    rewrite <- Hcap in Hr', Hg'.
    specialize (IH (run_callback sources dm cb) _ _
                  ltac:(congruence) Ht' Hr' Hg').
    cbv zeta in IH.
    destruct IH as (I1 & I2 & I3 & I4 & I5 & I6 & I7).
    assert (Hrs : forall cb cbs,
      reference_stream (cb :: cbs)
      = reference_stream [cb] ++ reference_stream cbs).
    { intros. cbn. rewrite app_nil_r. reflexivity. }
    assert (Hts : forall cb cbs,
      target_stream (cb :: cbs) = target_stream [cb] ++ target_stream cbs).
    { intros. cbn. rewrite app_nil_r. reflexivity. }
    rewrite Hrs, Hts, !app_assoc.
    split; [exact I1|]. do 4 (split; [congruence|]).
    rewrite I2, Hcap in I6, I7. rewrite I2, Hcap.
    split; [exact I6|exact I7].
Qed.

(** The engine [delay_meter_create] returns when the host knows the source
    named in the settings: bound, in planar float format, with the settings
    truncated to 32 bits. *)
Lemma create_bound (sources : string -> option obs_source)
    (settings : obs_data) (ctx : obs_source) (rate : Z) (n : string)
    (t : obs_source) :
  setting_target_source settings = Some n -> n <> EmptyString ->
  sources n = Some t ->
  let dm := delay_meter_create sources settings ctx rate in
  target dm = Some t /\ target_name dm = Some n /\
  format dm = AUDIO_FORMAT_FLOAT_PLANAR /\
  sample_rate dm = rate /\
  window_ms dm = uint32_t (setting_window_ms settings) /\
  max_lag_ms dm = uint32_t (setting_max_lag_ms settings).
Proof.
  intros Hn Hne Hs. unfold delay_meter_create, connect_target.
  cbn [target target_name].
  change (obs_data_get_string settings "target_source")
    with (setting_target_source settings).
  rewrite Hn. destruct (String.eqb_spec n EmptyString) as [He|_];
    [contradiction|].
  cbn. rewrite Hs. cbn. repeat split.
Qed.

(** X18. From creation to the snapshot. On an engine created with a target
    the host knows, after any interleaving of reference and target
    callbacks, each ring holds its own stream: its count is the length of
    the stream capped at the capacity of five seconds, its contents are the
    last samples of the stream, and when at least 1024 frames are common to
    the window and the two counts [copy_recent] returns, conditioned, the
    last frames of the two streams. *)
Theorem engine_end_to_end (sources : string -> option obs_source)
    (settings : obs_data) (ctx : obs_source) (rate : Z) (n : string)
    (t : obs_source) (cbs : list audio_callback) :
  0 < rate < UINT32_MODULUS ->
  setting_target_source settings = Some n -> n <> EmptyString ->
  sources n = Some t ->
  let dm := fold_left (run_callback sources) cbs
              (delay_meter_create sources settings ctx rate) in
  let ref_hist := reference_stream cbs in
  let tgt_hist := target_stream cbs in
  let frames := snapshot_frames dm in
  target dm = Some t /\ capacity dm = 5 * rate /\
  ref_count dm = Z.min (Z.of_nat (length ref_hist)) (5 * rate) /\
  tgt_count dm = Z.min (Z.of_nat (length tgt_hist)) (5 * rate) /\
  ring_contents dm.(ref_buffer) dm.(capacity) dm.(ref_pos) dm.(ref_count)
  = last_n (ref_count dm) ref_hist /\
  ring_contents dm.(tgt_buffer) dm.(capacity) dm.(tgt_pos) dm.(tgt_count)
  = last_n (tgt_count dm) tgt_hist /\
  frames = Z.min (ms_to_samples (uint32_t (setting_window_ms settings)) rate)
             (Z.min (ref_count dm) (tgt_count dm)) /\
  (1024 <= frames ->
   copy_recent dm true
   = Some (apply_hann_window
             (apply_pre_emphasis (last_n frames ref_hist) frames) frames,
           apply_hann_window
             (apply_pre_emphasis (last_n frames tgt_hist) frames) frames,
           frames)).
Proof.
  intros Hrate Hn Hne Hs.
  pose proof (create_rings_ok sources settings ctx rate Hrate) as Hc.
  pose proof (create_bound sources settings ctx rate n t Hn Hne Hs) as Hb.
  cbv zeta in Hc, Hb.
  set (dm0 := delay_meter_create sources settings ctx rate) in *.
  destruct Hc as (Hcap & Hro & Hto & Hrc & Htc).
  destruct Hb as (Ht & _ & Hfmt & Hsr & Hw & _).
  assert (Hr0 : ring_holds dm0.(ref_buffer) dm0.(capacity) dm0.(ref_pos)
                  dm0.(ref_count) []).
  { split; [exact Hro|]. rewrite Hrc. cbn [length]. split; [lia|].
    intros j Hj. lia. }
  assert (Hg0 : ring_holds dm0.(tgt_buffer) dm0.(capacity) dm0.(tgt_pos)
                  dm0.(tgt_count) []).
  { split; [exact Hto|]. rewrite Htc. cbn [length]. split; [lia|].
    intros j Hj. lia. }
  pose proof (run_callbacks_hold sources t cbs dm0 [] [] Hfmt Ht Hr0 Hg0)
    as Hrun.
  cbv zeta in Hrun. cbn [app] in Hrun.
  cbv zeta. set (dm := fold_left (run_callback sources) cbs dm0) in *.
  destruct Hrun as (Ht' & Hcap' & Hw' & Hsr' & _ & Hr & Hg).
  split; [exact Ht'|]. split; [congruence|].
  pose proof Hr as (_ & Hrcount & _). pose proof Hg as (_ & Htcount & _).
  split; [rewrite Hrcount; congruence|].
  split; [rewrite Htcount; congruence|].
  split; [apply ring_holds_contents; exact Hr|].
  split; [apply ring_holds_contents; exact Hg|].
  split.
  - rewrite snapshot_frames_min. congruence.
  - intros Hf. apply copy_recent_conditioned; assumption.
Qed.

Lemma engine_end_to_end_witness :
  let sources := fun _ : string => Some 1%nat in
  let settings := mk_settings 1000 500 false (Some "Mic"%string) in
  let cbs := [ReferenceAudio [1; 2]%R; TargetAudio [3]%R;
              ReferenceAudio [4]%R] in
  let dm := fold_left (run_callback sources) cbs
              (delay_meter_create sources settings 0%nat 8) in
  let ref_hist := reference_stream cbs in
  let tgt_hist := target_stream cbs in
  let frames := snapshot_frames dm in
  target dm = Some 1%nat /\ capacity dm = 5 * 8 /\
  ref_count dm = Z.min (Z.of_nat (length ref_hist)) (5 * 8) /\
  tgt_count dm = Z.min (Z.of_nat (length tgt_hist)) (5 * 8) /\
  ring_contents dm.(ref_buffer) dm.(capacity) dm.(ref_pos) dm.(ref_count)
  = last_n (ref_count dm) ref_hist /\
  ring_contents dm.(tgt_buffer) dm.(capacity) dm.(tgt_pos) dm.(tgt_count)
  = last_n (tgt_count dm) tgt_hist /\
  frames = Z.min (ms_to_samples (uint32_t (setting_window_ms settings)) 8)
             (Z.min (ref_count dm) (tgt_count dm)) /\
  (1024 <= frames ->
   copy_recent dm true
   = Some (apply_hann_window
             (apply_pre_emphasis (last_n frames ref_hist) frames) frames,
           apply_hann_window
             (apply_pre_emphasis (last_n frames tgt_hist) frames) frames,
           frames)).
Proof.
  apply (engine_end_to_end (fun _ : string => Some 1%nat)
           (mk_settings 1000 500 false (Some "Mic"%string)) 0%nat 8
           "Mic"%string 1%nat
           [ReferenceAudio [1; 2]%R; TargetAudio [3]%R; ReferenceAudio [4]%R]).
  - unfold UINT32_MODULUS. lia.
  - reflexivity.
  - discriminate.
  - reflexivity.
Defined.

(** X19. Warm-up. On an engine created with a target the host knows, as
    long as fewer than 1024 samples have arrived on either side the
    measurement is refused with "Buffers too small", whatever the samples
    are. *)
Theorem warm_up_refuses (sources : string -> option obs_source)
    (settings : obs_data) (ctx : obs_source) (rate : Z) (n : string)
    (t : obs_source) (cbs : list audio_callback) (now : Z) (alloc_ok : bool) :
  0 < rate < UINT32_MODULUS ->
  setting_target_source settings = Some n -> n <> EmptyString ->
  sources n = Some t ->
  (length (reference_stream cbs) < 1024)%nat \/
  (length (target_stream cbs) < 1024)%nat ->
  let dm := fold_left (run_callback sources) cbs
              (delay_meter_create sources settings ctx rate) in
  (perform_measure dm now alloc_ok).1 = false /\
  last_delay_text (perform_measure dm now alloc_ok).2
  = Some (Lit "Buffers too small") /\
  last_delay_valid (perform_measure dm now alloc_ok).2 = false.
Proof.
  intros Hrate Hn Hne Hs Hshort.
  pose proof (create_rings_ok sources settings ctx rate Hrate) as Hc.
  pose proof (create_bound sources settings ctx rate n t Hn Hne Hs) as Hb.
  cbv zeta in Hc, Hb.
  set (dm0 := delay_meter_create sources settings ctx rate) in *.
  destruct Hc as (Hcap & Hro & Hto & Hrc & Htc).
  destruct Hb as (Ht & _ & Hfmt & _).
  assert (Hr0 : ring_holds dm0.(ref_buffer) dm0.(capacity) dm0.(ref_pos)
                  dm0.(ref_count) []).
  { split; [exact Hro|]. rewrite Hrc. cbn [length]. split; [lia|].
    intros j Hj. lia. }
  assert (Hg0 : ring_holds dm0.(tgt_buffer) dm0.(capacity) dm0.(tgt_pos)
                  dm0.(tgt_count) []).
  { split; [exact Hto|]. rewrite Htc. cbn [length]. split; [lia|].
    intros j Hj. lia. }
  pose proof (run_callbacks_hold sources t cbs dm0 [] [] Hfmt Ht Hr0 Hg0)
    as Hrun.
  cbv zeta in Hrun. cbn [app] in Hrun.
  cbv zeta. set (dm := fold_left (run_callback sources) cbs dm0) in *.
  destruct Hrun as (Ht' & _ & _ & _ & _ & Hr & Hg).
  destruct Hr as (_ & Hrcount & _). destruct Hg as (_ & Htcount & _).
  unfold perform_measure. rewrite Ht'.
  assert (He : (ref_count dm >=? 1024) && (tgt_count dm >=? 1024) = false).
  { apply andb_false_iff.
    destruct Hshort as [H|H]; [left|right];
      rewrite Z.geb_leb; apply Z.leb_gt; lia. }
  rewrite He. cbn. repeat split.
Qed.

Lemma warm_up_refuses_witness :
  let sources := fun _ : string => Some 1%nat in
  let settings := mk_settings 1000 500 false (Some "Mic"%string) in
  let cbs := [ReferenceAudio [1; 2]%R; TargetAudio [3]%R] in
  let dm := fold_left (run_callback sources) cbs
              (delay_meter_create sources settings 0%nat 8) in
  (perform_measure dm 0 true).1 = false /\
  last_delay_text (perform_measure dm 0 true).2
  = Some (Lit "Buffers too small") /\
  last_delay_valid (perform_measure dm 0 true).2 = false.
Proof.
  apply (warm_up_refuses (fun _ : string => Some 1%nat)
           (mk_settings 1000 500 false (Some "Mic"%string)) 0%nat 8
           "Mic"%string 1%nat [ReferenceAudio [1; 2]%R; TargetAudio [3]%R]
           0 true).
  - unfold UINT32_MODULUS. lia.
  - reflexivity.
  - discriminate.
  - reflexivity.
  - left. cbn. lia.
Defined.

(** ** The window and the sliders *)

(** X20. A window shorter than 1024 frames blocks every measurement: the
    snapshot is refused whatever the rings hold, and the measurement
    returns false. Such a window is what a "window_ms" of 0 gives, or
    21 ms at 48 kHz (1008 frames). *)
Theorem short_window_never_measures (dm : delay_meter_data) (now : Z)
    (alloc_ok : bool) :
  ms_to_samples (window_ms dm) (sample_rate dm) < 1024 ->
  copy_recent dm alloc_ok = None /\
  (perform_measure dm now alloc_ok).1 = false /\
  last_delay_valid (perform_measure dm now alloc_ok).2 = false /\
  (target dm <> None -> 1024 <= ref_count dm -> 1024 <= tgt_count dm ->
   last_delay_text (perform_measure dm now alloc_ok).2
   = Some (Lit "Insufficient correlation - check audio levels and similarity")).
Proof.
  intros Hw.
  assert (Hcopy : copy_recent dm alloc_ok = None).
  { unfold copy_recent. rewrite snapshot_None; [reflexivity|].
    rewrite snapshot_frames_min. lia. }
  split; [exact Hcopy|].
  unfold perform_measure, estimate_delay. rewrite Hcopy.
  destruct (target dm) as [t|].
  - destruct (Z.geb_spec (ref_count dm) 1024) as [Hr|Hr],
             (Z.geb_spec (tgt_count dm) 1024) as [Hg|Hg]; cbn;
      repeat split; intros; try reflexivity; lia.
  - cbn. repeat split. intros H. congruence.
Qed.

Lemma short_window_never_measures_witness :
  let dm := with_config 21 500 false dm_click in
  ms_to_samples (window_ms dm) (sample_rate dm) = 1008 /\
  copy_recent dm true = None /\
  (perform_measure dm 0 true).1 = false /\
  last_delay_valid (perform_measure dm 0 true).2 = false /\
  (target dm <> None -> 1024 <= ref_count dm -> 1024 <= tgt_count dm ->
   last_delay_text (perform_measure dm 0 true).2
   = Some (Lit "Insufficient correlation - check audio levels and similarity")).
Proof.
  cbv zeta. split; [reflexivity|].
  apply (short_window_never_measures (with_config 21 500 false dm_click) 0 true).
  reflexivity.
Defined.

(** X21. With settings inside the ranges of the sliders and a sample rate
    between 5118 Hz and 2^30 Hz, the window never blocks a measurement and
    fits in the rings: it is at least 1024 frames and at most the capacity
    of five seconds; and the lag bound survives the cast to [int]
    unchanged and positive. *)
Theorem slider_settings_fit (w l rate : Z) :
  MIN_WINDOW_MS <= w <= MAX_WINDOW_MS ->
  50 <= l <= MAX_LAG_MS ->
  5118 <= rate <= 2 ^ 30 ->
  1024 <= ms_to_samples w rate /\
  ms_to_samples w rate
  <= ms_to_samples (uint32_t (BUFFER_SECONDS * 1000)) rate /\
  ms_to_samples (uint32_t (BUFFER_SECONDS * 1000)) rate = 5 * rate /\
  int_cast (ms_to_samples l rate) = ms_to_samples l rate /\
  0 < ms_to_samples l rate.
Proof.
  unfold MIN_WINDOW_MS, MAX_WINDOW_MS, MAX_LAG_MS.
  intros Hw Hl Hrate.
  change (uint32_t (BUFFER_SECONDS * 1000)) with 5000.
  change (2 ^ 30) with 1073741824 in Hrate.
  rewrite !ms_to_samples_eq by (unfold UINT32_MODULUS; lia).
  assert (Hcap : (5000 * rate + 500) / 1000 = 5 * rate).
  { symmetry. apply (Z.div_unique _ _ _ 500); lia. }
  assert (Hwlo : 1024 <= (w * rate + 500) / 1000).
  { apply Z.div_le_lower_bound; nia. }
  assert (Hwhi : (w * rate + 500) / 1000 <= 5 * rate).
  { apply Z.div_le_upper_bound; nia. }
  assert (Hllo : 0 < (l * rate + 500) / 1000).
  { apply Z.div_str_pos. nia. }
  assert (Hlhi : (l * rate + 500) / 1000 < 2147483648).
  { apply Z.div_lt_upper_bound; nia. }
  split; [exact Hwlo|]. split; [lia|]. split; [exact Hcap|].
  split; [apply int_cast_small; unfold INT_HALF; lia|].
  exact Hllo.
Qed.

Lemma slider_settings_fit_witness :
  1024 <= ms_to_samples 1000 48000 /\
  ms_to_samples 1000 48000
  <= ms_to_samples (uint32_t (BUFFER_SECONDS * 1000)) 48000 /\
  ms_to_samples (uint32_t (BUFFER_SECONDS * 1000)) 48000 = 5 * 48000 /\
  int_cast (ms_to_samples 500 48000) = ms_to_samples 500 48000 /\
  0 < ms_to_samples 500 48000.
Proof.
  apply (slider_settings_fit 1000 500 48000).
  - unfold MIN_WINDOW_MS, MAX_WINDOW_MS. lia.
  - unfold MAX_LAG_MS. lia.
  - lia.
Defined.

(** ** Chunking *)

Lemma for_loop_ext {T : Type} (lo hi : nat) (f g : nat -> T -> T) (s : T) :
  (forall i st, (lo <= i < hi)%nat -> f i st = g i st) ->
  for_loop lo hi f s = for_loop lo hi g s.
Proof.
  induction hi as [|hi IH]; intros Hext.
  - rewrite !for_loop_nil by lia. reflexivity.
  - destruct (Nat.le_gt_cases lo hi) as [Hle|Hgt].
    + rewrite !for_loop_S by exact Hle.
      rewrite IH by (intros; apply Hext; lia). apply Hext. lia.
    + rewrite !for_loop_nil by lia. reflexivity.
Qed.

Lemma for_loop_shift {T : Type} (k n : nat) (f : nat -> T -> T) (s : T) :
  for_loop k (k + n) f s = for_loop 0 n (fun i => f (k + i)%nat) s.
Proof.
  induction n as [|n IH].
  - rewrite !for_loop_nil by lia. reflexivity.
  - rewrite Nat.add_succ_r, !for_loop_S by lia. rewrite IH. reflexivity.
Qed.

Lemma for_loop_split {T : Type} (lo mid hi : nat) (f : nat -> T -> T) (s : T) :
  (lo <= mid <= hi)%nat ->
  for_loop lo hi f s = for_loop mid hi f (for_loop lo mid f s).
Proof.
  intros Hm. induction hi as [|hi IH].
  - assert (mid = 0%nat) by lia. subst. rewrite !for_loop_nil by lia.
    reflexivity.
  - destruct (Nat.eq_dec mid (S hi)) as [->|Hne].
    + rewrite (for_loop_nil (S hi) (S hi)) by lia. reflexivity.
    + rewrite !for_loop_S by lia. rewrite IH by lia. reflexivity.
Qed.

(** X22. The state of a ring depends on the stream only, not on how the
    host cuts it into chunks: writing a chunk and then another is writing
    their concatenation in one call. No assumption on the ring is needed. *)
Theorem ring_write_chunking {A : Type} `{!Inhabited A} (capacity : Z)
    (st : list A * Z * Z) (a b : list A) :
  write_chunk capacity (write_chunk capacity st a) b
  = write_chunk capacity st (a ++ b).
Proof.
  destruct st as [[buffer pos] count].
  unfold write_chunk at 2 3. unfold ring_write.
  rewrite !Nat2Z.id, length_app.
  rewrite (for_loop_split 0 (length a) (length a + length b)) by lia.
  rewrite (for_loop_ext 0 (length a) (ring_write_step capacity (a ++ b))
             (ring_write_step capacity a)).
  2:{ intros i [[bf p] c] Hi. unfold ring_write_step.
      rewrite lookup_total_app_l by lia. reflexivity. }
  destruct (for_loop 0 (length a) (ring_write_step capacity a)
              (buffer, pos, count)) as [[buffer' pos'] count'].
  unfold write_chunk, ring_write. rewrite Nat2Z.id.
  rewrite for_loop_shift. apply for_loop_ext.
  intros i [[bf p] c] Hi. unfold ring_write_step.
  rewrite lookup_total_app_r by lia.
  replace (length a + i - length a)%nat with i by lia. reflexivity.
Qed.

(** ** Reach of the lag search *)



(** ** Repeating a measurement *)



(** ** Defaults *)

(** X25. An engine created from the defaults is idle. The defaults are
    inside the ranges of the sliders and name no target (an empty name), so
    whatever sources the host knows the engine is unbound: it drops the
    reference audio it is given and answers a measurement with
    "No target source". *)
Theorem default_engine_idle (sources : string -> option obs_source)
    (ctx : obs_source) (rate now : Z) (alloc_ok : bool) :
  let dm := delay_meter_create sources delay_meter_defaults ctx rate in
  within_sliders delay_meter_defaults /\
  target dm = None /\ target_name dm = None /\
  window_ms dm = DEFAULT_WINDOW_MS /\ max_lag_ms dm = 500 /\
  (forall planes frames,
     delay_meter_filter_audio sources dm planes frames = dm) /\
  (perform_measure dm now alloc_ok).1 = false /\
  last_delay_text (perform_measure dm now alloc_ok).2
  = Some (Lit "No target source").
Proof.
  cbv zeta. split.
  - unfold within_sliders, delay_meter_properties_sliders.
    repeat constructor; cbn; unfold MIN_WINDOW_MS, MAX_WINDOW_MS, MAX_LAG_MS,
      DEFAULT_WINDOW_MS; lia.
  - unfold delay_meter_create, connect_target. cbn. repeat split.
Qed.
